(** * wgeasygo: peer provisioning and access control, verified against the Go sources

    A shallow embedding of the Go packages [auth], [db], [wgmanager],
    [handlers] and [middleware].  Go strings and byte slices are Rocq
    [string]s and lists of [byte]; machine words are [Z] with the wrap-around
    written out; the SQLite tables are lists of records in rowid order;
    everything that crosses the process boundary (SQL statements, the [wg]
    and [wg-quick] subprocesses, the random source, the JWT library) is a
    step of a small state monad over a [World] that carries the database,
    the live interface, a schedule of faults and the log of boundary
    events. *)

From Stdlib Require Import ZArith QArith Qround Lqa Ascii String List Bool Lia.
From Stdlib Require Import Strings.Byte.
From Stdlib Require DecimalString DecimalZ.
From stdpp Require Import base option list gmap strings.
Import ListNotations.

Local Open Scope string_scope.
Local Open Scope list_scope.
Local Open Scope Z_scope.

(** ** Bytes and strings *)

Definition bytes := list byte.

Definition b2z (b : byte) : Z := Z.of_N (Byte.to_N b).

Definition z2b (z : Z) : byte :=
  match Byte.of_N (Z.to_N (z mod 256)) with
  | Some b => b
  | None => x00
  end.

(** [[]byte(s)] and [string(b)] *)
Definition bytes_of_string (s : string) : bytes := list_byte_of_string s.
Definition string_of_bytes (b : bytes) : string := string_of_list_byte b.

Definition chr (z : Z) : ascii := ascii_of_byte (z2b z).
Definition ord (c : ascii) : Z := b2z (byte_of_ascii c).

(** [s[i:]] and [s[:i]] on Go strings *)
Fixpoint drop_str (n : nat) (s : string) : string :=
  match n, s with
  | O, _ => s
  | S n', String _ r => drop_str n' r
  | S _, EmptyString => EmptyString
  end.

Fixpoint take_str (n : nat) (s : string) : string :=
  match n, s with
  | S n', String c r => String c (take_str n' r)
  | _, _ => EmptyString
  end.

Definition len (s : string) : Z := Z.of_nat (String.length s).

Definition is_digit (c : ascii) : bool := (48 <=? ord c) && (ord c <=? 57).

(** ** encoding/base64 *)

Module base64.

Definition encodeStd : string :=
  "ABCDEFGHIJKLMNOPQRSTUVWXYZabcdefghijklmnopqrstuvwxyz0123456789+/".
Definition encodeURL : string :=
  "ABCDEFGHIJKLMNOPQRSTUVWXYZabcdefghijklmnopqrstuvwxyz0123456789-_".

Record Encoding := { alphabet : string; padded : bool }.

Definition StdEncoding := {| alphabet := encodeStd; padded := true |}.
Definition URLEncoding := {| alphabet := encodeURL; padded := true |}.
Definition RawURLEncoding := {| alphabet := encodeURL; padded := false |}.

Definition sym (enc : Encoding) (v : Z) : ascii :=
  match String.get (Z.to_nat (Z.land v 63)) (alphabet enc) with
  | Some c => c
  | None => "="%char
  end.

Definition pad (enc : Encoding) (n : nat) : string :=
  if padded enc then string_of_list_ascii (repeat "="%char n) else "".

(** [Encoding.EncodeToString]: three bytes give four symbols; a tail of
    one or two bytes gives two or three symbols and the padding. *)
Fixpoint EncodeToString (enc : Encoding) (src : bytes) : string :=
  match src with
  | a :: b :: c :: rest =>
      let v := Z.lor (Z.shiftl (b2z a) 16) (Z.lor (Z.shiftl (b2z b) 8) (b2z c)) in
      String (sym enc (Z.shiftr v 18)) (String (sym enc (Z.shiftr v 12))
        (String (sym enc (Z.shiftr v 6)) (String (sym enc v)
          (EncodeToString enc rest))))
  | [a; b] =>
      let v := Z.lor (Z.shiftl (b2z a) 16) (Z.shiftl (b2z b) 8) in
      String (sym enc (Z.shiftr v 18)) (String (sym enc (Z.shiftr v 12))
        (String (sym enc (Z.shiftr v 6)) (pad enc 1)))
  | [a] =>
      let v := Z.shiftl (b2z a) 16 in
      String (sym enc (Z.shiftr v 18)) (String (sym enc (Z.shiftr v 12))
        (pad enc 2))
  | [] => ""
  end.

(** The decode map of an encoding: position of a symbol in the alphabet. *)
Fixpoint index_of (c : ascii) (s : string) (i : Z) : option Z :=
  match s with
  | EmptyString => None
  | String d r => if Ascii.eqb c d then Some i else index_of c r (i + 1)
  end.

Definition val (enc : Encoding) (c : ascii) : option Z := index_of c (alphabet enc) 0.

(** The decoder skips carriage returns and line feeds wherever they occur. *)
Fixpoint strip_newlines (s : string) : list ascii :=
  match s with
  | EmptyString => []
  | String c r =>
      if (ord c =? 10) || (ord c =? 13) then strip_newlines r
      else c :: strip_newlines r
  end.

Definition is_pad (c : ascii) : bool := ord c =? 61.

(** One quantum at a time ([decodeQuantum]).  A quantum of four symbols
    gives three bytes.  With a padded encoding the last quantum may be
    [xx==] or [xxx=], and nothing may follow it; without padding the input
    may stop after two or three symbols.  The encodings here are not strict:
    the unused low bits of a final symbol are not checked. *)
Fixpoint decode_quanta (enc : Encoding) (n : nat) (l : list ascii) : option bytes :=
  match n with
  | O => None
  | S n' =>
      match l with
      | [] => Some []
      | [_] => None
      | c1 :: c2 :: tl =>
          match val enc c1, val enc c2 with
          | Some v1, Some v2 =>
              let b1 := z2b (Z.lor (Z.shiftl v1 2) (Z.shiftr v2 4)) in
              match tl with
              | [] => if padded enc then None else Some [b1]
              | c3 :: tl3 =>
                  match val enc c3 with
                  | Some v3 =>
                      let b2 := z2b (Z.lor (Z.shiftl v2 4) (Z.shiftr v3 2)) in
                      match tl3 with
                      | [] => if padded enc then None else Some [b1; b2]
                      | c4 :: tl4 =>
                          match val enc c4 with
                          | Some v4 =>
                              let b3 := z2b (Z.lor (Z.shiftl v3 6) v4) in
                              match decode_quanta enc n' tl4 with
                              | Some r => Some (b1 :: b2 :: b3 :: r)
                              | None => None
                              end
                          | None =>
                              if padded enc && is_pad c4 then
                                match tl4 with [] => Some [b1; b2] | _ => None end
                              else None
                          end
                      end
                  | None =>
                      if padded enc && is_pad c3 then
                        match tl3 with
                        | [c4] => if is_pad c4 then Some [b1] else None
                        | _ => None
                        end
                      else None
                  end
              end
          | _, _ => None
          end
      end
  end.

(** [Encoding.DecodeString]; [None] is a [CorruptInputError]. *)
Definition DecodeString (enc : Encoding) (s : string) : option bytes :=
  let l := strip_newlines s in
  decode_quanta enc (S (length l)) l.

End base64.

(** ** crypto/sha256 and crypto/hmac *)

Module sha256.

Definition w32 (x : Z) : Z := x mod 4294967296.
Definition add32 (x y : Z) : Z := w32 (x + y).
Definition rotr (n x : Z) : Z := Z.lor (Z.shiftr x n) (w32 (Z.shiftl x (32 - n))).
Definition not32 (x : Z) : Z := Z.lxor x 4294967295.

Definition Ch (x y z : Z) := Z.lxor (Z.land x y) (Z.land (not32 x) z).
Definition Maj (x y z : Z) := Z.lxor (Z.lxor (Z.land x y) (Z.land x z)) (Z.land y z).
Definition bsig0 x := Z.lxor (Z.lxor (rotr 2 x) (rotr 13 x)) (rotr 22 x).
Definition bsig1 x := Z.lxor (Z.lxor (rotr 6 x) (rotr 11 x)) (rotr 25 x).
Definition ssig0 x := Z.lxor (Z.lxor (rotr 7 x) (rotr 18 x)) (Z.shiftr x 3).
Definition ssig1 x := Z.lxor (Z.lxor (rotr 17 x) (rotr 19 x)) (Z.shiftr x 10).

Definition K : list Z :=
  [ 1116352408; 1899447441; 3049323471; 3921009573; 961987163; 1508970993;
    2453635748; 2870763221; 3624381080; 310598401; 607225278; 1426881987;
    1925078388; 2162078206; 2614888103; 3248222580; 3835390401; 4022224774;
    264347078; 604807628; 770255983; 1249150122; 1555081692; 1996064986;
    2554220882; 2821834349; 2952996808; 3210313671; 3336571891; 3584528711;
    113926993; 338241895; 666307205; 773529912; 1294757372; 1396182291;
    1695183700; 1986661051; 2177026350; 2456956037; 2730485921; 2820302411;
    3259730800; 3345764771; 3516065817; 3600352804; 4094571909; 275423344;
    430227734; 506948616; 659060556; 883997877; 958139571; 1322822218;
    1537002063; 1747873779; 1955562222; 2024104815; 2227730452; 2361852424;
    2428436474; 2756734187; 3204031479; 3329325298 ].

Definition digest : Type := Z * Z * Z * Z * Z * Z * Z * Z.

Definition init : digest :=
  (1779033703, 3144134277, 1013904242, 2773480762,
   1359893119, 2600822924, 528734635, 1541459225).

(** Big-endian words of a block. *)
Fixpoint words (n : nat) (b : bytes) : list Z :=
  match n with
  | O => []
  | S n' =>
      match b with
      | b0 :: b1 :: b2 :: b3 :: r =>
          Z.lor (Z.shiftl (b2z b0) 24)
            (Z.lor (Z.shiftl (b2z b1) 16) (Z.lor (Z.shiftl (b2z b2) 8) (b2z b3)))
          :: words n' r
      | _ => []
      end
  end.

(** Message schedule, most recent word first. *)
Fixpoint extend (n : nat) (r : list Z) : list Z :=
  match n with
  | O => r
  | S n' =>
      let wt := add32 (add32 (ssig1 (nth 1 r 0)) (nth 6 r 0))
                      (add32 (ssig0 (nth 14 r 0)) (nth 15 r 0)) in
      extend n' (wt :: r)
  end.

Definition schedule (block : bytes) : list Z := rev (extend 48 (rev (words 16 block))).

Definition round (s : digest) (kw : Z * Z) : digest :=
  let '(a, b, c, d, e, f, g, h) := s in
  let t1 := add32 (add32 (add32 h (bsig1 e)) (add32 (Ch e f g) (fst kw))) (snd kw) in
  let t2 := add32 (bsig0 a) (Maj a b c) in
  (add32 t1 t2, a, b, c, add32 d t1, e, f, g).

Definition compress (s : digest) (block : bytes) : digest :=
  let '(a, b, c, d, e, f, g, h) := s in
  let '(a', b', c', d', e', f', g', h') :=
    fold_left round (combine K (schedule block)) s in
  (add32 a a', add32 b b', add32 c c', add32 d d',
   add32 e e', add32 f f', add32 g g', add32 h h').

Definition be_bytes (n : nat) (x : Z) : bytes :=
  map (fun i => z2b (Z.shiftr x (8 * Z.of_nat i))) (rev (seq 0 n)).

Definition padding (msg : bytes) : bytes :=
  let l := Z.of_nat (length msg) in
  x80 :: repeat x00 (Z.to_nat ((55 - l) mod 64)) ++ be_bytes 8 (8 * l).

Fixpoint blocks (n : nat) (s : digest) (b : bytes) : digest :=
  match n with
  | O => s
  | S n' => blocks n' (compress s (firstn 64 b)) (skipn 64 b)
  end.

Definition out (s : digest) : bytes :=
  let '(a, b, c, d, e, f, g, h) := s in
  flat_map (be_bytes 4) [a; b; c; d; e; f; g; h].

(** [sha256.Sum256] *)
Definition Sum256 (msg : bytes) : bytes :=
  let m := msg ++ padding msg in
  out (blocks (length m / 64) init m).

End sha256.

Module hmac.

Definition BlockSize : nat := 64.

Definition xor_pad (p : Z) (key : bytes) : bytes :=
  map (fun b => z2b (Z.lxor (b2z b) p)) key.

(** [hmac.New(sha256.New, key)], [Write(msg)], [Sum(nil)]: keys longer
    than a block are hashed first, shorter ones are filled with zeros. *)
Definition Sum (key msg : bytes) : bytes :=
  let k := if (BlockSize <? length key)%nat then sha256.Sum256 key else key in
  let k := k ++ repeat x00 (BlockSize - length k) in
  sha256.Sum256 (xor_pad 92 k ++ sha256.Sum256 (xor_pad 54 k ++ msg)).

End hmac.

(** ** package models and package config *)

Module models.

Record User := {
  User_ID : Z;
  User_Username : string;
  User_PasswordHash : string;
  User_APIToken : string
}.

Record Peer := {
  Peer_ID : Z;
  Peer_Name : string;
  Peer_PublicKey : string;
  Peer_PrivateKey : string;
  Peer_AssignedIP : string;
  Peer_Enabled : bool
}.

(** [ExpiresAt] is a Unix time in nanoseconds. *)
Record RefreshToken := {
  RefreshToken_ID : Z;
  RefreshToken_UserID : Z;
  RefreshToken_Token : string;
  RefreshToken_ExpiresAt : Z
}.

Record LoginRequest := { LoginRequest_Username : string; LoginRequest_Password : string }.

Record LoginResponse := {
  LoginResponse_AccessToken : string;
  LoginResponse_ExpiresIn : Z;
  LoginResponse_APIToken : string
}.

Record CreatePeerRequest := { CreatePeerRequest_Name : string }.

Record PeerResponse := {
  PeerResponse_ID : Z;
  PeerResponse_Name : string;
  PeerResponse_PublicKey : string;
  PeerResponse_AssignedIP : string;
  PeerResponse_Enabled : bool
}.

(** Pointer fields of the request are options: [nil] is [None]. *)
Record UpdatePeerRequest := {
  UpdatePeerRequest_Name : option string;
  UpdatePeerRequest_Enabled : option bool
}.

Record UpdateSettingsRequest := {
  UpdateSettingsRequest_DNS : option string;
  UpdateSettingsRequest_AllowedIPs : option string;
  UpdateSettingsRequest_LoggingEnabled : option bool;
  UpdateSettingsRequest_AdminPassword : option string
}.

Record SettingsResponse := {
  SettingsResponse_DNS : string;
  SettingsResponse_AllowedIPs : string;
  SettingsResponse_LoggingEnabled : bool;
  SettingsResponse_APIToken : string
}.

End models.
Export models.

Module config.

Record JWTConfig := {
  AccessSecret : string;
  RefreshSecret : string;
  AccessExpiryMinutes : Z;
  RefreshExpiryDays : Z
}.

Record WireGuardConfig := {
  Interface : string;
  ServerPublicKey : string;
  ServerEndpoint : string;
  DNS : string;
  AllowedIPs : string;
  Subnet : string
}.

Record SecurityConfig := {
  BcryptCost : Z;
  RateLimitRequests : Z;
  RateLimitWindowSeconds : Z
}.

Record Config := {
  JWT : JWTConfig;
  WireGuard : WireGuardConfig;
  Security : SecurityConfig;
  Admin_Username : string
}.

End config.
Export config.

(** ** Errors *)

Inductive error :=
  | ErrNoRows                       (* sql.ErrNoRows *)
  | ErrDriver                       (* the storage engine failed to run a statement *)
  | ErrConstraint                   (* UNIQUE or FOREIGN KEY violation *)
  | ErrRun                          (* exec.Cmd.Run returned an error *)
  | ErrRand                         (* crypto/rand failed *)
  | ErrInvalidToken
  | ErrExpiredToken
  | ErrInvalidPassword
  | Errorf (msg : string)
  | Wrapf (msg : string) (e : error).

Inductive result (A : Type) :=
  | Ok (a : A)
  | Err (e : error).
Arguments Ok {A} a.
Arguments Err {A} e.

Definition is_ok {A} (r : result A) : bool :=
  match r with Ok _ => true | Err _ => false end.

(** ** Third-party libraries

    golang-jwt, x/crypto/bcrypt and x/crypto/curve25519 are not part of the
    repository; the code is verified for every behaviour of them. *)

Record Claims := {
  Claims_UserID : Z;
  Claims_Username : string;
  Claims_ExpiresAt : Z;
  Claims_IssuedAt : Z;
  Claims_Issuer : string
}.

Inductive ParseError := TokenExpired | TokenMalformed.

Class Vendor := {
  (** [jwt.NewWithClaims(HS256, claims).SignedString(key)] *)
  jwt_SignedString : Claims -> string -> result string;
  (** [jwt.ParseWithClaims(token, &Claims{}, keyfunc)] at a given time, with
      a key function that accepts HMAC methods only and returns [key] *)
  jwt_ParseWithClaims : string -> string -> Z -> Claims + ParseError;
  (** [bcrypt.GenerateFromPassword(password, cost)]: what it answers
      before it draws a salt, when it refuses the password or the cost
      outright, and what it answers with the salt it drew *)
  bcrypt_refuses : string -> Z -> option error;
  bcrypt_GenerateFromPassword : string -> Z -> bytes -> result string;
  (** [bcrypt.CompareHashAndPassword(hash, password) == nil] *)
  bcrypt_CompareHashAndPassword : string -> string -> bool;
  (** [curve25519.ScalarBaseMult] *)
  curve25519_ScalarBaseMult : bytes -> bytes
}.

(** ** The world outside the handlers *)

(** SQL text of the statements in package [db], with their bound arguments. *)
Inductive Sql :=
  | InsertUser (username passwordHash : string)
  | SelectUserByID (id : Z)
  | SelectUserByUsername (username : string)
  | SelectUserByAPIToken (token : string)
  | UpdateUserAPIToken_sql (apiToken : string) (id : Z)
  | UpdateUserPassword_sql (passwordHash : string) (id : Z)
  | InsertPeer (name publicKey privateKey assignedIP : string) (enabled : bool)
  | SelectPeerByID (id : Z)
  | SelectPeerByIP (ip : string)
  | UpdatePeerName (name ip : string)
  | UpdatePeerEnabled (enabled : bool) (ip : string)
  | DeletePeerByIP (ip : string)
  | SelectAssignedIPs
  | InsertRefreshToken (userID : Z) (token : string) (expiresAt : Z)
  | SelectRefreshToken (token : string)
  | DeleteRefreshTokenByToken (token : string)
  | DeleteRefreshTokensByUser (userID : Z)
  | UpsertSetting (key value : string).

(** What crosses the process boundary, with its outcome. *)
Inductive Event :=
  | ESql (q : Sql) (ok : bool)
  | ERun (argv : list string) (ok : bool)
  | ERand (n : nat) (ok : bool)
  | EJwtParse (token : string) (ok : bool).

Definition is_run (e : Event) : bool :=
  match e with ERun _ _ => true | _ => false end.

Definition is_sql (e : Event) : bool :=
  match e with ESql _ _ => true | _ => false end.

(** The tables.  [users] and [peers] are kept in rowid order; the
    [refresh_tokens] table is only ever addressed through its [UNIQUE]
    [token] column or filtered, and is a map keyed by that column.  The
    [_seq] fields are the [sqlite_sequence] counters of [AUTOINCREMENT].
    Timestamps ([created_at], [updated_at]) are left out: no decision in the
    handlers reads them. *)
Record Database := {
  users : list User;
  users_seq : Z;
  peers : list Peer;
  peers_seq : Z;
  refresh_tokens : gmap string RefreshToken;
  refresh_tokens_seq : Z;
  settings : gmap string string
}.

(** [live] is the peer set of the running interface (public key to
    allowed-ips) and [saved] what [wg-quick save] wrote last.  [faults]
    schedules the outcome of the boundary steps to come, one flag a step,
    [true] for a failure; past its end every step succeeds.  [entropy] is
    what [crypto/rand] will deliver, [clock] what [time.Now] reads (Unix
    nanoseconds), [cfg] the shared configuration object, and [log] the
    boundary events so far, oldest first. *)
Record World := {
  store : Database;
  live : gmap string string;
  saved : gmap string string;
  cfg : Config;
  clock : Z;
  faults : list bool;
  entropy : list bytes;
  log : list Event
}.

Definition set_store (d : Database) (w : World) : World :=
  {| store := d; live := live w; saved := saved w; cfg := cfg w; clock := clock w;
     faults := faults w; entropy := entropy w; log := log w |}.

Definition set_live (l : gmap string string) (w : World) : World :=
  {| store := store w; live := l; saved := saved w; cfg := cfg w; clock := clock w;
     faults := faults w; entropy := entropy w; log := log w |}.

Definition set_saved (l : gmap string string) (w : World) : World :=
  {| store := store w; live := live w; saved := l; cfg := cfg w; clock := clock w;
     faults := faults w; entropy := entropy w; log := log w |}.

Definition set_cfg (c : Config) (w : World) : World :=
  {| store := store w; live := live w; saved := saved w; cfg := c; clock := clock w;
     faults := faults w; entropy := entropy w; log := log w |}.

Definition set_entropy (e : list bytes) (w : World) : World :=
  {| store := store w; live := live w; saved := saved w; cfg := cfg w; clock := clock w;
     faults := faults w; entropy := e; log := log w |}.

(** One boundary step was taken: its fault flag is used up and its event
    is logged. *)
Definition stepped (e : Event) (w : World) : World :=
  {| store := store w; live := live w; saved := saved w; cfg := cfg w; clock := clock w;
     faults := tail (faults w); entropy := entropy w; log := log w ++ [e] |}.

(** An event is logged without a fault flag being used: a library call
    that touches nothing outside the process. *)
Definition logged (e : Event) (w : World) : World :=
  {| store := store w; live := live w; saved := saved w; cfg := cfg w; clock := clock w;
     faults := faults w; entropy := entropy w; log := log w ++ [e] |}.

Definition faulty (w : World) : bool := hd false (faults w).

Arguments set_store d w /.
Arguments set_live l w /.
Arguments set_saved l w /.
Arguments set_cfg c w /.
Arguments set_entropy e w /.
Arguments stepped e w /.
Arguments logged e w /.
Arguments faulty w /.

(** The events logged between two worlds. *)
Definition events_since (w w' : World) : list Event := drop (length (log w)) (log w').

(** ** The monad of the handlers: state passing over the world *)

Definition M (A : Type) : Type := World -> A * World.

Definition ret {A} (a : A) : M A := fun w => (a, w).

Definition bind {A B} (m : M A) (k : A -> M B) : M B :=
  fun w => let (a, w') := m w in k a w'.

Notation "x <- m ;; k" := (bind m (fun x => k))
  (at level 100, m at next level, right associativity).
Notation "m ;;; k" := (bind m (fun _ => k))
  (at level 100, right associativity).

Definition gets {A} (f : World -> A) : M A := fun w => (f w, w).

(** [time.Now]: the clock of the world, in nanoseconds.  A handler reads one
    instant; the time that passes between two requests is the difference of
    the clocks of the worlds they run in. *)
Definition time_Now : M Z := gets clock.

(** The value of an [int], [int64] or [time.Duration] expression: sums and
    products wrap around at 64 bits. *)
Definition wrap64 (z : Z) : Z := (z + 2 ^ 63) mod 2 ^ 64 - 2 ^ 63.

(** ** database/sql, os/exec and crypto/rand at the boundary *)

Record ExecResult := { LastInsertId : Z; RowsAffected : Z }.

(** [conn.Exec]: the statement runs as a whole or not at all. *)
Definition Exec (q : Sql) (run : Database -> result (Database * ExecResult))
  : M (result ExecResult) :=
  fun w =>
    if faulty w then (Err ErrDriver, stepped (ESql q false) w)
    else match run (store w) with
         | Ok (d, r) => (Ok r, stepped (ESql q true) (set_store d w))
         | Err e => (Err e, stepped (ESql q false) w)
         end.

(** [conn.Query] with the loop over [rows.Next], [rows.Scan] and [rows.Err]:
    a failure anywhere in it is the failure of the query. *)
Definition Query {A} (q : Sql) (rows : Database -> list A) : M (result (list A)) :=
  fun w =>
    if faulty w then (Err ErrDriver, stepped (ESql q false) w)
    else (Ok (rows (store w)), stepped (ESql q true) w).

(** [conn.QueryRow(...).Scan(...)]: the first row, or [sql.ErrNoRows]. *)
Definition QueryRow {A} (q : Sql) (rows : Database -> list A) : M (result A) :=
  fun w =>
    if faulty w then (Err ErrDriver, stepped (ESql q false) w)
    else match rows (store w) with
         | r :: _ => (Ok r, stepped (ESql q true) w)
         | [] => (Err ErrNoRows, stepped (ESql q true) w)
         end.

(** The subprocesses the service starts, each with its argument vector. *)
Inductive Cmd :=
  | WgSetPeer (iface publicKey allowedIPs : string)
  | WgRemovePeer (iface publicKey : string)
  | WgQuickSave (iface : string).

Definition argv (c : Cmd) : list string :=
  match c with
  | WgSetPeer i k a => ["wg"; "set"; i; "peer"; k; "allowed-ips"; a]
  | WgRemovePeer i k => ["wg"; "set"; i; "peer"; k; "remove"]
  | WgQuickSave i => ["wg-quick"; "save"; i]
  end.

Definition tool (c : Cmd) (w : World) : World :=
  match c with
  | WgSetPeer _ k a => set_live (<[k := a]> (live w)) w
  | WgRemovePeer _ k => set_live (delete k (live w)) w
  | WgQuickSave _ => set_saved (live w) w
  end.

(** [exec.Command(argv...).Run()]: [true] when it returned [nil]. *)
Definition Run (c : Cmd) : M bool :=
  fun w =>
    if faulty w then (false, stepped (ERun (argv c) false) w)
    else (true, stepped (ERun (argv c) true) (tool c w)).

(** [rand.Read] into a buffer of [n] bytes. *)
Definition rand_Read (n : nat) : M (result bytes) :=
  fun w =>
    if faulty w then (Err ErrRand, stepped (ERand n false) w)
    else (Ok (take n (hd [] (entropy w) ++ repeat x00 n)),
          stepped (ERand n true) (set_entropy (tail (entropy w)) w)).

(** The statements that [Sql] does not list (the reads of the settings and
    the count of users) are steps like the others: each uses up its fault
    flag; the log has no name for them and is left alone. *)
Definition used (w : World) : World :=
  {| store := store w; live := live w; saved := saved w; cfg := cfg w; clock := clock w;
     faults := tail (faults w); entropy := entropy w; log := log w |}.

Definition QueryUnlisted {A} (rows : Database -> list A) : M (result (list A)) :=
  fun w =>
    if faulty w then (Err ErrDriver, used w) else (Ok (rows (store w)), used w).

Definition QueryRowUnlisted {A} (rows : Database -> list A) : M (result A) :=
  fun w =>
    if faulty w then (Err ErrDriver, used w)
    else match rows (store w) with
         | r :: _ => (Ok r, used w)
         | [] => (Err ErrNoRows, used w)
         end.

(** ** fmt and strconv on decimal numbers *)

(** The verb [%d] of [fmt.Sprintf]. *)
Definition itoa (z : Z) : string := DecimalString.NilZero.string_of_int (Z.to_int z).

Fixpoint atoi_digits (s : string) (acc : Z) : Z :=
  match s with
  | EmptyString => acc
  | String c r => atoi_digits r (10 * acc + (ord c - 48))
  end.

Fixpoint all_digits (s : string) : bool :=
  match s with
  | EmptyString => true
  | String c r => is_digit c && all_digits r
  end.

(** The longest prefix of decimal digits, and what follows it. *)
Fixpoint span_number (s : string) : string * string :=
  match s with
  | EmptyString => (EmptyString, EmptyString)
  | String c r =>
      if is_digit c then
        let (t, rest) := span_number r in (String c t, rest)
      else (EmptyString, s)
  end.

(** The three-byte blanks of [fmt]: U+1680, U+2000 to U+200A, U+2028,
    U+2029, U+202F, U+205F and U+3000 in UTF-8. *)
Definition space3 (n1 n2 n3 : Z) : bool :=
  ((n1 =? 225) && (n2 =? 154) && (n3 =? 128))
  || ((n1 =? 226) && (n2 =? 128)
      && (((128 <=? n3) && (n3 <=? 138)) || (n3 =? 168) || (n3 =? 169) || (n3 =? 175)))
  || ((n1 =? 226) && (n2 =? 129) && (n3 =? 159))
  || ((n1 =? 227) && (n2 =? 128) && (n3 =? 128)).

(** [ss.SkipSpace] as [fmt.Sscanf] runs it before a number: the blanks are
    passed over (tab to carriage return, the space, and U+0085, U+00A0 and
    the three-byte blanks in UTF-8); a line feed is an error. *)
Fixpoint skip_space (s : string) : option string :=
  match s with
  | EmptyString => Some s
  | String c r =>
      let n := ord c in
      if n =? 10 then None
      else if ((9 <=? n) && (n <=? 13)) || (n =? 32) then skip_space r
      else
        match r with
        | String c2 r2 =>
            if (n =? 194) && ((ord c2 =? 133) || (ord c2 =? 160)) then skip_space r2
            else
              match r2 with
              | String c3 r3 => if space3 n (ord c2) (ord c3) then skip_space r3 else Some s
              | EmptyString => Some s
              end
        | EmptyString => Some s
        end
  end.

(** The verb [%d] of [fmt.Sscanf] into an [int]: the blanks before the
    number are skipped, then come a sign and the decimal digits, as many as
    there are; no digit, or a value outside 64 bits, is an error. *)
Definition scan_int (s : string) : option (Z * string) :=
  match skip_space s with
  | None => None
  | Some s0 =>
      let '(neg, s1) :=
        match s0 with
        | String c r =>
            if ord c =? 45 then (true, r) else if ord c =? 43 then (false, r) else (false, s0)
        | EmptyString => (false, s0)
        end in
      let (tok, rest) := span_number s1 in
      if negb (0 <? len tok) then None
      else
        let v := if neg then - atoi_digits tok 0 else atoi_digits tok 0 in
        if (- 2 ^ 63 <=? v) && (v <? 2 ^ 63) then Some (v, rest) else None
  end.

Definition expect_dot (s : string) : option string :=
  match s with
  | String c r => if ord c =? 46 then Some r else None
  | EmptyString => None
  end.

(** [fmt.Sscanf(s, "%d.%d.%d.%d", &o1, &o2, &o3, &o4)] with the error
    dropped: the variables not reached keep their zero. *)
Definition Sscanf_ipv4 (s : string) : Z * Z * Z * Z :=
  match scan_int s with
  | None => (0, 0, 0, 0)
  | Some (o1, r1) =>
      match expect_dot r1 ≫= scan_int with
      | None => (o1, 0, 0, 0)
      | Some (o2, r2) =>
          match expect_dot r2 ≫= scan_int with
          | None => (o1, o2, 0, 0)
          | Some (o3, r3) =>
              match expect_dot r3 ≫= scan_int with
              | None => (o1, o2, o3, 0)
              | Some (o4, _) => (o1, o2, o3, o4)
              end
          end
      end
  end.

(** [fmt.Sprintf("%d.%d.%d.%d", o1, o2, o3, i)] *)
Definition Sprintf_ipv4 (o1 o2 o3 i : Z) : string :=
  itoa o1 +:+ "." +:+ itoa o2 +:+ "." +:+ itoa o3 +:+ "." +:+ itoa i.

(** ** package db *)

Module db.

Definition set_users (l : list User) (d : Database) : Database :=
  {| users := l; users_seq := users_seq d; peers := peers d; peers_seq := peers_seq d;
     refresh_tokens := refresh_tokens d; refresh_tokens_seq := refresh_tokens_seq d;
     settings := settings d |}.

Definition set_peers (l : list Peer) (d : Database) : Database :=
  {| users := users d; users_seq := users_seq d; peers := l; peers_seq := peers_seq d;
     refresh_tokens := refresh_tokens d; refresh_tokens_seq := refresh_tokens_seq d;
     settings := settings d |}.

Definition set_refresh_tokens (m : gmap string RefreshToken) (d : Database) : Database :=
  {| users := users d; users_seq := users_seq d; peers := peers d; peers_seq := peers_seq d;
     refresh_tokens := m; refresh_tokens_seq := refresh_tokens_seq d;
     settings := settings d |}.

(** [AUTOINCREMENT]: one more than the largest rowid the table ever had. *)
Definition next_rowid (seq : Z) (ids : list Z) : Z := 1 + foldr Z.max seq ids.

(** *** users *)

Definition insert_user (username passwordHash : string) (d : Database)
  : result (Database * ExecResult) :=
  if existsb (fun u => String.eqb (User_Username u) username) (users d) then Err ErrConstraint
  else
    let id := next_rowid (users_seq d) (map User_ID (users d)) in
    let u := {| User_ID := id; User_Username := username;
                User_PasswordHash := passwordHash; User_APIToken := "" |} in
    Ok ({| users := users d ++ [u]; users_seq := id; peers := peers d;
           peers_seq := peers_seq d; refresh_tokens := refresh_tokens d;
           refresh_tokens_seq := refresh_tokens_seq d; settings := settings d |},
        {| LastInsertId := id; RowsAffected := 1 |}).

Definition GetUserByID (id : Z) : M (result User) :=
  QueryRow (SelectUserByID id) (fun d => filter (fun u => User_ID u = id) (users d)).

Definition CreateUser (username passwordHash : string) : M (result User) :=
  r <- Exec (InsertUser username passwordHash) (insert_user username passwordHash) ;;
  match r with
  | Err e => ret (Err e)
  | Ok res => GetUserByID (LastInsertId res)
  end.

Definition GetUserByUsername (username : string) : M (result User) :=
  QueryRow (SelectUserByUsername username)
    (fun d => filter (fun u => User_Username u = username) (users d)).

(** [WHERE api_token = ? AND api_token != ''] *)
Definition GetUserByAPIToken (token : string) : M (result User) :=
  if String.eqb token "" then ret (Err ErrNoRows)
  else
    QueryRow (SelectUserByAPIToken token)
      (fun d => filter (fun u => User_APIToken u = token /\ User_APIToken u <> "") (users d)).

Definition update_users (f : User -> User) (id : Z) (d : Database)
  : result (Database * ExecResult) :=
  Ok (set_users (map (fun u => if decide (User_ID u = id) then f u else u) (users d)) d,
      {| LastInsertId := 0;
         RowsAffected := Z.of_nat (length (filter (fun u => User_ID u = id) (users d))) |}).

Definition UpdateUserAPIToken (userID : Z) (apiToken : string) : M (option error) :=
  r <- Exec (UpdateUserAPIToken_sql apiToken userID)
         (update_users (fun u => {| User_ID := User_ID u; User_Username := User_Username u;
                                    User_PasswordHash := User_PasswordHash u;
                                    User_APIToken := apiToken |}) userID) ;;
  ret (match r with Ok _ => None | Err e => Some e end).

Definition UpdateUserPassword (userID : Z) (passwordHash : string) : M (option error) :=
  r <- Exec (UpdateUserPassword_sql passwordHash userID)
         (update_users (fun u => {| User_ID := User_ID u; User_Username := User_Username u;
                                    User_PasswordHash := passwordHash;
                                    User_APIToken := User_APIToken u |}) userID) ;;
  ret (match r with Ok _ => None | Err e => Some e end).

(** *** peers *)

Definition insert_peer (p : Peer) (d : Database) : result (Database * ExecResult) :=
  if existsb (fun q => String.eqb (Peer_PublicKey q) (Peer_PublicKey p)
                       || String.eqb (Peer_AssignedIP q) (Peer_AssignedIP p)) (peers d)
  then Err ErrConstraint
  else
    let id := next_rowid (peers_seq d) (map Peer_ID (peers d)) in
    let row := {| Peer_ID := id; Peer_Name := Peer_Name p; Peer_PublicKey := Peer_PublicKey p;
                  Peer_PrivateKey := Peer_PrivateKey p; Peer_AssignedIP := Peer_AssignedIP p;
                  Peer_Enabled := Peer_Enabled p |} in
    Ok ({| users := users d; users_seq := users_seq d; peers := peers d ++ [row];
           peers_seq := id; refresh_tokens := refresh_tokens d;
           refresh_tokens_seq := refresh_tokens_seq d; settings := settings d |},
        {| LastInsertId := id; RowsAffected := 1 |}).

Definition GetPeerByID (id : Z) : M (result Peer) :=
  QueryRow (SelectPeerByID id) (fun d => filter (fun p => Peer_ID p = id) (peers d)).

(** [result.LastInsertId] does not fail with this driver. *)
Definition CreatePeer (peer : Peer) : M (result Peer) :=
  r <- Exec (InsertPeer (Peer_Name peer) (Peer_PublicKey peer) (Peer_PrivateKey peer)
               (Peer_AssignedIP peer) (Peer_Enabled peer)) (insert_peer peer) ;;
  match r with
  | Err e => ret (Err e)
  | Ok res => GetPeerByID (LastInsertId res)
  end.

Definition GetPeerByIP (ip : string) : M (result Peer) :=
  QueryRow (SelectPeerByIP ip) (fun d => filter (fun p => Peer_AssignedIP p = ip) (peers d)).

Definition update_peers (f : Peer -> Peer) (ip : string) (d : Database)
  : result (Database * ExecResult) :=
  Ok (set_peers (map (fun p => if decide (Peer_AssignedIP p = ip) then f p else p) (peers d)) d,
      {| LastInsertId := 0;
         RowsAffected := Z.of_nat (length (filter (fun p => Peer_AssignedIP p = ip) (peers d))) |}).

Definition with_name (n : string) (p : Peer) : Peer :=
  {| Peer_ID := Peer_ID p; Peer_Name := n; Peer_PublicKey := Peer_PublicKey p;
     Peer_PrivateKey := Peer_PrivateKey p; Peer_AssignedIP := Peer_AssignedIP p;
     Peer_Enabled := Peer_Enabled p |}.

Definition with_enabled (b : bool) (p : Peer) : Peer :=
  {| Peer_ID := Peer_ID p; Peer_Name := Peer_Name p; Peer_PublicKey := Peer_PublicKey p;
     Peer_PrivateKey := Peer_PrivateKey p; Peer_AssignedIP := Peer_AssignedIP p;
     Peer_Enabled := b |}.

Definition UpdatePeer (ip : string) (name : option string) (enabled : option bool)
  : M (result Peer) :=
  r1 <- match name with
        | Some n => Exec (UpdatePeerName n ip) (update_peers (with_name n) ip)
        | None => ret (Ok {| LastInsertId := 0; RowsAffected := 0 |})
        end ;;
  match r1 with
  | Err e => ret (Err e)
  | Ok _ =>
      r2 <- match enabled with
            | Some b => Exec (UpdatePeerEnabled b ip) (update_peers (with_enabled b) ip)
            | None => ret (Ok {| LastInsertId := 0; RowsAffected := 0 |})
            end ;;
      match r2 with
      | Err e => ret (Err e)
      | Ok _ => GetPeerByIP ip
      end
  end.

Definition delete_peers (ip : string) (d : Database) : result (Database * ExecResult) :=
  Ok (set_peers (filter (fun p => Peer_AssignedIP p <> ip) (peers d)) d,
      {| LastInsertId := 0;
         RowsAffected := Z.of_nat (length (filter (fun p => Peer_AssignedIP p = ip) (peers d))) |}).

(** [result.RowsAffected] does not fail with this driver. *)
Definition DeletePeer (ip : string) : M (option error) :=
  r <- Exec (DeletePeerByIP ip) (delete_peers ip) ;;
  ret (match r with
       | Err e => Some e
       | Ok res => if RowsAffected res =? 0 then Some ErrNoRows else None
       end).

(** The subnet with its prefix length cut off at the last slash. *)
Fixpoint before_last_slash (s : string) : option string :=
  match s with
  | EmptyString => None
  | String c r =>
      match before_last_slash r with
      | Some p => Some (String c p)
      | None => if ord c =? 47 then Some EmptyString else None
      end
  end.

Definition baseIP (subnet : string) : string :=
  if 0 <? len subnet - 1 then
    match before_last_slash subnet with
    | Some p => p
    | None => subnet
    end
  else subnet.

(** [for i := 2; i < 255; i++]: [n] iterations are left, starting at [i]. *)
Fixpoint first_unused (n : nat) (i : Z) (o1 o2 o3 : Z) (usedIPs : gset string)
  : option string :=
  match n with
  | O => None
  | S n' =>
      let ip := Sprintf_ipv4 o1 o2 o3 i in
      if decide (ip ∈ usedIPs) then first_unused n' (i + 1) o1 o2 o3 usedIPs
      else Some ip
  end.

Definition ErrNoAvailableIP : error := Errorf "no available IP addresses in subnet".

Definition GetNextAvailableIP (subnet : string) : M (result string) :=
  let '(o1, o2, o3, o4) := Sscanf_ipv4 (baseIP subnet) in
  rows <- Query SelectAssignedIPs (fun d => map Peer_AssignedIP (peers d)) ;;
  match rows with
  | Err e => ret (Err e)
  | Ok ips =>
      let usedIPs : gset string := list_to_set ips in
      match first_unused 253 2 o1 o2 o3 usedIPs with
      | Some ip => ret (Ok ip)
      | None => ret (Err ErrNoAvailableIP)
      end
  end.

(** *** refresh_tokens *)

(** [FOREIGN KEY (user_id) REFERENCES users(id)] is enforced
    ([_foreign_keys=on]); [token] is [UNIQUE]. *)
Definition insert_refresh_token (userID : Z) (token : string) (expiresAt : Z) (d : Database)
  : result (Database * ExecResult) :=
  if negb (existsb (fun u => User_ID u =? userID) (users d)) then Err ErrConstraint
  else
    match refresh_tokens d !! token with
    | Some _ => Err ErrConstraint
    | None =>
        let id := next_rowid (refresh_tokens_seq d)
                    (map (fun kv => RefreshToken_ID (snd kv)) (map_to_list (refresh_tokens d))) in
        let row := {| RefreshToken_ID := id; RefreshToken_UserID := userID;
                      RefreshToken_Token := token; RefreshToken_ExpiresAt := expiresAt |} in
        Ok ({| users := users d; users_seq := users_seq d; peers := peers d;
               peers_seq := peers_seq d; refresh_tokens := <[token := row]> (refresh_tokens d);
               refresh_tokens_seq := id; settings := settings d |},
            {| LastInsertId := id; RowsAffected := 1 |})
    end.

Definition SaveRefreshToken (userID : Z) (token : string) (expiresAt : Z) : M (option error) :=
  r <- Exec (InsertRefreshToken userID token expiresAt)
         (insert_refresh_token userID token expiresAt) ;;
  ret (match r with Ok _ => None | Err e => Some e end).

Definition GetRefreshToken (token : string) : M (result RefreshToken) :=
  QueryRow (SelectRefreshToken token) (fun d => option_list (refresh_tokens d !! token)).

Definition DeleteRefreshToken (token : string) : M (option error) :=
  r <- Exec (DeleteRefreshTokenByToken token)
         (fun d => Ok (set_refresh_tokens (delete token (refresh_tokens d)) d,
                       {| LastInsertId := 0;
                          RowsAffected := match refresh_tokens d !! token with
                                          | Some _ => 1
                                          | None => 0
                                          end |})) ;;
  ret (match r with Ok _ => None | Err e => Some e end).

Definition DeleteUserRefreshTokens (userID : Z) : M (option error) :=
  r <- Exec (DeleteRefreshTokensByUser userID)
         (fun d =>
            let keep := filter (fun kv => RefreshToken_UserID (snd kv) <> userID)
                          (refresh_tokens d) in
            Ok (set_refresh_tokens keep d,
                {| LastInsertId := 0;
                   RowsAffected := Z.of_nat (size (refresh_tokens d)) - Z.of_nat (size keep) |})) ;;
  ret (match r with Ok _ => None | Err e => Some e end).

(** *** settings *)

Definition SetSetting (key value : string) : M (option error) :=
  r <- Exec (UpsertSetting key value)
         (fun d =>
            Ok ({| users := users d; users_seq := users_seq d; peers := peers d;
                   peers_seq := peers_seq d; refresh_tokens := refresh_tokens d;
                   refresh_tokens_seq := refresh_tokens_seq d;
                   settings := <[key := value]> (settings d) |},
                {| LastInsertId := 0; RowsAffected := 1 |})) ;;
  ret (match r with Ok _ => None | Err e => Some e end).

(** [SELECT COUNT( * ) FROM users WHERE username = ?] *)
Definition UserExists (username : string) : M (result bool) :=
  r <- QueryRowUnlisted
         (fun d => [Z.of_nat (length (filter (fun u => User_Username u = username) (users d)))]) ;;
  ret (match r with
       | Err e => Err e
       | Ok count => Ok (0 <? count)
       end).

(** [SELECT value FROM settings WHERE key = ?]: a key that is not there
    reads as the empty value, without an error. *)
Definition GetSetting (key : string) : M (string * option error) :=
  r <- QueryRowUnlisted (fun d => option_list (settings d !! key)) ;;
  ret (match r with
       | Ok value => (value, None)
       | Err ErrNoRows => ("", None)
       | Err e => ("", Some e)
       end).

(** [SELECT key, value FROM settings], the rows put into a map. *)
Definition GetAllSettings : M (result (gmap string string)) :=
  r <- QueryUnlisted (fun d => map_to_list (settings d)) ;;
  ret (match r with
       | Err e => Err e
       | Ok rows => Ok (list_to_map rows)
       end).

End db.

(** ** package auth *)

Module auth.

Definition fixedSalt : string := "wireguard-panel-api-token-salt-v1".

(** [GenerateAPIToken(password, _)]: the second argument (the JWT secret
    at the call sites) is not used. *)
Definition GenerateAPIToken (password : string) (_ : string) : string :=
  let hash := hmac.Sum (bytes_of_string fixedSalt) (bytes_of_string password) in
  let token := base64.EncodeToString base64.RawURLEncoding hash in
  if 43 <? len token then take_str 43 token else token.

Section WithVendor.
Context {vendor : Vendor}.

Definition VerifyPassword (password hash : string) : option error :=
  if bcrypt_CompareHashAndPassword hash password then None else Some ErrInvalidPassword.

Definition minute : Z := 60 * 1000000000.
Definition hour : Z := 60 * minute.

Definition GenerateAccessToken (userID : Z) (username : string) : M (result string) :=
  fun w =>
    let jwt := JWT (cfg w) in
    let claims := {| Claims_UserID := userID; Claims_Username := username;
                     Claims_ExpiresAt := clock w + wrap64 (AccessExpiryMinutes jwt * minute);
                     Claims_IssuedAt := clock w; Claims_Issuer := "wgeasygo" |} in
    (jwt_SignedString claims (AccessSecret jwt), w).

(** 32 random bytes in padded URL-safe base64 *)
Definition GenerateRefreshToken : M (result string) :=
  r <- rand_Read 32 ;;
  ret (match r with
       | Err e => Err e
       | Ok b => Ok (base64.EncodeToString base64.URLEncoding b)
       end).

Definition ValidateAccessToken (tokenString : string) : M (result Claims) :=
  fun w =>
    match jwt_ParseWithClaims tokenString (AccessSecret (JWT (cfg w))) (clock w) with
    | inl claims => (Ok claims, logged (EJwtParse tokenString true) w)
    | inr TokenExpired => (Err ErrExpiredToken, logged (EJwtParse tokenString false) w)
    | inr TokenMalformed => (Err ErrInvalidToken, logged (EJwtParse tokenString false) w)
    end.

(** [time.Now().Add(time.Duration(cfg.RefreshExpiryDays) * 24 * time.Hour)]:
    the product is a [time.Duration], an [int64] of nanoseconds. *)
Definition GetRefreshTokenExpiry : M Z :=
  fun w => (clock w + wrap64 (RefreshExpiryDays (JWT (cfg w)) * 24 * hour), w).

(** [HashPassword]: the cost is raised to 12 when it is lower;
    [bcrypt.GenerateFromPassword] draws a 16-byte salt unless it refuses
    the password or the cost before. *)
Definition HashPassword (password : string) (cost : Z) : M (result string) :=
  let cost := if cost <? 12 then 12 else cost in
  match bcrypt_refuses password cost with
  | Some e => ret (Err e)
  | None =>
      s <- rand_Read 16 ;;
      ret (match s with
           | Err e => Err e
           | Ok salt => bcrypt_GenerateFromPassword password cost salt
           end)
  end.

End WithVendor.

End auth.

(** ** package wgmanager *)

Module wgmanager.

Definition ValidatePublicKey (key : string) : bool :=
  match base64.DecodeString base64.StdEncoding key with
  | None => false
  | Some decoded => (length decoded =? 32)%nat
  end.

Fixpoint split_on (sep : ascii) (s : string) : list string :=
  match s with
  | EmptyString => [EmptyString]
  | String c r =>
      if Ascii.eqb c sep then EmptyString :: split_on sep r
      else match split_on sep r with
           | p :: ps => String c p :: ps
           | [] => [String c EmptyString]
           end
  end.

(** [^(\d{1,3}\.){3}\d{1,3}$] *)
Definition ipRegex_MatchString (ip : string) : bool :=
  let parts := split_on "."%char ip in
  (length parts =? 4)%nat
  && forallb (fun p => all_digits p && (1 <=? len p) && (len p <=? 3)) parts.

Definition ValidateIP (ip : string) : bool :=
  if negb (ipRegex_MatchString ip) then false
  else forallb (fun part => let num := atoi_digits part 0 in
                            negb ((num <? 0) || (255 <? num)))
               (split_on "."%char ip).

Definition iface : M string := gets (fun w => Interface (WireGuard (cfg w))).

Definition SaveConfig : M (option error) :=
  i <- iface ;;
  ok <- Run (WgQuickSave i) ;;
  ret (if ok then None else Some (Wrapf "failed to save configuration" ErrRun)).

Definition AddPeer (publicKey assignedIP : string) : M (option error) :=
  if negb (ValidatePublicKey publicKey) then ret (Some (Errorf "invalid public key format"))
  else if negb (ValidateIP assignedIP) then ret (Some (Errorf "invalid IP address format"))
  else
    i <- iface ;;
    ok <- Run (WgSetPeer i publicKey (assignedIP +:+ "/32")) ;;
    if negb ok then ret (Some (Wrapf "failed to add peer" ErrRun))
    else
      e <- SaveConfig ;;
      match e with
      | Some err => ret (Some (Wrapf "failed to save config after adding peer" err))
      | None => ret None
      end.

Definition RemovePeer (publicKey : string) : M (option error) :=
  if negb (ValidatePublicKey publicKey) then ret (Some (Errorf "invalid public key format"))
  else
    i <- iface ;;
    ok <- Run (WgRemovePeer i publicKey) ;;
    if negb ok then ret (Some (Wrapf "failed to remove peer" ErrRun))
    else
      e <- SaveConfig ;;
      match e with
      | Some err => ret (Some (Wrapf "failed to save config after removing peer" err))
      | None => ret None
      end.

Definition LF : string := String "010"%char EmptyString.

(** [clientConfigTemplate] executed on a [ClientConfig]: [text/template]
    writes string fields as they are. *)
Definition clientConfigTmpl_Execute
    (PrivateKey Address DNS ServerPublicKey ServerEndpoint AllowedIPs : string) : string :=
  "[Interface]" +:+ LF +:+
  "PrivateKey = " +:+ PrivateKey +:+ LF +:+
  "Address = " +:+ Address +:+ "/32" +:+ LF +:+
  "DNS = " +:+ DNS +:+ LF +:+
  LF +:+
  "[Peer]" +:+ LF +:+
  "PublicKey = " +:+ ServerPublicKey +:+ LF +:+
  "Endpoint = " +:+ ServerEndpoint +:+ LF +:+
  "AllowedIPs = " +:+ AllowedIPs +:+ LF +:+
  "PersistentKeepalive = 25" +:+ LF.

(** The template reads fields of a struct only, so its execution does not
    fail. *)
Definition GenerateClientConfig (peer : Peer) : M (result string) :=
  g <- gets (fun w => WireGuard (cfg w)) ;;
  ret (Ok (clientConfigTmpl_Execute (Peer_PrivateKey peer) (Peer_AssignedIP peer) (DNS g)
             (ServerPublicKey g) (ServerEndpoint g) (AllowedIPs g))).

(** A peer that cannot be added is reported on the standard output and
    the loop goes on; the result is always [nil]. *)
Fixpoint SyncPeersToInterface (peers : list Peer) : M (option error) :=
  match peers with
  | [] => ret None
  | peer :: rest =>
      (if Peer_Enabled peer
       then AddPeer (Peer_PublicKey peer) (Peer_AssignedIP peer) ;;; ret tt
       else ret tt) ;;;
      SyncPeersToInterface rest
  end.

Section WithVendor.
Context {vendor : Vendor}.

(** A [[32]byte] value. *)
Definition array32 (b : bytes) : bytes := take 32 (b ++ repeat x00 32).

Definition clamp (k : bytes) : bytes :=
  alter (fun b => z2b (Z.lor (Z.land (b2z b) 127) 64)) 31%nat
    (alter (fun b => z2b (Z.land (b2z b) 248)) 0%nat k).

Definition GenerateKeyPair : M (result (string * string)) :=
  r <- rand_Read 32 ;;
  match r with
  | Err e => ret (Err (Wrapf "failed to generate random bytes" e))
  | Ok privateKeyBytes =>
      let privateKeyBytes := clamp privateKeyBytes in
      let publicKeyBytes := array32 (curve25519_ScalarBaseMult privateKeyBytes) in
      ret (Ok (base64.EncodeToString base64.StdEncoding privateKeyBytes,
               base64.EncodeToString base64.StdEncoding publicKeyBytes))
  end.

End WithVendor.

End wgmanager.

(** ** HTTP responses *)

Inductive Body :=
  | ErrorResponse (Error : string) (Message : option error)
  | PeerJSON (p : PeerResponse)
  | LoginJSON (r : LoginResponse)
  | H (fields : list (string * string)).

Record Response := { Status : Z; Payload : Body; SetCookie : option string }.

Definition JSON (status : Z) (b : Body) : Response :=
  {| Status := status; Payload := b; SetCookie := None |}.

Definition StatusOK := 200.
Definition StatusCreated := 201.
Definition StatusBadRequest := 400.
Definition StatusUnauthorized := 401.
Definition StatusNotFound := 404.
Definition StatusTooManyRequests := 429.
Definition StatusInternalServerError := 500.

(** ** package handlers *)

Module handlers.

Definition PeerResponse_of (p : Peer) : PeerResponse :=
  {| PeerResponse_ID := Peer_ID p; PeerResponse_Name := Peer_Name p;
     PeerResponse_PublicKey := Peer_PublicKey p; PeerResponse_AssignedIP := Peer_AssignedIP p;
     PeerResponse_Enabled := Peer_Enabled p |}.

(** The request body is what [ShouldBindJSON] produced, [None] when it
    returned an error. *)

Definition UpdatePeer (ip : string) (body : option UpdatePeerRequest) : M Response :=
  if negb (wgmanager.ValidateIP ip) then
    ret (JSON StatusBadRequest (ErrorResponse "Invalid IP address format" None))
  else
    match body with
    | None => ret (JSON StatusBadRequest (ErrorResponse "Invalid request body" None))
    | Some req =>
        r <- db.GetPeerByIP ip ;;
        match r with
        | Err _ => ret (JSON StatusNotFound (ErrorResponse "Peer not found" None))
        | Ok peer =>
            e <- match UpdatePeerRequest_Enabled req with
                 | Some enabled =>
                     if enabled && negb (Peer_Enabled peer) then
                       e <- wgmanager.AddPeer (Peer_PublicKey peer) (Peer_AssignedIP peer) ;;
                       ret (option_map (fun err => ("Failed to enable peer", err)) e)
                     else if negb enabled && Peer_Enabled peer then
                       e <- wgmanager.RemovePeer (Peer_PublicKey peer) ;;
                       ret (option_map (fun err => ("Failed to disable peer", err)) e)
                     else ret None
                 | None => ret None
                 end ;;
            match e with
            | Some (msg, err) =>
                ret (JSON StatusInternalServerError (ErrorResponse msg (Some err)))
            | None =>
                u <- db.UpdatePeer ip (UpdatePeerRequest_Name req)
                       (UpdatePeerRequest_Enabled req) ;;
                match u with
                | Err _ =>
                    ret (JSON StatusInternalServerError
                           (ErrorResponse "Failed to update peer" None))
                | Ok updatedPeer => ret (JSON StatusOK (PeerJSON (PeerResponse_of updatedPeer)))
                end
            end
        end
    end.

Definition DeletePeer (ip : string) : M Response :=
  if negb (wgmanager.ValidateIP ip) then
    ret (JSON StatusBadRequest (ErrorResponse "Invalid IP address format" None))
  else
    r <- db.GetPeerByIP ip ;;
    match r with
    | Err _ => ret (JSON StatusNotFound (ErrorResponse "Peer not found" None))
    | Ok peer =>
        e <- wgmanager.RemovePeer (Peer_PublicKey peer) ;;
        match e with
        | Some err =>
            ret (JSON StatusInternalServerError
                   (ErrorResponse "Failed to remove peer from WireGuard" (Some err)))
        | None =>
            e <- db.DeletePeer ip ;;
            match e with
            | Some _ =>
                ret (JSON StatusInternalServerError
                       (ErrorResponse "Failed to delete peer from database" None))
            | None => ret (JSON StatusOK (H [("message", "Peer deleted successfully")]))
            end
        end
    end.

Section WithVendor.
Context {vendor : Vendor}.

Definition CreatePeer (body : option CreatePeerRequest) : M Response :=
  match body with
  | None => ret (JSON StatusBadRequest (ErrorResponse "Invalid request body" None))
  | Some req =>
      k <- wgmanager.GenerateKeyPair ;;
      match k with
      | Err _ =>
          ret (JSON StatusInternalServerError
                 (ErrorResponse "Failed to generate key pair" None))
      | Ok (privateKey, publicKey) =>
          subnet <- gets (fun w => Subnet (WireGuard (cfg w))) ;;
          a <- db.GetNextAvailableIP subnet ;;
          match a with
          | Err err =>
              ret (JSON StatusInternalServerError
                     (ErrorResponse "Failed to assign IP address" (Some err)))
          | Ok assignedIP =>
              let peer := {| Peer_ID := 0; Peer_Name := CreatePeerRequest_Name req;
                             Peer_PublicKey := publicKey; Peer_PrivateKey := privateKey;
                             Peer_AssignedIP := assignedIP; Peer_Enabled := true |} in
              c <- db.CreatePeer peer ;;
              match c with
              | Err err =>
                  ret (JSON StatusInternalServerError
                         (ErrorResponse "Failed to create peer" (Some err)))
              | Ok createdPeer =>
                  e <- wgmanager.AddPeer publicKey assignedIP ;;
                  match e with
                  | Some err =>
                      (* Rollback database entry on failure *)
                      db.DeletePeer assignedIP ;;;
                      ret (JSON StatusInternalServerError
                             (ErrorResponse "Failed to add peer to WireGuard" (Some err)))
                  | None =>
                      ret (JSON StatusCreated (PeerJSON (PeerResponse_of createdPeer)))
                  end
              end
          end
      end
  end.

Definition login_ok (accessToken refreshToken apiToken : string) : M Response :=
  fun w =>
    ({| Status := StatusOK;
        Payload := LoginJSON
          {| LoginResponse_AccessToken := accessToken;
             LoginResponse_ExpiresIn := wrap64 (AccessExpiryMinutes (JWT (cfg w)) * 60);
             LoginResponse_APIToken := apiToken |};
        SetCookie := Some refreshToken |}, w).

Definition Login (body : option LoginRequest) : M Response :=
  match body with
  | None => ret (JSON StatusBadRequest (ErrorResponse "Invalid request body" None))
  | Some req =>
      r <- db.GetUserByUsername (LoginRequest_Username req) ;;
      match r with
      | Err _ => ret (JSON StatusUnauthorized (ErrorResponse "Invalid credentials" None))
      | Ok user =>
          match auth.VerifyPassword (LoginRequest_Password req) (User_PasswordHash user) with
          | Some _ =>
              ret (JSON StatusUnauthorized (ErrorResponse "Invalid credentials" None))
          | None =>
              secret <- gets (fun w => AccessSecret (JWT (cfg w))) ;;
              let apiToken := auth.GenerateAPIToken (LoginRequest_Password req) secret in
              e <- (if negb (String.eqb (User_APIToken user) apiToken)
                    then db.UpdateUserAPIToken (User_ID user) apiToken
                    else ret None) ;;
              match e with
              | Some _ =>
                  ret (JSON StatusInternalServerError
                         (ErrorResponse "Failed to update API token" None))
              | None =>
                  a <- auth.GenerateAccessToken (User_ID user) (User_Username user) ;;
                  match a with
                  | Err _ =>
                      ret (JSON StatusInternalServerError
                             (ErrorResponse "Failed to generate access token" None))
                  | Ok accessToken =>
                      t <- auth.GenerateRefreshToken ;;
                      match t with
                      | Err _ =>
                          ret (JSON StatusInternalServerError
                                 (ErrorResponse "Failed to generate refresh token" None))
                      | Ok refreshToken =>
                          expiresAt <- auth.GetRefreshTokenExpiry ;;
                          s <- db.SaveRefreshToken (User_ID user) refreshToken expiresAt ;;
                          match s with
                          | Some _ =>
                              ret (JSON StatusInternalServerError
                                     (ErrorResponse "Failed to save refresh token" None))
                          | None => login_ok accessToken refreshToken apiToken
                          end
                      end
                  end
              end
          end
      end
  end.

(** [cookie] is the value of the [refresh_token] cookie, [None] when the
    request carries none. *)
Definition Refresh (cookie : option string) : M Response :=
  match cookie with
  | None => ret (JSON StatusUnauthorized (ErrorResponse "Refresh token not found" None))
  | Some refreshToken =>
      r <- db.GetRefreshToken refreshToken ;;
      match r with
      | Err _ => ret (JSON StatusUnauthorized (ErrorResponse "Invalid refresh token" None))
      | Ok tokenData =>
          now <- time_Now ;;
          if RefreshToken_ExpiresAt tokenData <? now then
            db.DeleteRefreshToken refreshToken ;;;
            ret (JSON StatusUnauthorized (ErrorResponse "Refresh token expired" None))
          else
            u <- db.GetUserByID (RefreshToken_UserID tokenData) ;;
            match u with
            | Err _ => ret (JSON StatusUnauthorized (ErrorResponse "User not found" None))
            | Ok user =>
                a <- auth.GenerateAccessToken (User_ID user) (User_Username user) ;;
                match a with
                | Err _ =>
                    ret (JSON StatusInternalServerError
                           (ErrorResponse "Failed to generate access token" None))
                | Ok accessToken =>
                    db.DeleteRefreshToken refreshToken ;;;
                    t <- auth.GenerateRefreshToken ;;
                    match t with
                    | Err _ =>
                        ret (JSON StatusInternalServerError
                               (ErrorResponse "Failed to generate refresh token" None))
                    | Ok newRefreshToken =>
                        expiresAt <- auth.GetRefreshTokenExpiry ;;
                        s <- db.SaveRefreshToken (User_ID user) newRefreshToken expiresAt ;;
                        match s with
                        | Some _ =>
                            ret (JSON StatusInternalServerError
                                   (ErrorResponse "Failed to save refresh token" None))
                        | None => login_ok accessToken newRefreshToken (User_APIToken user)
                        end
                    end
                end
            end
      end
  end.

Definition set_DNS (v : string) (w : World) : World :=
  let c := cfg w in
  let g := WireGuard c in
  set_cfg {| JWT := JWT c;
             WireGuard := {| Interface := Interface g; ServerPublicKey := ServerPublicKey g;
                             ServerEndpoint := ServerEndpoint g; DNS := v;
                             AllowedIPs := AllowedIPs g; Subnet := Subnet g |};
             Security := Security c; Admin_Username := Admin_Username c |} w.

Definition set_AllowedIPs (v : string) (w : World) : World :=
  let c := cfg w in
  let g := WireGuard c in
  set_cfg {| JWT := JWT c;
             WireGuard := {| Interface := Interface g; ServerPublicKey := ServerPublicKey g;
                             ServerEndpoint := ServerEndpoint g; DNS := DNS g;
                             AllowedIPs := v; Subnet := Subnet g |};
             Security := Security c; Admin_Username := Admin_Username c |} w.

Definition bcrypt_DefaultCost : Z := 10.

(** [bcrypt.GenerateFromPassword]: unless the library refuses the password
    or the cost outright, a fresh 16-byte salt, then the hash. *)
Definition GenerateFromPassword (password : string) (cost : Z) : M (result string) :=
  match bcrypt_refuses password cost with
  | Some e => ret (Err e)
  | None =>
      s <- rand_Read 16 ;;
      ret (match s with
           | Err e => Err e
           | Ok salt => bcrypt_GenerateFromPassword password cost salt
           end)
  end.

(** The last block of [UpdateSettings]: the new admin password. *)
Definition update_admin_password (password : string) : M (option Response) :=
  h <- GenerateFromPassword password bcrypt_DefaultCost ;;
  match h with
  | Err _ =>
      ret (Some (JSON StatusInternalServerError
                   (ErrorResponse "Failed to hash password" None)))
  | Ok hashedPassword =>
      admin <- gets (fun w => Admin_Username (cfg w)) ;;
      u <- db.GetUserByUsername admin ;;
      match u with
      | Err _ =>
          ret (Some (JSON StatusInternalServerError
                       (ErrorResponse "Failed to find admin user" None)))
      | Ok user =>
          e <- db.UpdateUserPassword (User_ID user) hashedPassword ;;
          match e with
          | Some _ =>
              ret (Some (JSON StatusInternalServerError
                           (ErrorResponse "Failed to update password" None)))
          | None =>
              secret <- gets (fun w => AccessSecret (JWT (cfg w))) ;;
              let newAPIToken := auth.GenerateAPIToken password secret in
              e <- db.UpdateUserAPIToken (User_ID user) newAPIToken ;;
              match e with
              | Some _ =>
                  ret (Some (JSON StatusInternalServerError
                               (ErrorResponse "Failed to update API token" None)))
              | None =>
                  (* Invalidate all existing refresh tokens (force re-login) *)
                  db.DeleteUserRefreshTokens (User_ID user) ;;;
                  ret None
              end
          end
      end
  end.

Definition update_setting (key : string) (value : option string) (failure : string)
    (after : string -> World -> World) : M (option Response) :=
  match value with
  | None => ret None
  | Some v =>
      e <- db.SetSetting key v ;;
      match e with
      | Some _ => ret (Some (JSON StatusInternalServerError (ErrorResponse failure None)))
      | None => fun w => (None, after v w)
      end
  end.

Definition UpdateSettings (body : option UpdateSettingsRequest) : M Response :=
  match body with
  | None => ret (JSON StatusBadRequest (ErrorResponse "Invalid request" None))
  | Some req =>
      r <- update_setting "dns" (UpdateSettingsRequest_DNS req) "Failed to update DNS"
             set_DNS ;;
      match r with
      | Some resp => ret resp
      | None =>
          r <- update_setting "allowed_ips" (UpdateSettingsRequest_AllowedIPs req)
                 "Failed to update AllowedIPs" set_AllowedIPs ;;
          match r with
          | Some resp => ret resp
          | None =>
              r <- update_setting "logging_enabled"
                     (option_map (fun b : bool => if b then "true" else "false")
                        (UpdateSettingsRequest_LoggingEnabled req))
                     "Failed to update logging setting" (fun _ w => w) ;;
              match r with
              | Some resp => ret resp
              | None =>
                  r <- match UpdateSettingsRequest_AdminPassword req with
                       | Some password =>
                           if negb (String.eqb password "")
                           then update_admin_password password
                           else ret None
                       | None => ret None
                       end ;;
                  match r with
                  | Some resp => ret resp
                  | None => ret (JSON StatusOK (H [("message", "Settings updated")]))
                  end
              end
          end
      end
  end.

End WithVendor.

(** [Logout]: the cookie is cleared and the answer is 200 whatever the
    delete did. *)
Definition Logout (cookie : option string) : M Response :=
  match cookie with
  | Some refreshToken => db.DeleteRefreshToken refreshToken ;;; ret tt
  | None => ret tt
  end ;;;
  ret {| Status := StatusOK; Payload := H [("message", "Logged out successfully")];
         SetCookie := Some "" |}.

(** [GetSettings] answers with an error response or, with status 200, a
    [SettingsResponse]. *)
Definition GetSettings : M (Response + SettingsResponse) :=
  r <- db.GetAllSettings ;;
  match r with
  | Err _ =>
      ret (inl (JSON StatusInternalServerError (ErrorResponse "Failed to get settings" None)))
  | Ok settings =>
      g <- gets (fun w => WireGuard (cfg w)) ;;
      let dns := match settings !! "dns" with
                 | Some val => if negb (String.eqb val "") then val else DNS g
                 | None => DNS g
                 end in
      let allowedIPs := match settings !! "allowed_ips" with
                        | Some val => if negb (String.eqb val "") then val else AllowedIPs g
                        | None => AllowedIPs g
                        end in
      let loggingEnabled := match settings !! "logging_enabled" with
                            | Some val => String.eqb val "true"
                            | None => false
                            end in
      admin <- gets (fun w => Admin_Username (cfg w)) ;;
      u <- db.GetUserByUsername admin ;;
      let apiToken := match u with
                      | Ok user => User_APIToken user
                      | Err _ => ""
                      end in
      ret (inr {| SettingsResponse_DNS := dns; SettingsResponse_AllowedIPs := allowedIPs;
                  SettingsResponse_LoggingEnabled := loggingEnabled;
                  SettingsResponse_APIToken := apiToken |})
  end.

(** What [GetPeerConfig] sends with status 200: the two headers and the
    text. *)
Record Download := {
  ContentDisposition : string;
  ContentType : string;
  Content : string
}.

Definition GetPeerConfig (ip : string) : M (Response + Download) :=
  if negb (wgmanager.ValidateIP ip) then
    ret (inl (JSON StatusBadRequest (ErrorResponse "Invalid IP address format" None)))
  else
    r <- db.GetPeerByIP ip ;;
    match r with
    | Err _ => ret (inl (JSON StatusNotFound (ErrorResponse "Peer not found" None)))
    | Ok peer =>
        c <- wgmanager.GenerateClientConfig peer ;;
        match c with
        | Err _ =>
            ret (inl (JSON StatusInternalServerError
                        (ErrorResponse "Failed to generate configuration" None)))
        | Ok configContent =>
            let filename := Peer_Name peer +:+ ".conf" in
            ret (inr {| ContentDisposition := "attachment; filename=" +:+ filename;
                        ContentType := "text/plain"; Content := configContent |})
        end
    end.

End handlers.

(** ** golang.org/x/time/rate

    The token bucket of the rate library: a bucket of size [burst], full at
    first, refilled at [limit] tokens a second.  Times are Unix nanoseconds.

    The library holds the tokens in [float64]; here they are exact
    rationals.  The two agree on whether a request is admitted except where
    rounding decides the comparison, which is within a nanosecond of the
    instant at which the missing token is refilled: there the library can
    admit a request that the exact bucket refuses.  The statements below
    about refused requests and about the number of admitted ones therefore
    stay a microsecond off that instant.  A window of 0 seconds, an infinite
    rate in the library, is outside this model. *)

Module rate.

Record Limiter := { limit : Q; burst : Z; tokens : Q; last : Z }.

Definition NewLimiter (r : Q) (b : Z) : Limiter :=
  {| limit := r; burst := b; tokens := inject_Z b; last := 0 |}.

Definition Qlt_bool (a b : Q) : bool := negb (Qle_bool b a).

Definition second : Q := inject_Z 1000000000.

(** [Limit.tokensFromDuration] *)
Definition tokensFromDuration (lim : Q) (d : Z) : Q :=
  if Qle_bool lim 0 then 0%Q else (inject_Z d / second * lim)%Q.

(** [Limit.durationFromTokens]; [None] is [InfDuration].  The conversion
    to a [time.Duration] drops the fraction of a nanosecond. *)
Definition durationFromTokens (lim : Q) (t : Q) : option Z :=
  if Qle_bool lim 0 then None else Some (Qfloor (t / lim * second)%Q).

(** [Limiter.advance] *)
Definition advance (l : Limiter) (t : Z) : Q :=
  let last := if t <? last l then t else last l in
  let elapsed := t - last in
  let delta := tokensFromDuration (limit l) elapsed in
  let tokens := (tokens l + delta)%Q in
  if Qlt_bool (inject_Z (burst l)) tokens then inject_Z (burst l) else tokens.

(** [Limiter.Allow] at time [t], that is [reserveN(t, 1, 0).ok], and the
    limiter after it. *)
Definition Allow (t : Z) (l : Limiter) : bool * Limiter :=
  if Qeq_bool (limit l) 0 then
    if 1 <=? burst l
    then (true, {| limit := limit l; burst := burst l - 1; tokens := tokens l; last := last l |})
    else (false, l)
  else
    let tokens := (advance l t - 1)%Q in
    let waitDuration :=
      if Qlt_bool tokens 0 then durationFromTokens (limit l) (- tokens)%Q else Some 0 in
    let ok := (1 <=? burst l)
              && match waitDuration with Some d => d <=? 0 | None => false end in
    if ok then (true, {| limit := limit l; burst := burst l; tokens := tokens; last := t |})
    else (false, l).

End rate.

(** ** package middleware *)

Module middleware.

Inductive Outcome :=
  | Next (user_id : Z) (username : string)
  | Abort (r : Response).

Definition abort (status : Z) (msg : string) : M Outcome :=
  ret (Abort (JSON status (H [("error", msg)]))).

Definition lower (c : ascii) : ascii :=
  if (65 <=? ord c) && (ord c <=? 90) then chr (ord c + 32) else c.

(** [strings.ToLower] on ASCII; no other letter has a lower case in
    ["bearer"]. *)
Fixpoint ToLower (s : string) : string :=
  match s with
  | EmptyString => EmptyString
  | String c r => String (lower c) (ToLower r)
  end.

(** [strings.SplitN(s, " ", 2)] *)
Fixpoint SplitN2 (s : string) : list string :=
  match s with
  | EmptyString => [EmptyString]
  | String c r =>
      if ord c =? 32 then [EmptyString; r]
      else match SplitN2 r with
           | p :: ps => String c p :: ps
           | [] => [String c EmptyString]
           end
  end.

Definition invalid_or_expired : Response :=
  JSON StatusUnauthorized (H [("error", "Invalid or expired token")]).

Section WithVendor.
Context {vendor : Vendor}.

Definition AuthMiddleware (authHeader : string) : M Outcome :=
  if String.eqb authHeader "" then abort StatusUnauthorized "Authorization header required"
  else
    match SplitN2 authHeader with
    | [scheme; tokenString] =>
        if negb (String.eqb (ToLower scheme) "bearer") then
          abort StatusUnauthorized "Invalid authorization format. Use: Bearer <token>"
        else if String.eqb tokenString "" then abort StatusUnauthorized "Token required"
        else
          v <- auth.ValidateAccessToken tokenString ;;
          match v with
          | Ok claims => ret (Next (Claims_UserID claims) (Claims_Username claims))
          | Err _ =>
              if len tokenString =? 43 then
                u <- db.GetUserByAPIToken tokenString ;;
                match u with
                | Ok user => ret (Next (User_ID user) (User_Username user))
                | Err _ => ret (Abort invalid_or_expired)
                end
              else ret (Abort invalid_or_expired)
          end
    | _ => abort StatusUnauthorized "Invalid authorization format. Use: Bearer <token>"
    end.

End WithVendor.

(** *** The rate limiter of the login route

    The limiter of a visitor is a shared object in the Go code; here the
    state it is left in is written back to the visitor's entry. *)

Record visitorInfo := { limiter : rate.Limiter; lastSeen : Z }.

Record RateLimiter := {
  visitors : gmap string visitorInfo;
  rate : Q;
  burst : Z
}.

Definition NewRateLimiter (requests windowSeconds : Z) : RateLimiter :=
  {| visitors := ∅;
     rate := (inject_Z requests / inject_Z windowSeconds)%Q;
     burst := requests |}.

Definition set_visitor (ip : string) (v : visitorInfo) (rl : RateLimiter) : RateLimiter :=
  {| visitors := <[ip := v]> (visitors rl); rate := rate rl; burst := burst rl |}.

Definition getVisitor (ip : string) (now : Z) (rl : RateLimiter)
  : rate.Limiter * RateLimiter :=
  match visitors rl !! ip with
  | None =>
      let limiter := rate.NewLimiter (rate rl) (burst rl) in
      (limiter, set_visitor ip {| limiter := limiter; lastSeen := now |} rl)
  | Some v =>
      (limiter v, set_visitor ip {| limiter := limiter v; lastSeen := now |} rl)
  end.

(** One tick of [cleanupVisitors]: entries not seen for more than three
    minutes go. *)
Definition cleanupVisitors (now : Z) (rl : RateLimiter) : RateLimiter :=
  {| visitors := filter (fun kv => ¬ (3 * 60 * 1000000000 < now - lastSeen (snd kv)))
                   (visitors rl);
     rate := rate rl; burst := burst rl |}.

Definition too_many_requests : Response :=
  JSON StatusTooManyRequests
    (H [("error", "Too many requests"); ("message", "Please try again later")]).

(** [RateLimiter.Middleware] for a request from [ip] at time [now]:
    [None] lets the request through to the handler. *)
Definition Middleware (ip : string) (now : Z) (rl : RateLimiter)
  : option Response * RateLimiter :=
  let (lim, rl1) := getVisitor ip now rl in
  let (ok, lim') := rate.Allow now lim in
  let rl2 := set_visitor ip {| limiter := lim'; lastSeen := now |} rl1 in
  if negb ok then (Some too_many_requests, rl2) else (None, rl2).

(** What reaches the limiter: a login request, or a tick of the cleanup. *)
Inductive Tick :=
  | Request (ip : string) (now : Z)
  | Cleanup (now : Z).

Definition tick_time (t : Tick) : Z :=
  match t with Request _ n => n | Cleanup n => n end.

Definition step (rl : RateLimiter) (t : Tick) : RateLimiter :=
  match t with
  | Request ip now => snd (Middleware ip now rl)
  | Cleanup now => cleanupVisitors now rl
  end.

Definition run (rl : RateLimiter) (ts : list Tick) : RateLimiter := fold_left step ts rl.

End middleware.

(** ** package main: what runs before the server listens *)

Module main.

Section WithVendor.
Context {vendor : Vendor}.

(** [ensureAdminUser]; [adminPassword] is [cfg.Admin.Password], which the
    configuration record here does not carry. *)
Definition ensureAdminUser (adminPassword : string) : M (option error) :=
  admin <- gets (fun w => Admin_Username (cfg w)) ;;
  r <- db.UserExists admin ;;
  match r with
  | Err err => ret (Some err)
  | Ok exists_ =>
      if negb exists_ then
        cost <- gets (fun w => BcryptCost (Security (cfg w))) ;;
        h <- auth.HashPassword adminPassword cost ;;
        match h with
        | Err err => ret (Some err)
        | Ok passwordHash =>
            u <- db.CreateUser admin passwordHash ;;
            match u with
            | Err err => ret (Some err)
            | Ok _ => ret None
            end
        end
      else ret None
  end.

End WithVendor.

(** [loadSavedSettings]: a saved value that is not empty replaces the one
    of the configuration. *)
Definition loadSavedSettings : M (option error) :=
  r <- db.GetAllSettings ;;
  match r with
  | Err err => ret (Some err)
  | Ok settings =>
      (match settings !! "dns" with
       | Some dns => if negb (String.eqb dns "") then (fun w => (tt, handlers.set_DNS dns w))
                     else ret tt
       | None => ret tt
       end) ;;;
      (match settings !! "allowed_ips" with
       | Some allowedIPs =>
           if negb (String.eqb allowedIPs "")
           then (fun w => (tt, handlers.set_AllowedIPs allowedIPs w))
           else ret tt
       | None => ret tt
       end) ;;;
      ret None
  end.

End main.

(** ** Sample instances, on which the definitions can be evaluated *)

Definition sample_vendor : Vendor :=
  {| jwt_SignedString c _ := Ok ("jwt:" +:+ Claims_Username c);
     jwt_ParseWithClaims tok _ now :=
       if String.eqb tok "jwt:admin"
       then inl {| Claims_UserID := 1; Claims_Username := "admin";
                   Claims_ExpiresAt := now + 1; Claims_IssuedAt := now;
                   Claims_Issuer := "wgeasygo" |}
       else inr TokenMalformed;
     bcrypt_refuses p _ :=
       if 72 <? len p then Some (Errorf "bcrypt: password length exceeds 72 bytes") else None;
     bcrypt_GenerateFromPassword p _ _ := Ok ("bcrypt:" +:+ p);
     bcrypt_CompareHashAndPassword h p := String.eqb h ("bcrypt:" +:+ p);
     curve25519_ScalarBaseMult b := map (fun x => z2b (b2z x + 1)) b |}.

Definition sample_config : Config :=
  {| JWT := {| AccessSecret := "access-secret"; RefreshSecret := "refresh-secret";
               AccessExpiryMinutes := 15; RefreshExpiryDays := 7 |};
     WireGuard := {| Interface := "wg0"; ServerPublicKey := ""; ServerEndpoint := "vpn:51820";
                     DNS := "1.1.1.1"; AllowedIPs := "0.0.0.0/0"; Subnet := "10.8.0.0/24" |};
     Security := {| BcryptCost := 12; RateLimitRequests := 5; RateLimitWindowSeconds := 60 |};
     Admin_Username := "admin" |}.

Definition admin_user (apiToken : string) : User :=
  {| User_ID := 1; User_Username := "admin"; User_PasswordHash := "bcrypt:changeme123";
     User_APIToken := apiToken |}.

Definition sample_db (us : list User) (ps : list Peer) (ts : list RefreshToken) : Database :=
  {| users := us; users_seq := Z.of_nat (length us);
     peers := ps; peers_seq := Z.of_nat (length ps);
     refresh_tokens := list_to_map (map (fun t => (RefreshToken_Token t, t)) ts);
     refresh_tokens_seq := Z.of_nat (length ts);
     settings := ∅ |}.

(** A world at time [now] in which the boundary steps fail as [fs] says. *)
Definition sample_world (d : Database) (now : Z) (fs : list bool) : World :=
  {| store := d; live := ∅; saved := ∅; cfg := sample_config; clock := now;
     faults := fs; entropy := []; log := [] |}.

Definition sample_key (n : Z) : string :=
  base64.EncodeToString base64.StdEncoding (repeat (z2b n) 32).

Definition sample_peer (id host : Z) (enabled : bool) : Peer :=
  {| Peer_ID := id; Peer_Name := "peer" +:+ itoa id; Peer_PublicKey := sample_key host;
     Peer_PrivateKey := sample_key (host + 100);
     Peer_AssignedIP := Sprintf_ipv4 10 8 0 host; Peer_Enabled := enabled |}.

(** Peers on the hosts [lo], [lo + 1], ... ([n] of them). *)
Fixpoint sample_peers (n : nat) (lo : Z) : list Peer :=
  match n with
  | O => []
  | S n' => sample_peer (lo - 1) lo true :: sample_peers n' (lo + 1)
  end.

Definition stored_token (id userID : Z) (token : string) (expiresAt : Z) : RefreshToken :=
  {| RefreshToken_ID := id; RefreshToken_UserID := userID; RefreshToken_Token := token;
     RefreshToken_ExpiresAt := expiresAt |}.

(** The admin holds the refresh token ["old-token"], good until 1000; the
    clock reads 10; the boundary steps fail as [fs] says. *)
Definition session_world (fs : list bool) : World :=
  set_entropy [[x01]; [x02]; [x03]]
    (sample_world (sample_db [admin_user ""] [] [stored_token 1 1 "old-token" 1000]) 10 fs).

Definition change_password (password : string) : UpdateSettingsRequest :=
  {| UpdateSettingsRequest_DNS := None; UpdateSettingsRequest_AllowedIPs := None;
     UpdateSettingsRequest_LoggingEnabled := None;
     UpdateSettingsRequest_AdminPassword := Some password |}.

(** ** Vocabulary of the statements *)

Definition login_admin : LoginRequest :=
  {| LoginRequest_Username := "admin"; LoginRequest_Password := "changeme123" |}.

(** Whether the bearer value is a valid access token in this world. *)
Definition jwt_valid {vendor : Vendor} (tok : string) (w : World) : bool :=
  match jwt_ParseWithClaims tok (AccessSecret (JWT (cfg w))) (clock w) with
  | inl _ => true
  | inr _ => false
  end.

Definition all_runs (evs : list Event) : Prop := Forall (fun e => is_run e = true) evs.
Definition no_runs (evs : list Event) : Prop := Forall (fun e => is_run e = false) evs.

(** The row that a lookup by address finds. *)
Definition persisted (ip : string) (w : World) (peer : Peer) : Prop :=
  head (filter (fun p => Peer_AssignedIP p = ip) (peers (store w))) = Some peer.

(** The row that [INSERT INTO peers] writes for [p]. *)
Definition inserted_row (p : Peer) (d : Database) : Peer :=
  {| Peer_ID := db.next_rowid (peers_seq d) (map Peer_ID (peers d));
     Peer_Name := Peer_Name p; Peer_PublicKey := Peer_PublicKey p;
     Peer_PrivateKey := Peer_PrivateKey p; Peer_AssignedIP := Peer_AssignedIP p;
     Peer_Enabled := Peer_Enabled p |}.

(** Steps that leave the credentials alone. *)
Definition keeps_credentials (w w1 : World) : Prop :=
  users (store w1) = users (store w) /\
  refresh_tokens (store w1) = refresh_tokens (store w) /\
  Admin_Username (cfg w1) = Admin_Username (cfg w) /\
  exists evs, log w1 = log w ++ evs.

(** The refill rate of the login limiter, [5 / 60] tokens a second. *)
Definition login_rate : Q := (inject_Z 5 / inject_Z 60)%Q.

(** What [NewRateLimiter 5 60] hands to every limiter it creates. *)
Definition configured (rl : middleware.RateLimiter) : Prop :=
  middleware.rate rl = login_rate /\ middleware.burst rl = 5 /\
  forall ip v, middleware.visitors rl !! ip = Some v ->
               rate.limit (middleware.limiter v) = login_rate /\
               rate.burst (middleware.limiter v) = 5.

(** After [k] admitted attempts since [t1], the last of them at [t]: the
    bucket holds at most [5 - k] tokens and what the time since [t1] refilled,
    one token every twelve seconds. *)
Definition spent (k t1 t : Z) (l : rate.Limiter) : Prop :=
  rate.limit l = login_rate /\ rate.burst l = 5 /\ rate.last l = t /\
  (rate.tokens l <= inject_Z (5 - k) + inject_Z (t - t1) * (1 # 12000000000))%Q.

(** After [k] attempts on a bucket that was full, at least [5 - k] tokens
    are left. *)
Definition left_over (k : Z) (l : rate.Limiter) : Prop :=
  rate.limit l = login_rate /\ rate.burst l = 5 /\
  (inject_Z (5 - k) <= rate.tokens l)%Q.

(** A tick that leaves the entry of [ip] alone: a request of another
    source, or a cleanup no later than three minutes after [t1]. *)
Definition quiet (ip : string) (t1 : Z) (tk : middleware.Tick) : Prop :=
  match tk with
  | middleware.Request ip' _ => ip' <> ip
  | middleware.Cleanup now => now - t1 <= 3 * 60 * 1000000000
  end.

Definition second : Z := 1000000000.

(** *** Sessions and settings *)

Definition invalid_credentials : Response :=
  JSON StatusUnauthorized (ErrorResponse "Invalid credentials" None).

Definition logged_out : Response :=
  {| Status := StatusOK; Payload := H [("message", "Logged out successfully")];
     SetCookie := Some "" |}.

(** The user row after [UPDATE users SET api_token = ?]. *)
Definition with_token (apiToken : string) (u : User) : User :=
  {| User_ID := User_ID u; User_Username := User_Username u;
     User_PasswordHash := User_PasswordHash u; User_APIToken := apiToken |}.

(** The user row after a change of password. *)
Definition with_password (hash apiToken : string) (u : User) : User :=
  {| User_ID := User_ID u; User_Username := User_Username u;
     User_PasswordHash := hash; User_APIToken := apiToken |}.

(** The settings table after an optional upsert. *)
Definition put (key : string) (value : option string) (m : gmap string string)
  : gmap string string :=
  match value with Some v => <[key := v]> m | None => m end.

Definition logging_value (b : bool) : string := if b then "true" else "false".

(** *** The registry and the interface *)

Definition peers_unique (d : Database) : Prop :=
  NoDup (map Peer_AssignedIP (peers d)) /\ NoDup (map Peer_PublicKey (peers d)).

Definition in_sync (w : World) : Prop :=
  forall k a,
    live w !! k = Some a <->
    exists p, p ∈ peers (store w) /\ Peer_Enabled p = true /\ Peer_PublicKey p = k /\
              a = Peer_AssignedIP p +:+ "/32".

(** The peer row after [db.UpdatePeer]. *)
Definition updated (name : option string) (enabled : option bool) (p : Peer) : Peer :=
  {| Peer_ID := Peer_ID p; Peer_Name := default (Peer_Name p) name;
     Peer_PublicKey := Peer_PublicKey p; Peer_PrivateKey := Peer_PrivateKey p;
     Peer_AssignedIP := Peer_AssignedIP p;
     Peer_Enabled := default (Peer_Enabled p) enabled |}.

Definition fresh_row (row : Peer) (ps : list Peer) : Prop :=
  forall q, q ∈ ps -> Peer_PublicKey q <> Peer_PublicKey row /\
                      Peer_AssignedIP q <> Peer_AssignedIP row.

Definition toggled (enabled : option bool) (peer : Peer) (l : gmap string string)
  : gmap string string :=
  match enabled with
  | Some true =>
      if Peer_Enabled peer then l
      else <[Peer_PublicKey peer := Peer_AssignedIP peer +:+ "/32"]> l
  | Some false => if Peer_Enabled peer then delete (Peer_PublicKey peer) l else l
  | None => l
  end.

(** *** Addresses *)

Definition octet (p : string) : Prop :=
  all_digits p = true /\ 1 <= len p <= 3 /\ atoi_digits p 0 <= 255.

Definition dotted (a b c d : string) : string :=
  a +:+ "." +:+ b +:+ "." +:+ c +:+ "." +:+ d.

(** *** Traces of the limiter *)

(** The attempts of [ip] that the limiter lets through along a trace. *)
Fixpoint admitted (ip : string) (rl : middleware.RateLimiter) (trace : list middleware.Tick)
  : Z :=
  match trace with
  | [] => 0
  | tk :: rest =>
      match tk with
      | middleware.Request ip' now =>
          if decide (ip' = ip) then
            match fst (middleware.Middleware ip' now rl) with None => 1 | Some _ => 0 end
          else 0
      | middleware.Cleanup _ => 0
      end + admitted ip (middleware.step rl tk) rest
  end.

(** The ticks of a trace come in the order of their times, none before [t]. *)
Fixpoint ordered (t : Z) (trace : list middleware.Tick) : Prop :=
  match trace with
  | [] => True
  | tk :: rest => t <= middleware.tick_time tk /\ ordered (middleware.tick_time tk) rest
  end.

(** The entry of a source that had [k] attempts admitted since [t1], seen
    at time [now]: none is left only when twelve seconds went by for each. *)
Definition charged (t1 k now : Z) (o : option middleware.visitorInfo) : Prop :=
  match o with
  | None => 12000000000 * k <= now - t1
  | Some v =>
      k = 0 \/
      exists t, spent k t1 t (middleware.limiter v) /\
                t1 <= t <= middleware.lastSeen v /\ middleware.lastSeen v <= now /\
                12000000000 * (k - 5) <= t - t1
  end.

(** What the limiter answers to the requests of [ip] along a trace. *)
Fixpoint answers (ip : string) (rl : middleware.RateLimiter) (trace : list middleware.Tick)
  : list (option Response) :=
  match trace with
  | [] => []
  | tk :: rest =>
      match tk with
      | middleware.Request ip' now =>
          if decide (ip' = ip) then [fst (middleware.Middleware ip' now rl)] else []
      | middleware.Cleanup _ => []
      end ++ answers ip (middleware.step rl tk) rest
  end.

(** The requests of [ip] in a trace, nothing else. *)
Fixpoint own (ip : string) (trace : list middleware.Tick) : list middleware.Tick :=
  match trace with
  | [] => []
  | middleware.Request ip' now :: rest =>
      if decide (ip' = ip) then middleware.Request ip' now :: own ip rest else own ip rest
  | middleware.Cleanup _ :: rest => own ip rest
  end.

(** Two buckets that hold the same number of tokens. *)
Definition same_bucket (l l' : rate.Limiter) : Prop :=
  rate.limit l = rate.limit l' /\ rate.burst l = rate.burst l' /\
  rate.last l = rate.last l' /\ (rate.tokens l == rate.tokens l')%Q.

(** An entry as requests up to [now] leave it. *)
Definition settled (now : Z) (v : middleware.visitorInfo) : Prop :=
  rate.limit (middleware.limiter v) = login_rate /\
  rate.burst (middleware.limiter v) = 5 /\
  rate.last (middleware.limiter v) <= middleware.lastSeen v <= now /\
  (- (1) <= rate.tokens (middleware.limiter v))%Q.

(** The entry [o] of a source in a run with the cleanup and the other
    sources, against its entry [o'] in a run of its own requests: the same
    bucket, or one that the cleanup dropped after three idle minutes. *)
Definition agree (now : Z) (o o' : option middleware.visitorInfo) : Prop :=
  match o' with
  | None => o = None
  | Some v' =>
      settled now v' /\
      match o with
      | Some v => middleware.lastSeen v = middleware.lastSeen v' /\
                  same_bucket (middleware.limiter v) (middleware.limiter v')
      | None => 3 * 60 * 1000000000 < now - middleware.lastSeen v'
      end
  end.

(** * Theorems *)

(** ** The models of the standard library agree with the published vectors *)

Example sha256_abc :
  sha256.Sum256 (bytes_of_string "abc") =
  map z2b [186; 120; 22; 191; 143; 1; 207; 234; 65; 65; 64; 222; 93; 174; 34; 35;
           176; 3; 97; 163; 150; 23; 122; 156; 180; 16; 255; 97; 242; 0; 21; 173].
Proof. vm_compute. reflexivity. Qed.

Example api_token_admin :
  auth.GenerateAPIToken "admin" "secret" = "sWWO3SCiywjRhhbjpiDvlfX-VMQeGNPrnmYaUUMRi3U".
Proof. vm_compute. reflexivity. Qed.

Example api_token_of_empty_password :
  auth.GenerateAPIToken "" "" = "ylxzafsR9FMmAXBe-efhDqcR-SmGFJ1ejIt9xaQ4S6g".
Proof. vm_compute. reflexivity. Qed.

Example api_token_of_passphrase :
  auth.GenerateAPIToken "correct horse battery staple" "k" =
  "joaTuSXz8I5AtBYszmjf4Pcl0kutMrcDDuj0wYjygU4".
Proof. vm_compute. reflexivity. Qed.

Example base64_std_32 :
  base64.EncodeToString base64.StdEncoding (map z2b (map Z.of_nat (seq 0 32))) =
  "AAECAwQFBgcICQoLDA0ODxAREhMUFRYXGBkaGxwdHh8=".
Proof. vm_compute. reflexivity. Qed.

Example base64_std_decode_32 :
  base64.DecodeString base64.StdEncoding "AAECAwQFBgcICQoLDA0ODxAREhMUFRYXGBkaGxwdHh8=" =
  Some (map z2b (map Z.of_nat (seq 0 32))).
Proof. vm_compute. reflexivity. Qed.

Example sample_key_valid : wgmanager.ValidatePublicKey (sample_key 7) = true.
Proof. vm_compute. reflexivity. Qed.

Example ValidateIP_examples :
  wgmanager.ValidateIP "10.8.0.5" = true /\ wgmanager.ValidateIP "10.8.0.256" = false /\
  wgmanager.ValidateIP "10.8.0" = false /\ wgmanager.ValidateIP "10.8.0.5 " = false /\
  wgmanager.ValidateIP "" = false /\ wgmanager.ValidateIP "1.2.3.4.5" = false.
Proof. vm_compute. repeat split. Qed.

Example Sscanf_examples :
  Sscanf_ipv4 (db.baseIP "10.8.0.0/24") = (10, 8, 0, 0) /\
  Sscanf_ipv4 (db.baseIP "192.168.77.1") = (192, 168, 77, 1) /\
  Sscanf_ipv4 (db.baseIP "10.8") = (10, 8, 0, 0) /\
  Sprintf_ipv4 10 8 0 254 = "10.8.0.254".
Proof. vm_compute. repeat split. Qed.

Example Sscanf_blanks_and_signs :
  Sscanf_ipv4 (db.baseIP "1_0.8.0.0/24") = (1, 0, 0, 0) /\
  Sscanf_ipv4 (db.baseIP " 10.8.0.0/24") = (10, 8, 0, 0) /\
  Sscanf_ipv4 (db.baseIP "10. 8.0.0/24") = (10, 8, 0, 0) /\
  Sscanf_ipv4 (db.baseIP "10 .8.0.0/24") = (10, 0, 0, 0) /\
  Sscanf_ipv4 (db.baseIP "+10.-8.0.0/24") = (10, -8, 0, 0).
Proof. vm_compute. repeat split. Qed.

(** ** Symbolic execution of the handlers *)

Ltac break_match :=
  match goal with
  | |- context [match ?x with _ => _ end] =>
      lazymatch x with
      | match _ with _ => _ end => fail
      | _ => destruct x eqn:?
      end
  | H : context [match ?x with _ => _ end] |- _ =>
      lazymatch x with
      | match _ with _ => _ end => fail
      | _ => destruct x eqn:?
      end
  end.

Ltac unfold_m :=
  unfold bind, ret, gets, time_Now, Exec, Query, QueryRow, Run, rand_Read in *.

Ltac run := repeat (cbn in *; try discriminate; simplify_eq; try break_match).

(** ** The API credential (C7) *)

Lemma be_bytes_length n x : length (sha256.be_bytes n x) = n.
Proof. unfold sha256.be_bytes. rewrite length_map, length_rev, length_seq. reflexivity. Qed.

Lemma Sum256_length m : length (sha256.Sum256 m) = 32%nat.
Proof.
  unfold sha256.Sum256.
  generalize (sha256.blocks (length (m ++ sha256.padding m) / 64) sha256.init
                (m ++ sha256.padding m)).
  intros [[[[[[[a b] c] d] e] f] g] h]. unfold sha256.out. cbn [flat_map].
  rewrite !length_app, !be_bytes_length. reflexivity.
Qed.

Lemma hmac_Sum_length key msg : length (hmac.Sum key msg) = 32%nat.
Proof. unfold hmac.Sum. apply Sum256_length. Qed.

Lemma list_ind3 {A} (P : list A -> Prop) :
  P [] -> (forall a, P [a]) -> (forall a b, P [a; b]) ->
  (forall a b c l, P l -> P (a :: b :: c :: l)) -> forall l, P l.
Proof.
  intros H0 H1 H2 H3.
  fix IH 1. intros [|a [|b [|c l]]]; [apply H0 | apply H1 | apply H2 | apply H3, IH].
Qed.

Lemma EncodeToString_raw_len (src : bytes) :
  len (base64.EncodeToString base64.RawURLEncoding src) = (4 * Z.of_nat (length src) + 2) / 3.
Proof.
  induction src as [|a|a b|a b c l IH] using list_ind3; try reflexivity.
  unfold len in *. cbn [base64.EncodeToString String.length length].
  rewrite !Nat2Z.inj_succ. rewrite IH. Z.div_mod_to_equations. lia.
Qed.

Lemma GenerateAPIToken_len password secret : len (auth.GenerateAPIToken password secret) = 43.
Proof.
  unfold auth.GenerateAPIToken.
  set (hash := hmac.Sum _ _).
  assert (L : len (base64.EncodeToString base64.RawURLEncoding hash) = 43).
  { rewrite EncodeToString_raw_len. unfold hash. rewrite hmac_Sum_length. reflexivity. }
  rewrite L. exact L.
Qed.

Lemma Login_api_token {vendor : Vendor} req w resp w' :
  handlers.Login (Some req) w = (resp, w') ->
  Status resp = StatusOK ->
  exists l, Payload resp = LoginJSON l /\
            LoginResponse_APIToken l =
              auth.GenerateAPIToken (LoginRequest_Password req) (AccessSecret (JWT (cfg w))).
Proof.
  unfold handlers.Login, handlers.login_ok, db.GetUserByUsername, db.UpdateUserAPIToken,
    db.SaveRefreshToken, auth.GenerateAccessToken, auth.GenerateRefreshToken,
    auth.GetRefreshTokenExpiry.
  unfold_m. intros E S. run.
  all: eexists; split; reflexivity.
Qed.

(** C7.  The API credential is a function of the password alone: it has
    exactly 43 characters whatever the password, the second argument of the
    derivation (the deployment's secret) does not enter it, and two logins
    that succeed with the same password, in any two states of any two
    deployments, answer with the same 43-character credential. *)
Theorem api_credential_is_function_of_password {vendor : Vendor} (password : string) :
  (forall secret, len (auth.GenerateAPIToken password secret) = 43) /\
  (forall s1 s2, auth.GenerateAPIToken password s1 = auth.GenerateAPIToken password s2) /\
  (forall req1 req2 w1 w2 r1 r2 w1' w2',
      LoginRequest_Password req1 = password ->
      LoginRequest_Password req2 = password ->
      handlers.Login (Some req1) w1 = (r1, w1') ->
      handlers.Login (Some req2) w2 = (r2, w2') ->
      Status r1 = StatusOK -> Status r2 = StatusOK ->
      exists l1 l2,
        Payload r1 = LoginJSON l1 /\ Payload r2 = LoginJSON l2 /\
        LoginResponse_APIToken l1 = LoginResponse_APIToken l2 /\
        len (LoginResponse_APIToken l1) = 43).
Proof.
  split; [|split].
  - intros secret. apply GenerateAPIToken_len.
  - reflexivity.
  - intros req1 req2 w1 w2 r1 r2 w1' w2' P1 P2 E1 E2 S1 S2.
    destruct (Login_api_token _ _ _ _ E1 S1) as (l1 & L1 & T1).
    destruct (Login_api_token _ _ _ _ E2 S2) as (l2 & L2 & T2).
    exists l1, l2. repeat split; auto.
    + rewrite T1, T2, P1, P2. reflexivity.
    + rewrite T1. apply GenerateAPIToken_len.
Qed.

Lemma api_credential_is_function_of_password_witness :
  let w1 := sample_world (sample_db [admin_user ""] [] []) 1000 [] in
  let w2 := set_entropy [[x01]]
              (snd (handlers.Login (vendor := sample_vendor) (Some login_admin) w1)) in
  exists l1 l2,
    Payload (fst (handlers.Login (vendor := sample_vendor) (Some login_admin) w1)) = LoginJSON l1 /\
    Payload (fst (handlers.Login (vendor := sample_vendor) (Some login_admin) w2)) = LoginJSON l2 /\
    LoginResponse_APIToken l1 = LoginResponse_APIToken l2 /\
    len (LoginResponse_APIToken l1) = 43.
Proof.
  intros w1 w2.
  apply (proj2 (proj2 (api_credential_is_function_of_password (vendor := sample_vendor) "changeme123"))
           login_admin login_admin w1 w2 _ _
           (snd (handlers.Login (vendor := sample_vendor) (Some login_admin) w1))
           (snd (handlers.Login (vendor := sample_vendor) (Some login_admin) w2))).
  - reflexivity.
  - reflexivity.
  - apply surjective_pairing.
  - apply surjective_pairing.
  - vm_compute. reflexivity.
  - vm_compute. reflexivity.
Defined.

(** ** Address allocation (C2) *)

Lemma append_inj_l (s a b : string) : s +:+ a = s +:+ b -> a = b.
Proof. induction s as [|c s IH]; cbn; intros E; [exact E | injection E as E; auto]. Qed.

Lemma itoa_inj (a b : Z) : itoa a = itoa b -> a = b.
Proof.
  unfold itoa. intros E.
  assert (N : forall z, Z.to_int z <> Decimal.Pos Decimal.Nil /\
                        Z.to_int z <> Decimal.Neg Decimal.Nil).
  { intros [|p|p]; cbn; split; try discriminate; intros [= E'];
      exact (DecimalPos.Unsigned.to_uint_nonnil p E'). }
  apply DecimalZ.to_int_inj.
  assert (S : Some (Z.to_int a) = Some (Z.to_int b)).
  { rewrite <- (DecimalString.NilZero.isi (Z.to_int a)) by apply N.
    rewrite <- (DecimalString.NilZero.isi (Z.to_int b)) by apply N.
    rewrite E. reflexivity. }
  injection S as S. exact S.
Qed.

Lemma Sprintf_ipv4_inj (o1 o2 o3 i j : Z) :
  Sprintf_ipv4 o1 o2 o3 i = Sprintf_ipv4 o1 o2 o3 j -> i = j.
Proof.
  unfold Sprintf_ipv4. intros E.
  repeat (apply append_inj_l in E). apply itoa_inj. exact E.
Qed.

Lemma first_unused_spec (n : nat) (i o1 o2 o3 : Z) (usedIPs : gset string) :
  match db.first_unused n i o1 o2 o3 usedIPs with
  | Some ip =>
      exists k, i <= k < i + Z.of_nat n /\ ip = Sprintf_ipv4 o1 o2 o3 k /\ (ip ∉ usedIPs) /\
                forall j, i <= j < k -> Sprintf_ipv4 o1 o2 o3 j ∈ usedIPs
  | None => forall j, i <= j < i + Z.of_nat n -> Sprintf_ipv4 o1 o2 o3 j ∈ usedIPs
  end.
Proof.
  revert i. induction n as [|n IH]; intros i; cbn [db.first_unused].
  - intros j Hj. lia.
  - destruct (decide (Sprintf_ipv4 o1 o2 o3 i ∈ usedIPs)) as [Hin|Hout].
    + specialize (IH (i + 1)). destruct (db.first_unused n (i + 1) o1 o2 o3 usedIPs) as [ip|].
      * destruct IH as (k & Hk & -> & Hfree & Hlow).
        exists k. split; [lia|]. split; [reflexivity|]. split; [exact Hfree|].
        intros j Hj. destruct (decide (j = i)) as [->|Hne]; [exact Hin | apply Hlow; lia].
      * intros j Hj. destruct (decide (j = i)) as [->|Hne]; [exact Hin | apply IH; lia].
    + exists i. split; [lia|]. split; [reflexivity|]. split; [exact Hout|].
      intros j Hj. lia.
Qed.

#[local] Arguments db.first_unused : simpl never.

(** C2.  Allocation computes the base from the subnet and answers with the
    address of the lowest host in 2..254 that no peer row holds: the host
    is never 1, the address is that of no existing peer, and every lower
    host from 2 on is taken.  It answers with the exhaustion error exactly
    when the hosts 2..254 are all taken.  The only other outcome is the
    failure of the query that reads the assigned addresses. *)
Theorem GetNextAvailableIP_lowest_unused (subnet : string) (w : World) :
  let '(o1, o2, o3, _) := Sscanf_ipv4 (db.baseIP subnet) in
  let addr := Sprintf_ipv4 o1 o2 o3 in
  let assigned ip := ip ∈ map Peer_AssignedIP (peers (store w)) in
  match fst (db.GetNextAvailableIP subnet w) with
  | Ok ip =>
      faulty w = false /\
      exists i, 2 <= i <= 254 /\ ip = addr i /\ (forall j, addr j = ip -> j = i) /\
                ~ assigned ip /\ forall j, 2 <= j < i -> assigned (addr j)
  | Err e =>
      if faulty w then e = ErrDriver
      else e = db.ErrNoAvailableIP /\ forall j, 2 <= j <= 254 -> assigned (addr j)
  end
  /\ (faulty w = false ->
      (fst (db.GetNextAvailableIP subnet w) = Err db.ErrNoAvailableIP
       <-> forall j, 2 <= j <= 254 -> assigned (addr j))).
Proof.
  unfold db.GetNextAvailableIP.
  destruct (Sscanf_ipv4 (db.baseIP subnet)) as [[[o1 o2] o3] o4].
  unfold_m. destruct (faulty w) eqn:F; cbn.
  { split; [reflexivity | discriminate]. }
  pose proof (first_unused_spec 253 2 o1 o2 o3
                (list_to_set (map Peer_AssignedIP (peers (store w))))) as S.
  destruct (db.first_unused 253 2 o1 o2 o3 _) as [ip|]; cbn.
  - destruct S as (k & Hk & -> & Hfree & Hlow).
    rewrite elem_of_list_to_set in Hfree.
    split.
    + split; [reflexivity|]. exists k.
      split; [lia|]. split; [reflexivity|]. split; [|split; [exact Hfree|]].
      * intros j Hj. apply (Sprintf_ipv4_inj _ _ _ _ _ Hj).
      * intros j Hj. specialize (Hlow j Hj). rewrite elem_of_list_to_set in Hlow. exact Hlow.
    + intros _. split; [discriminate|]. intros Hall. exfalso. apply Hfree, Hall. lia.
  - assert (A : forall j, 2 <= j <= 254 ->
                  Sprintf_ipv4 o1 o2 o3 j ∈ map Peer_AssignedIP (peers (store w))).
    { intros j Hj. apply (proj1 (elem_of_list_to_set (C := gset string) _ _)). apply S. lia. }
    split; [split; [reflexivity | exact A] | intros _; split; auto].
Qed.

Lemma GetNextAvailableIP_lowest_unused_witness :
  let w := sample_world (sample_db [] (sample_peers 253 2) []) 0 [] in
  faulty w = false /\
  (fst (db.GetNextAvailableIP "10.8.0.0/24" w) = Err db.ErrNoAvailableIP
   <-> forall j, 2 <= j <= 254 ->
         Sprintf_ipv4 10 8 0 j ∈ map Peer_AssignedIP (peers (store w))).
Proof.
  intros w. split; [reflexivity|].
  pose proof (GetNextAvailableIP_lowest_unused "10.8.0.0/24" w) as T.
  assert (E : Sscanf_ipv4 (db.baseIP "10.8.0.0/24") = (10, 8, 0, 0)) by (vm_compute; reflexivity).
  rewrite E in T. destruct T as [_ T].
  exact (T eq_refl).
Defined.

Example allocation_fills_the_lowest_gap :
  let ps := sample_peers 2 2 ++ sample_peers 3 5 in
  fst (db.GetNextAvailableIP "10.8.0.0/24" (sample_world (sample_db [] ps []) 0 []))
  = Ok "10.8.0.4".
Proof. vm_compute. reflexivity. Qed.

Example allocation_starts_at_host_2 :
  fst (db.GetNextAvailableIP "10.8.0.0/24" (sample_world (sample_db [] [] []) 0 []))
  = Ok "10.8.0.2".
Proof. vm_compute. reflexivity. Qed.

Example allocation_of_the_last_host :
  fst (db.GetNextAvailableIP "10.8.0.0/24"
         (sample_world (sample_db [] (sample_peers 252 2) []) 0 []))
  = Ok "10.8.0.254".
Proof. vm_compute. reflexivity. Qed.

Example allocation_in_a_full_subnet :
  fst (db.GetNextAvailableIP "10.8.0.0/24"
         (sample_world (sample_db [] (sample_peers 253 2) []) 0 []))
  = Err db.ErrNoAvailableIP.
Proof. vm_compute. reflexivity. Qed.

(** ** The access gate (C5, C10) *)

Lemma events_since_app (w w' : World) (evs : list Event) :
  log w' = log w ++ evs -> events_since w w' = evs.
Proof. unfold events_since. intros ->. apply drop_app_length. Qed.

Lemma filter_cons_inv {A} (P : A -> Prop) `{!forall x, Decision (P x)} (l r : list A) (x : A) :
  filter P l = x :: r -> x ∈ l /\ P x.
Proof.
  intros E. assert (I : x ∈ filter P l) by (rewrite E; left).
  apply list_elem_of_filter in I. tauto.
Qed.

Lemma filter_nil_inv {A} (P : A -> Prop) `{!forall x, Decision (P x)} (l : list A) :
  filter P l = [] -> forall x, x ∈ l -> ~ P x.
Proof. intros E x I HP. exact (filter_nil_not_elem_of P l x E HP I). Qed.

(** C5.  For a request that carries a bearer value, the gate validates the
    value as a signed access token first.  The lookup of the API credential
    follows if and only if that validation failed and the value has exactly
    43 characters.  The request is refused exactly when the validation
    failed and the lookup was not made or failed too; it then gets the one
    response "Invalid or expired token", whichever of the two failed. *)
Theorem AuthMiddleware_order_of_attempts {vendor : Vendor}
    (authHeader scheme tokenString : string) (w : World) :
  middleware.SplitN2 authHeader = [scheme; tokenString] ->
  middleware.ToLower scheme = "bearer" ->
  tokenString <> "" ->
  let '(out, w') := middleware.AuthMiddleware authHeader w in
  exists rest,
    events_since w w' = EJwtParse tokenString (jwt_valid tokenString w) :: rest /\
    (rest = [] \/ exists ok, rest = [ESql (SelectUserByAPIToken tokenString) ok]) /\
    ((exists ok, rest = [ESql (SelectUserByAPIToken tokenString) ok])
     <-> jwt_valid tokenString w = false /\ len tokenString = 43) /\
    (out = middleware.Abort middleware.invalid_or_expired
     <-> jwt_valid tokenString w = false /\
         (len tokenString <> 43 \/
          exists e, fst (db.GetUserByAPIToken tokenString w) = Err e)) /\
    match out with
    | middleware.Next _ _ => True
    | middleware.Abort r => r = middleware.invalid_or_expired
    end.
Proof.
  intros Hs Hl Ht.
  assert (Hh : authHeader <> "").
  { intros ->. cbn in Hs. discriminate. }
  unfold middleware.AuthMiddleware, jwt_valid.
  apply String.eqb_neq in Hh, Ht. rewrite Hh, Hs, Hl, Ht, String.eqb_refl. cbn [negb].
  unfold auth.ValidateAccessToken, db.GetUserByAPIToken. rewrite Ht. unfold_m.
  destruct (jwt_ParseWithClaims tokenString _ _) as [c|[|]] eqn:J; cbv beta iota.
  - exists []. split; [apply events_since_app; reflexivity|].
    split; [left; reflexivity|].
    split; [split; [intros [ok [=]] | intros [[=] _]]|].
    split; [split; [intros [=] | intros [[=] _]] | exact I].
  - destruct (len tokenString =? 43) eqn:L43.
    + apply Z.eqb_eq in L43.
      destruct (faulty _) eqn:F; [|destruct (filter _ _) as [|u us] eqn:Fu]; cbv beta iota;
        (eexists; split; [apply events_since_app; cbn; rewrite <- app_assoc; reflexivity|]);
        (split; [right; eexists; reflexivity|]);
        (split; [split; [intros _; split; [reflexivity | exact L43] | intros _; eexists; reflexivity]|]).
      * split; [|reflexivity]. split; [intros _|reflexivity].
        split; [reflexivity|]. right. eexists. reflexivity.
      * split; [|reflexivity]. split; [intros _|reflexivity].
        split; [reflexivity|]. right. eexists. reflexivity.
      * split; [|exact I]. split; [intros [=]|].
        intros [_ [N|[e E]]]; [contradiction|].
        discriminate E.
    + apply Z.eqb_neq in L43. exists [].
      split; [apply events_since_app; reflexivity|].
      split; [left; reflexivity|].
      split; [split; [intros [ok [=]] | intros [_ E]; contradiction]|].
      split; [|reflexivity]. split; [intros _; split; [reflexivity | left; exact L43] | reflexivity].
  - destruct (len tokenString =? 43) eqn:L43.
    + apply Z.eqb_eq in L43.
      destruct (faulty _) eqn:F; [|destruct (filter _ _) as [|u us] eqn:Fu]; cbv beta iota;
        (eexists; split; [apply events_since_app; cbn; rewrite <- app_assoc; reflexivity|]);
        (split; [right; eexists; reflexivity|]);
        (split; [split; [intros _; split; [reflexivity | exact L43] | intros _; eexists; reflexivity]|]).
      * split; [|reflexivity]. split; [intros _|reflexivity].
        split; [reflexivity|]. right. eexists. reflexivity.
      * split; [|reflexivity]. split; [intros _|reflexivity].
        split; [reflexivity|]. right. eexists. reflexivity.
      * split; [|exact I]. split; [intros [=]|].
        intros [_ [N|[e E]]]; [contradiction|].
        discriminate E.
    + apply Z.eqb_neq in L43. exists [].
      split; [apply events_since_app; reflexivity|].
      split; [left; reflexivity|].
      split; [split; [intros [ok [=]] | intros [_ E]; contradiction]|].
      split; [|reflexivity]. split; [intros _; split; [reflexivity | left; exact L43] | reflexivity].
Qed.

Lemma AuthMiddleware_order_of_attempts_witness :
  let tok := "sWWO3SCiywjRhhbjpiDvlfX-VMQeGNPrnmYaUUMRi3U" in
  let w := sample_world (sample_db [admin_user tok] [] []) 0 [] in
  let '(out, w') := middleware.AuthMiddleware (vendor := sample_vendor) ("Bearer " +:+ tok) w in
  exists rest,
    events_since w w' = EJwtParse tok (jwt_valid (vendor := sample_vendor) tok w) :: rest /\
    (rest = [] \/ exists ok, rest = [ESql (SelectUserByAPIToken tok) ok]) /\
    ((exists ok, rest = [ESql (SelectUserByAPIToken tok) ok])
     <-> jwt_valid (vendor := sample_vendor) tok w = false /\ len tok = 43) /\
    (out = middleware.Abort middleware.invalid_or_expired
     <-> jwt_valid (vendor := sample_vendor) tok w = false /\
         (len tok <> 43 \/ exists e, fst (db.GetUserByAPIToken tok w) = Err e)) /\
    match out with
    | middleware.Next _ _ => True
    | middleware.Abort r => r = middleware.invalid_or_expired
    end.
Proof.
  intros tok w.
  apply (AuthMiddleware_order_of_attempts (vendor := sample_vendor)
           ("Bearer " +:+ tok) "Bearer" tok w).
  - reflexivity.
  - reflexivity.
  - discriminate.
Defined.

Example gate_admits_the_api_credential :
  let tok := "sWWO3SCiywjRhhbjpiDvlfX-VMQeGNPrnmYaUUMRi3U" in
  let w := sample_world (sample_db [admin_user tok] [] []) 0 [] in
  let '(out, w') := middleware.AuthMiddleware (vendor := sample_vendor) ("Bearer " +:+ tok) w in
  out = middleware.Next 1 "admin" /\
  log w' = [EJwtParse tok false; ESql (SelectUserByAPIToken tok) true].
Proof. vm_compute. split; reflexivity. Qed.

Example gate_never_looks_up_a_short_value :
  let w := sample_world (sample_db [admin_user "short"] [] []) 0 [] in
  let '(out, w') := middleware.AuthMiddleware (vendor := sample_vendor) "bearer short" w in
  out = middleware.Abort middleware.invalid_or_expired /\ log w' = [EJwtParse "short" false].
Proof. vm_compute. split; reflexivity. Qed.

(** C10.  The lookup of an API credential never matches an empty stored
    credential.  It fails without a query for the empty value; a user it
    returns is a stored row whose credential is the presented value and is
    not empty; it fails when every row that holds the presented value holds
    the empty one.  At the gate, a request is admitted either because its
    bearer value is a valid access token or through a user row with a
    non-empty credential equal to the bearer value: no bearer value
    authenticates through a row whose credential was never stored. *)
Theorem api_lookup_never_matches_empty_credential {vendor : Vendor} (w : World) :
  (forall token,
      (token = "" -> db.GetUserByAPIToken token w = (Err ErrNoRows, w)) /\
      (forall u, fst (db.GetUserByAPIToken token w) = Ok u ->
                 u ∈ users (store w) /\ User_APIToken u = token /\ User_APIToken u <> "") /\
      ((forall u, u ∈ users (store w) -> User_APIToken u = token -> User_APIToken u = "") ->
       exists e, fst (db.GetUserByAPIToken token w) = Err e)) /\
  (forall authHeader uid name w',
      middleware.AuthMiddleware authHeader w = (middleware.Next uid name, w') ->
      exists scheme tokenString,
        middleware.SplitN2 authHeader = [scheme; tokenString] /\
        ((exists claims,
             jwt_ParseWithClaims tokenString (AccessSecret (JWT (cfg w))) (clock w) = inl claims /\
             uid = Claims_UserID claims /\ name = Claims_Username claims)
         \/ (exists u, u ∈ users (store w) /\ User_ID u = uid /\ User_Username u = name /\
                       User_APIToken u = tokenString /\ User_APIToken u <> "" /\
                       len tokenString = 43))).
Proof.
  split.
  - intros token. unfold db.GetUserByAPIToken. split; [|split].
    + intros ->. reflexivity.
    + intros u. destruct (String.eqb token "") eqn:E; [discriminate|].
      unfold_m. destruct (faulty w); [discriminate|].
      destruct (filter _ _) as [|u' us] eqn:F; [discriminate|].
      cbn. intros [= ->]. apply filter_cons_inv in F. tauto.
    + intros A. destruct (String.eqb token "") eqn:E; [eexists; reflexivity|].
      unfold_m. destruct (faulty w); [eexists; reflexivity|].
      destruct (filter _ _) as [|u' us] eqn:F; [eexists; reflexivity|].
      apply filter_cons_inv in F. destruct F as (I & T & N).
      exfalso. apply N, A; assumption.
  - intros authHeader uid name w' E.
    unfold middleware.AuthMiddleware, middleware.abort, auth.ValidateAccessToken,
      db.GetUserByAPIToken in E.
    unfold_m. run.
    all: do 2 eexists; (split; [reflexivity|]).
    all: try (left; eexists; repeat split; eassumption).
    all: right; match goal with F : filter _ _ = _ :: _ |- _ =>
                  apply filter_cons_inv in F; destruct F as (? & ? & ?) end.
    all: eexists; repeat split; try eassumption; try reflexivity; lia.
Qed.

(** ** The provisioning engine (C1, C3, C4) *)

(** ** What one boundary step does *)

Lemma QueryRow_inv {A} (q : Sql) (rows : Database -> list A) (w w1 : World) (r : result A) :
  QueryRow q rows w = (r, w1) ->
  w1 = stepped (ESql q (negb (faulty w))) w /\
  match r with
  | Ok a => faulty w = false /\ head (rows (store w)) = Some a
  | Err e => (faulty w = true /\ e = ErrDriver) \/
             (faulty w = false /\ rows (store w) = [] /\ e = ErrNoRows)
  end.
Proof.
  unfold QueryRow. destruct (faulty w) eqn:F.
  - intros [= <- <-]. auto.
  - destruct (rows (store w)) as [|a l] eqn:R; intros [= <- <-]; auto.
Qed.

Lemma Exec_inv (q : Sql) (run : Database -> result (Database * ExecResult))
    (w w1 : World) (r : result ExecResult) :
  Exec q run w = (r, w1) ->
  match r with
  | Ok res => faulty w = false /\
              exists d, run (store w) = Ok (d, res) /\ w1 = stepped (ESql q true) (set_store d w)
  | Err e => w1 = stepped (ESql q false) w /\ (faulty w = true \/ run (store w) = Err e)
  end.
Proof.
  unfold Exec. destruct (faulty w) eqn:F.
  - intros [= <- <-]. auto.
  - destruct (run (store w)) as [[d res]|e] eqn:R; intros [= <- <-]; eauto.
Qed.

Lemma Run_inv (c : Cmd) (w w1 : World) (ok : bool) :
  Run c w = (ok, w1) ->
  ok = negb (faulty w) /\
  w1 = stepped (ERun (argv c) ok) (if ok then tool c w else w).
Proof. unfold Run. destruct (faulty w); intros [= <- <-]; auto. Qed.

Lemma rand_Read_inv (n : nat) (w w1 : World) (r : result bytes) :
  rand_Read n w = (r, w1) ->
  store w1 = store w /\ live w1 = live w /\ saved w1 = saved w /\ cfg w1 = cfg w /\
  clock w1 = clock w /\
  log w1 = log w ++ [ERand n (is_ok r)].
Proof. unfold rand_Read. destruct (faulty w); intros [= <- <-]; cbn; auto 10. Qed.

(** ** What the live-interface operations do *)

Lemma RemovePeer_inv (publicKey : string) (w w1 : World) (e : option error) :
  wgmanager.RemovePeer publicKey w = (e, w1) ->
  let i := Interface (WireGuard (cfg w)) in
  store w1 = store w /\ cfg w1 = cfg w /\ clock w1 = clock w /\
  exists evs, log w1 = log w ++ evs /\ all_runs evs /\
    match e with
    | None =>
        evs = [ERun (argv (WgRemovePeer i publicKey)) true; ERun (argv (WgQuickSave i)) true] /\
        live w1 = delete publicKey (live w) /\ saved w1 = live w1
    | Some _ => True
    end.
Proof.
  unfold wgmanager.RemovePeer, wgmanager.SaveConfig, wgmanager.iface. unfold_m.
  intros E. run.
  all: repeat split; auto.
  all: eexists; split;
    [rewrite <- ?app_assoc; cbn [app]; try reflexivity; symmetry; apply app_nil_r|].
  all: split; [repeat constructor|].
  all: try exact I; repeat split; reflexivity.
Qed.

Lemma AddPeer_inv (publicKey assignedIP : string) (w w1 : World) (e : option error) :
  wgmanager.AddPeer publicKey assignedIP w = (e, w1) ->
  let i := Interface (WireGuard (cfg w)) in
  store w1 = store w /\ cfg w1 = cfg w /\ clock w1 = clock w /\
  exists evs, log w1 = log w ++ evs /\ all_runs evs /\
    match e with
    | None =>
        evs = [ERun (argv (WgSetPeer i publicKey (assignedIP +:+ "/32"))) true;
               ERun (argv (WgQuickSave i)) true] /\
        live w1 = <[publicKey := assignedIP +:+ "/32"]> (live w) /\ saved w1 = live w1
    | Some _ => True
    end.
Proof.
  unfold wgmanager.AddPeer, wgmanager.SaveConfig, wgmanager.iface. unfold_m.
  intros E. run.
  all: repeat split; auto.
  all: eexists; split;
    [rewrite <- ?app_assoc; cbn [app]; try reflexivity; symmetry; apply app_nil_r|].
  all: split; [repeat constructor|].
  all: try exact I; repeat split; reflexivity.
Qed.

Lemma filter_none {A} (P : A -> Prop) `{!forall x, Decision (P x)} (l : list A) :
  (forall x, x ∈ l -> ~ P x) -> filter P l = [].
Proof.
  induction l as [|a l IH]; intros N; [reflexivity|].
  rewrite filter_cons. destruct (decide (P a)) as [Pa|_].
  - exfalso. apply (N a); [left | exact Pa].
  - apply IH. intros x I. apply N. right. exact I.
Qed.

Lemma no_runs_filter (evs : list Event) :
  no_runs evs -> filter (fun e => is_run e = true) evs = [].
Proof.
  intros N. apply filter_none. intros x I R.
  unfold no_runs in N. rewrite Forall_forall in N. specialize (N x I). congruence.
Qed.

(** C3.  For a delete request keyed by an address: the [DELETE] of the
    registry row is issued only after the lookup found the row and the live
    removal and the saving of the interface both succeeded, in this order,
    and the registry changes only through a [DELETE] that ran; when the live
    removal fails the handler answers 500 and stops there, with the registry
    as it was; and when no row holds the address the answer is 404 "Peer not
    found", no subprocess was started and the registry is as it was. *)
Theorem DeletePeer_removes_live_peer_first (ip : string) (w : World) :
  wgmanager.ValidateIP ip = true ->
  let '(resp, w') := handlers.DeletePeer ip w in
  let iface := Interface (WireGuard (cfg w)) in
  (forall ok, ESql (DeletePeerByIP ip) ok ∈ events_since w w' ->
     exists peer,
       persisted ip w peer /\
       events_since w w' =
         [ESql (SelectPeerByIP ip) true;
          ERun (argv (WgRemovePeer iface (Peer_PublicKey peer))) true;
          ERun (argv (WgQuickSave iface)) true;
          ESql (DeletePeerByIP ip) ok]) /\
  (peers (store w') <> peers (store w) ->
     ESql (DeletePeerByIP ip) true ∈ events_since w w') /\
  (forall peer w0 err w1,
     db.GetPeerByIP ip w = (Ok peer, w0) ->
     wgmanager.RemovePeer (Peer_PublicKey peer) w0 = (Some err, w1) ->
     resp = JSON StatusInternalServerError
              (ErrorResponse "Failed to remove peer from WireGuard" (Some err)) /\
     w' = w1 /\ store w' = store w) /\
  ((forall p, p ∈ peers (store w) -> Peer_AssignedIP p <> ip) ->
   resp = JSON StatusNotFound (ErrorResponse "Peer not found" None) /\
   filter (fun e => is_run e = true) (events_since w w') = [] /\
   store w' = store w).
Proof.
  intros V. unfold handlers.DeletePeer. rewrite V. cbn [negb].
  unfold bind at 1.
  destruct (db.GetPeerByIP ip w) as [r w0] eqn:G.
  pose proof G as G'. unfold db.GetPeerByIP in G'. apply QueryRow_inv in G' as [W0 G'].
  destruct r as [peer|e0].
  - destruct G' as [F P].
    unfold bind at 1.
    destruct (wgmanager.RemovePeer (Peer_PublicKey peer) w0) as [e w1] eqn:R.
    pose proof (RemovePeer_inv _ _ _ _ R) as (S1 & C1 & K1 & evs & L1 & A1 & M1).
    assert (L0 : log w0 = log w ++ [ESql (SelectPeerByIP ip) true]).
    { rewrite W0, F. reflexivity. }
    assert (S0 : store w0 = store w) by (rewrite W0; reflexivity).
    assert (C0 : cfg w0 = cfg w) by (rewrite W0; reflexivity).
    destruct e as [err|].
    + unfold ret. cbv beta iota.
      assert (Ev : events_since w w1 = ESql (SelectPeerByIP ip) true :: evs).
      { apply events_since_app. rewrite L1, L0, <- app_assoc. reflexivity. }
      assert (NoDel : forall ok, ESql (DeletePeerByIP ip) ok ∉ events_since w w1).
      { intros ok I. rewrite Ev in I. apply elem_of_cons in I as [I|I]; [discriminate|].
        unfold all_runs in A1. rewrite Forall_forall in A1. specialize (A1 _ I). discriminate. }
      split; [intros ok I; destruct (NoDel ok I)|].
      split; [intros N; exfalso; apply N; congruence|].
      split.
      * intros peer' w0' err' w1' G2 R2. injection G2 as <- <-.
        rewrite R in R2. injection R2 as <- <-. repeat split. congruence.
      * intros N. exfalso. apply head_Some_elem_of in P.
        apply list_elem_of_filter in P as [Q I]. exact (N _ I Q).
    + destruct M1 as (-> & Lv & Sv).
      unfold bind at 1.
      destruct (db.DeletePeer ip w1) as [e2 w2] eqn:D.
      unfold db.DeletePeer, bind in D.
      destruct (Exec (DeletePeerByIP ip) (db.delete_peers ip) w1) as [r2 w2'] eqn:X.
      apply Exec_inv in X. unfold ret in D. injection D as <- <-.
      assert (Ev : exists ok, events_since w w2' =
                [ESql (SelectPeerByIP ip) true;
                 ERun (argv (WgRemovePeer (Interface (WireGuard (cfg w))) (Peer_PublicKey peer))) true;
                 ERun (argv (WgQuickSave (Interface (WireGuard (cfg w))))) true;
                 ESql (DeletePeerByIP ip) ok] /\
                (ok = false -> store w2' = store w)).
      { destruct r2 as [res|e2].
        - destruct X as (F1 & d & Xd & ->). exists true. split; [|discriminate].
          apply events_since_app. cbn. rewrite L1, L0, <- !app_assoc, C0. reflexivity.
        - destruct X as (-> & _). exists false. split; [|intros _; cbn; congruence].
          apply events_since_app. cbn. rewrite L1, L0, <- !app_assoc, C0. reflexivity. }
      destruct Ev as (ok & Ev & St).
      assert (Hd : forall ok', ESql (DeletePeerByIP ip) ok' ∈ events_since w w2' -> ok' = ok).
      { intros ok' I. rewrite Ev in I.
        repeat (apply elem_of_cons in I as [I|I]; try discriminate).
        - congruence.
        - inversion I. }
      assert (goal1 : forall ok', ESql (DeletePeerByIP ip) ok' ∈ events_since w w2' ->
                exists peer0, persisted ip w peer0 /\
                  events_since w w2' =
                    [ESql (SelectPeerByIP ip) true;
                     ERun (argv (WgRemovePeer (Interface (WireGuard (cfg w))) (Peer_PublicKey peer0))) true;
                     ERun (argv (WgQuickSave (Interface (WireGuard (cfg w))))) true;
                     ESql (DeletePeerByIP ip) ok']).
      { intros ok' I. rewrite (Hd ok' I). exists peer. split; [exact P | exact Ev]. }
      assert (goal2 : peers (store w2') <> peers (store w) ->
                ESql (DeletePeerByIP ip) true ∈ events_since w w2').
      { intros N. destruct ok.
        - rewrite Ev. set_solver.
        - exfalso. apply N. rewrite St; reflexivity. }
      assert (goal3 : forall peer0 w0' err w1',
                (Ok peer, w0) = (Ok peer0, w0') ->
                wgmanager.RemovePeer (Peer_PublicKey peer0) w0' = (Some err, w1') -> False).
      { intros peer' w0' err' w1' G2 R2. injection G2 as <- <-.
        rewrite R in R2. discriminate. }
      assert (goal4 : (forall p, p ∈ peers (store w) -> Peer_AssignedIP p <> ip) -> False).
      { intros N. apply head_Some_elem_of in P.
        apply list_elem_of_filter in P as [Q I]. exact (N _ I Q). }
      destruct (match r2 with Ok res => _ | Err e => _ end); unfold ret; cbv beta iota;
        (split; [exact goal1|]); (split; [exact goal2|]);
        (split; [intros ? ? ? ? G2 R2; destruct (goal3 _ _ _ _ G2 R2)
                | intros N; destruct (goal4 N)]).
  - unfold ret. cbv beta iota.
    assert (Ev : events_since w w0 = [ESql (SelectPeerByIP ip) (negb (faulty w))]).
    { apply events_since_app. rewrite W0. reflexivity. }
    split.
    { intros ok I. rewrite Ev in I. apply elem_of_cons in I as [I|I]; [discriminate|inversion I]. }
    split.
    { intros N. exfalso. apply N. rewrite W0. reflexivity. }
    split.
    { intros peer w0' err w1 [=]. }
    intros _. rewrite Ev. repeat split. rewrite W0. reflexivity.
Qed.

Lemma db_UpdatePeer_inv (ip : string) (name : option string) (enabled : option bool)
    (w w1 : World) (r : result Peer) :
  db.UpdatePeer ip name enabled w = (r, w1) ->
  exists evs, log w1 = log w ++ evs /\ no_runs evs.
Proof.
  unfold db.UpdatePeer, db.GetPeerByIP. unfold_m. intros E. run.
  all: eexists; split;
    [rewrite <- ?app_assoc; cbn [app]; try reflexivity; symmetry; apply app_nil_r|].
  all: repeat constructor.
Qed.

(** C4.  An update whose [enabled] flag equals the flag of the stored
    peer starts no subprocess: no live add, no live remove, no save.  A
    subprocess is started by an update only when the address resolves to a
    stored peer and the request carries a flag that differs from the stored
    one. *)
Theorem UpdatePeer_toggle_is_idempotent (ip : string) (req : UpdatePeerRequest) (w : World) :
  let '(resp, w') := handlers.UpdatePeer ip (Some req) w in
  let runs := filter (fun e => is_run e = true) (events_since w w') in
  (forall peer,
      persisted ip w peer ->
      UpdatePeerRequest_Enabled req = Some (Peer_Enabled peer) ->
      runs = []) /\
  (runs <> [] ->
   exists peer enabled,
     persisted ip w peer /\ UpdatePeerRequest_Enabled req = Some enabled /\
     enabled <> Peer_Enabled peer).
Proof.
  destruct (handlers.UpdatePeer ip (Some req) w) as [resp w'] eqn:E.
  cbv zeta.
  assert (Only : filter (fun e => is_run e = true) (events_since w w') <> [] ->
                 exists peer enabled,
                   persisted ip w peer /\ UpdatePeerRequest_Enabled req = Some enabled /\
                   enabled <> Peer_Enabled peer).
  { revert E. unfold handlers.UpdatePeer.
    destruct (wgmanager.ValidateIP ip); cbn [negb].
    2:{ intros [= <- <-] N. exfalso. apply N. unfold events_since. rewrite drop_all. reflexivity. }
    unfold bind at 1.
    destruct (db.GetPeerByIP ip w) as [r w0] eqn:G.
    unfold db.GetPeerByIP in G. apply QueryRow_inv in G as [W0 G].
    assert (L0 : log w0 = log w ++ [ESql (SelectPeerByIP ip) (negb (faulty w))]).
    { rewrite W0. reflexivity. }
    destruct r as [peer|e0].
    2:{ intros [= <- <-] N. exfalso. apply N.
        rewrite (events_since_app _ _ _ L0). reflexivity. }
    destruct G as [F P].
    assert (Quiet : forall resp0 w0',
               (u <- db.UpdatePeer ip (UpdatePeerRequest_Name req) (UpdatePeerRequest_Enabled req) ;;
                match u with
                | Err _ => ret (JSON StatusInternalServerError
                                  (ErrorResponse "Failed to update peer" None))
                | Ok updatedPeer =>
                    ret (JSON StatusOK (PeerJSON (handlers.PeerResponse_of updatedPeer)))
                end) w0 = (resp0, w0') ->
               filter (fun e => is_run e = true) (events_since w w0') = []).
    { intros resp0 w0'. unfold bind.
      destruct (db.UpdatePeer ip _ _ w0) as [u w2] eqn:U.
      apply db_UpdatePeer_inv in U as (evs & L2 & N2).
      intros E2. assert (w0' = w2) as -> by (destruct u; injection E2; auto).
      rewrite (events_since_app w w2 (ESql (SelectPeerByIP ip) (negb (faulty w)) :: evs)).
      - apply no_runs_filter. constructor; [reflexivity | exact N2].
      - rewrite L2, L0, <- app_assoc. reflexivity. }
    destruct (UpdatePeerRequest_Enabled req) as [enabled|] eqn:En.
    - destruct enabled, (Peer_Enabled peer) eqn:Pe; cbn [andb negb].
      + unfold bind at 1, ret at 1. cbn [option_map]. intros E N.
        destruct (N (Quiet _ _ E)).
      + intros _ _. exists peer, true. rewrite Pe. repeat split; auto.
      + intros _ _. exists peer, false. rewrite Pe. repeat split; auto.
      + unfold bind at 1, ret at 1. cbn [option_map]. intros E N.
        destruct (N (Quiet _ _ E)).
    - unfold bind at 1, ret at 1. intros E N. destruct (N (Quiet _ _ E)). }
  split; [|exact Only].
  intros peer P En.
  destruct (filter _ (events_since w w')) as [|ev evs] eqn:R; [reflexivity|].
  destruct Only as (peer' & enabled & P' & En' & Ne); [discriminate|].
  unfold persisted in P, P'. rewrite P in P'. injection P' as <-.
  rewrite En in En'. injection En' as <-. contradiction.
Qed.

(** ** Creation *)

Lemma next_rowid_fresh (seq : Z) (ids : list Z) (i : Z) :
  i ∈ ids -> i < db.next_rowid seq ids.
Proof.
  unfold db.next_rowid. induction ids as [|a ids IH]; intros I.
  - inversion I.
  - cbn [foldr]. apply elem_of_cons in I as [->|I]; [lia|]. specialize (IH I). lia.
Qed.

Lemma GenerateKeyPair_inv {vendor : Vendor} (w w1 : World) (r : result (string * string)) :
  wgmanager.GenerateKeyPair w = (r, w1) ->
  store w1 = store w /\ live w1 = live w /\ cfg w1 = cfg w /\
  log w1 = log w ++ [ERand 32 (is_ok r)].
Proof.
  unfold wgmanager.GenerateKeyPair, bind.
  destruct (rand_Read 32 w) as [b w0] eqn:R. apply rand_Read_inv in R.
  destruct R as (? & ? & ? & ? & ? & L).
  destruct b; unfold ret; intros [= <- <-]; auto.
Qed.

Lemma GetNextAvailableIP_inv (subnet : string) (w w1 : World) (r : result string) :
  db.GetNextAvailableIP subnet w = (r, w1) ->
  store w1 = store w /\ live w1 = live w /\ cfg w1 = cfg w /\
  log w1 = log w ++ [ESql SelectAssignedIPs (negb (faulty w))].
Proof.
  unfold db.GetNextAvailableIP.
  destruct (Sscanf_ipv4 (db.baseIP subnet)) as [[[o1 o2] o3] o4].
  unfold bind, Query, ret. destruct (faulty w) eqn:F.
  - intros [= <- <-]. cbn. auto.
  - destruct (db.first_unused _ _ _ _ _ _); intros [= <- <-]; cbn; auto.
Qed.

Lemma db_CreatePeer_inv (p : Peer) (w w1 : World) (r : result Peer) :
  db.CreatePeer p w = (r, w1) ->
  let ins := InsertPeer (Peer_Name p) (Peer_PublicKey p) (Peer_PrivateKey p)
               (Peer_AssignedIP p) (Peer_Enabled p) in
  let row := inserted_row p (store w) in
  live w1 = live w /\ cfg w1 = cfg w /\
  ((store w1 = store w /\ log w1 = log w ++ [ESql ins false] /\ exists e, r = Err e)
   \/ (peers (store w1) = peers (store w) ++ [row] /\
       (forall q, q ∈ peers (store w) -> Peer_AssignedIP q <> Peer_AssignedIP p) /\
       ((r = Ok row /\ log w1 = log w ++ [ESql ins true; ESql (SelectPeerByID (Peer_ID row)) true])
        \/ (r = Err ErrDriver /\
            log w1 = log w ++ [ESql ins true; ESql (SelectPeerByID (Peer_ID row)) false])))).
Proof.
  unfold db.CreatePeer, bind.
  destruct (Exec _ (db.insert_peer p) w) as [x w0] eqn:X. apply Exec_inv in X.
  destruct x as [res|e].
  - destruct X as (F & d & I & ->).
    unfold db.insert_peer in I.
    destruct (existsb _ (peers (store w))) eqn:U; [discriminate|].
    injection I as <- <-. cbn [LastInsertId].
    intros G. unfold db.GetPeerByID in G. apply QueryRow_inv in G as [-> G].
    cbn. split; [reflexivity|]. split; [reflexivity|]. right.
    split; [reflexivity|]. split.
    { intros q I E.
      assert (T : existsb (fun q => String.eqb (Peer_PublicKey q) (Peer_PublicKey p)
                                    || String.eqb (Peer_AssignedIP q) (Peer_AssignedIP p))
                    (peers (store w)) = true).
      { apply existsb_exists. exists q. split; [apply list_elem_of_In; exact I|].
        rewrite E, String.eqb_refl. apply orb_true_r. }
      congruence. }
    cbn in G.
    assert (Fi : filter (fun q => Peer_ID q = db.next_rowid (peers_seq (store w))
                                               (map Peer_ID (peers (store w))))
                   (peers (store w)) = []).
    { apply filter_none. intros q I E.
      assert (Peer_ID q < db.next_rowid (peers_seq (store w)) (map Peer_ID (peers (store w)))).
      { apply next_rowid_fresh. apply list_elem_of_fmap. exists q. auto. }
      lia. }
    destruct r as [row'|e].
    + left. destruct G as [F2 H]. rewrite F2. split; [|rewrite <- app_assoc; reflexivity].
      rewrite filter_app, Fi in H. cbn in H.
      rewrite decide_True in H by reflexivity. cbn in H. injection H as <-. reflexivity.
    + right. destruct G as [[F2 ->]|(F2 & N & _)].
      * rewrite F2. split; [reflexivity | rewrite <- app_assoc; reflexivity].
      * exfalso. rewrite filter_app, Fi in N. cbn in N.
        rewrite decide_True in N by reflexivity. discriminate.
  - destruct X as (-> & _). unfold ret. intros [= <- <-]. cbn.
    split; [reflexivity|]. split; [reflexivity|]. left. eauto.
Qed.

Lemma db_DeletePeer_inv (ip : string) (w w1 : World) (e : option error) :
  db.DeletePeer ip w = (e, w1) ->
  live w1 = live w /\ cfg w1 = cfg w /\
  ((store w1 = store w /\ log w1 = log w ++ [ESql (DeletePeerByIP ip) false] /\ e <> None)
   \/ (peers (store w1) = filter (fun p => Peer_AssignedIP p <> ip) (peers (store w)) /\
       log w1 = log w ++ [ESql (DeletePeerByIP ip) true])).
Proof.
  unfold db.DeletePeer, bind, ret.
  destruct (Exec _ (db.delete_peers ip) w) as [x w0] eqn:X. apply Exec_inv in X.
  destruct x as [res|err]; intros [= <- <-].
  - destruct X as (F & d & I & ->). injection I as <- <-. cbn. auto.
  - destruct X as (-> & _). cbn. split; [reflexivity|]. split; [reflexivity|]. left.
    repeat split. discriminate.
Qed.

Lemma filter_other_ip (ip : string) (ps : list Peer) (row : Peer) :
  (forall q, q ∈ ps -> Peer_AssignedIP q <> ip) ->
  Peer_AssignedIP row = ip ->
  filter (fun p => Peer_AssignedIP p <> ip) (ps ++ [row]) = ps.
Proof.
  intros N E. rewrite filter_app. rewrite (filter_none _ [row]).
  - rewrite app_nil_r. induction ps as [|a ps IH]; [reflexivity|].
    rewrite filter_cons, decide_True by (apply N; left).
    f_equal. apply IH. intros q I. apply N. right. exact I.
  - intros x I. apply list_elem_of_singleton in I as ->. intros C. exact (C E).
Qed.

(** Creation is all or nothing, but for two ways of leaving a row behind:
    the compensating delete fails, or the insertion succeeds and reading the
    row back does not. *)
Lemma CreatePeer_outcomes {vendor : Vendor} (req : CreatePeerRequest) (w : World) :
  let '(resp, w') := handlers.CreatePeer (Some req) w in
  (Status resp = StatusCreated ->
   exists row,
     Payload resp = PeerJSON (handlers.PeerResponse_of row) /\
     peers (store w') = peers (store w) ++ [row] /\
     Peer_Name row = CreatePeerRequest_Name req /\ Peer_Enabled row = true /\
     live w' !! Peer_PublicKey row = Some (Peer_AssignedIP row +:+ "/32")) /\
  (Status resp <> StatusCreated ->
   peers (store w') = peers (store w)
   \/ (exists ip, ESql (DeletePeerByIP ip) false ∈ events_since w w')
   \/ (exists id, ESql (SelectPeerByID id) false ∈ events_since w w')).
Proof.
  unfold handlers.CreatePeer, bind, gets, ret.
  destruct (wgmanager.GenerateKeyPair w) as [k w1] eqn:K.
  apply GenerateKeyPair_inv in K as (S1 & V1 & C1 & L1).
  destruct k as [[privateKey publicKey]|e]; cbv beta iota.
  2:{ cbn. split; [discriminate|]. intros _. left. congruence. }
  destruct (db.GetNextAvailableIP _ w1) as [a w2] eqn:A.
  apply GetNextAvailableIP_inv in A as (S2 & V2 & C2 & L2).
  destruct a as [assignedIP|e]; cbv beta iota.
  2:{ cbn. split; [discriminate|]. intros _. left. congruence. }
  destruct (db.CreatePeer _ w2) as [c w3] eqn:C.
  apply db_CreatePeer_inv in C. cbn [Peer_Name Peer_PublicKey Peer_PrivateKey Peer_AssignedIP
                                       Peer_Enabled] in C.
  destruct C as (V3 & C3 & [(S3 & L3 & e & ->)|(P3 & U3 & [(-> & L3)|(-> & L3)])]);
    cbv beta iota.
  - cbn. split; [discriminate|]. intros _. left. congruence.
  - destruct (wgmanager.AddPeer publicKey assignedIP w3) as [e w4] eqn:D.
    apply AddPeer_inv in D as (S4 & C4 & K4 & evs & L4 & R4 & M4).
    destruct e as [err|]; cbv beta iota.
    + destruct (db.DeletePeer assignedIP w4) as [e5 w5] eqn:X.
      apply db_DeletePeer_inv in X as (V5 & C5 & [(S5 & L5 & _)|(P5 & L5)]);
        cbn; (split; [discriminate|]); intros _.
      * right. left. exists assignedIP.
        assert (E : exists all, log w5 = log w ++ all /\
                                ESql (DeletePeerByIP assignedIP) false ∈ all).
        { eexists. split; [rewrite L5, L4, L3, L2, L1, <- !app_assoc; reflexivity|].
          set_solver. }
        destruct E as (all & E1 & E2). rewrite (events_since_app _ _ _ E1). exact E2.
      * left. rewrite P5, S4, P3.
        rewrite filter_other_ip; [congruence | exact U3 | reflexivity].
    + destruct M4 as (-> & Lv & Sv). cbn. split; [|congruence]. intros _.
      eexists. split; [reflexivity|]. split; [rewrite S4, P3; congruence|].
      split; [reflexivity|]. split; [reflexivity|].
      cbn. rewrite Lv. apply lookup_insert_eq.
  - cbn. split; [discriminate|]. intros _. right. right.
    eexists.
    assert (E : exists all, log w3 = log w ++ all /\
                            ESql (SelectPeerByID (Peer_ID (inserted_row
                              {| Peer_ID := 0; Peer_Name := CreatePeerRequest_Name req;
                                 Peer_PublicKey := publicKey; Peer_PrivateKey := privateKey;
                                 Peer_AssignedIP := assignedIP; Peer_Enabled := true |}
                              (store w2)))) false ∈ all).
    { eexists. split; [rewrite L3, L2, L1, <- !app_assoc; reflexivity|]. set_solver. }
    destruct E as (all & E1 & E2). rewrite (events_since_app _ _ _ E1). exact E2.
Qed.

Lemma api_lookup_never_matches_empty_credential_witness :
  let w := sample_world (sample_db [admin_user ""] [] []) 0 [] in
  db.GetUserByAPIToken "" w = (Err ErrNoRows, w) /\
  exists e, fst (db.GetUserByAPIToken "AAAAAAAAAAAAAAAAAAAAAAAAAAAAAAAAAAAAAAAAAAA" w) = Err e.
Proof.
  intros w.
  destruct (api_lookup_never_matches_empty_credential (vendor := sample_vendor) w) as [L _].
  split.
  - apply (L ""). reflexivity.
  - apply (L "AAAAAAAAAAAAAAAAAAAAAAAAAAAAAAAAAAAAAAAAAAA").
    intros u I _. apply list_elem_of_singleton in I. rewrite I. reflexivity.
Defined.

Lemma DeletePeer_removes_live_peer_first_witness :
  let w := sample_world (sample_db [] [sample_peer 1 7 true] []) 0 [] in
  wgmanager.ValidateIP "10.8.0.5" = true /\
  (forall p, p ∈ peers (store w) -> Peer_AssignedIP p <> "10.8.0.5") /\
  fst (handlers.DeletePeer "10.8.0.5" w)
    = JSON StatusNotFound (ErrorResponse "Peer not found" None) /\
  filter (fun e => is_run e = true)
    (events_since w (snd (handlers.DeletePeer "10.8.0.5" w))) = [].
Proof.
  intros w.
  assert (V : wgmanager.ValidateIP "10.8.0.5" = true) by reflexivity.
  assert (N : forall p, p ∈ peers (store w) -> Peer_AssignedIP p <> "10.8.0.5").
  { intros p I. apply list_elem_of_singleton in I. rewrite I. vm_compute. discriminate. }
  pose proof (DeletePeer_removes_live_peer_first "10.8.0.5" w V) as T.
  destruct (handlers.DeletePeer "10.8.0.5" w) as [resp w'].
  destruct T as (_ & _ & _ & T). destruct (T N) as (R & Q & _).
  split; [exact V|]. split; [exact N|]. split; [exact R | exact Q].
Defined.

Example delete_of_a_stored_peer :
  let w := sample_world (sample_db [] [sample_peer 1 5 true] []) 0 [] in
  let '(resp, w') := handlers.DeletePeer "10.8.0.5" w in
  Status resp = StatusOK /\ peers (store w') = [] /\
  log w' = [ESql (SelectPeerByIP "10.8.0.5") true;
            ERun ["wg"; "set"; "wg0"; "peer"; sample_key 5; "remove"] true;
            ERun ["wg-quick"; "save"; "wg0"] true;
            ESql (DeletePeerByIP "10.8.0.5") true].
Proof. vm_compute. repeat split. Qed.

Example delete_stops_when_the_live_removal_fails :
  let w := sample_world (sample_db [] [sample_peer 1 5 true] []) 0 [false; true] in
  let '(resp, w') := handlers.DeletePeer "10.8.0.5" w in
  Status resp = StatusInternalServerError /\ peers (store w') = peers (store w) /\
  log w' = [ESql (SelectPeerByIP "10.8.0.5") true;
            ERun ["wg"; "set"; "wg0"; "peer"; sample_key 5; "remove"] false].
Proof. vm_compute. repeat split. Qed.

(** A key that is not an address is refused before anything else happens. *)
Lemma DeletePeer_rejects_malformed_address (ip : string) (w : World) :
  wgmanager.ValidateIP ip = false ->
  handlers.DeletePeer ip w =
  (JSON StatusBadRequest (ErrorResponse "Invalid IP address format" None), w).
Proof. intros V. unfold handlers.DeletePeer. rewrite V. reflexivity. Qed.

Lemma UpdatePeer_toggle_is_idempotent_witness :
  let w := sample_world (sample_db [] [sample_peer 1 5 true] []) 0 [] in
  let req := {| UpdatePeerRequest_Name := None; UpdatePeerRequest_Enabled := Some true |} in
  persisted "10.8.0.5" w (sample_peer 1 5 true) /\
  filter (fun e => is_run e = true)
    (events_since w (snd (handlers.UpdatePeer "10.8.0.5" (Some req) w))) = [].
Proof.
  intros w req.
  assert (P : persisted "10.8.0.5" w (sample_peer 1 5 true)) by reflexivity.
  pose proof (UpdatePeer_toggle_is_idempotent "10.8.0.5" req w) as T.
  destruct (handlers.UpdatePeer "10.8.0.5" (Some req) w) as [resp w'].
  destruct T as [T _]. split; [exact P|]. exact (T _ P eq_refl).
Defined.

Example toggle_to_the_stored_value_runs_nothing :
  let w := sample_world (sample_db [] [sample_peer 1 5 false] []) 0 [] in
  let req := {| UpdatePeerRequest_Name := None; UpdatePeerRequest_Enabled := Some false |} in
  let '(resp, w') := handlers.UpdatePeer "10.8.0.5" (Some req) w in
  Status resp = StatusOK /\
  log w' = [ESql (SelectPeerByIP "10.8.0.5") true;
            ESql (UpdatePeerEnabled false "10.8.0.5") true;
            ESql (SelectPeerByIP "10.8.0.5") true].
Proof. vm_compute. repeat split. Qed.

Example toggle_to_the_other_value_runs_the_tool :
  let w := sample_world (sample_db [] [sample_peer 1 5 false] []) 0 [] in
  let req := {| UpdatePeerRequest_Name := None; UpdatePeerRequest_Enabled := Some true |} in
  let '(resp, w') := handlers.UpdatePeer "10.8.0.5" (Some req) w in
  Status resp = StatusOK /\
  live w' !! sample_key 5 = Some "10.8.0.5/32" /\
  filter (fun e => is_run e = true) (log w') =
    [ERun ["wg"; "set"; "wg0"; "peer"; sample_key 5; "allowed-ips"; "10.8.0.5/32"] true;
     ERun ["wg-quick"; "save"; "wg0"] true].
Proof. vm_compute. repeat split. Qed.

Example create_then_live :
  let w := sample_world (sample_db [] [] []) 0 [] in
  let '(resp, w') := handlers.CreatePeer (vendor := sample_vendor)
                       (Some {| CreatePeerRequest_Name := "laptop" |}) w in
  Status resp = StatusCreated /\
  map Peer_AssignedIP (peers (store w')) = ["10.8.0.2"] /\
  map (fun p => live w' !! Peer_PublicKey p) (peers (store w')) = [Some "10.8.0.2/32"].
Proof. vm_compute. repeat split. Qed.

Example create_rolls_back_when_the_live_add_fails :
  let w := sample_world (sample_db [] [] []) 0 [false; false; false; false; true] in
  let '(resp, w') := handlers.CreatePeer (vendor := sample_vendor)
                       (Some {| CreatePeerRequest_Name := "laptop" |}) w in
  Status resp = StatusInternalServerError /\ peers (store w') = [] /\
  map is_sql (log w') = [false; true; true; true; false; true].
Proof. vm_compute. repeat split. Qed.

(** C1.  The row stays behind when the insertion succeeds and reading it
    back fails: the random source, the scan of the addresses and the
    [INSERT] succeed, the [SELECT] by rowid fails; the handler answers 500
    "Failed to create peer", never issues the compensating [DELETE], and the
    registry holds a new enabled row that the live interface does not
    know. *)
Theorem CreatePeer_leaves_row_when_read_back_fails :
  let w := sample_world (sample_db [] [] []) 0 [false; false; false; true] in
  let '(resp, w') := handlers.CreatePeer (vendor := sample_vendor)
                       (Some {| CreatePeerRequest_Name := "laptop" |}) w in
  resp = JSON StatusInternalServerError (ErrorResponse "Failed to create peer" (Some ErrDriver)) /\
  peers (store w) = [] /\
  map (fun p => (Peer_ID p, Peer_Name p, Peer_AssignedIP p, Peer_Enabled p)) (peers (store w'))
    = [(1, "laptop", "10.8.0.2", true)] /\
  live w' = ∅ /\
  log w' = [ERand 32 true; ESql SelectAssignedIPs true;
            ESql (InsertPeer "laptop" "AQEBAQEBAQEBAQEBAQEBAQEBAQEBAQEBAQEBAQEBAUE="
                    "AAAAAAAAAAAAAAAAAAAAAAAAAAAAAAAAAAAAAAAAAEA=" "10.8.0.2" true) true;
            ESql (SelectPeerByID 1) false].
Proof. vm_compute. repeat split. Qed.

(** ** The token authority (C6, C9) *)

Lemma db_DeleteRefreshToken_inv (token : string) (w w1 : World) (e : option error) :
  db.DeleteRefreshToken token w = (e, w1) ->
  cfg w1 = cfg w /\ clock w1 = clock w /\ users (store w1) = users (store w) /\
  ((store w1 = store w /\ log w1 = log w ++ [ESql (DeleteRefreshTokenByToken token) false])
   \/ (refresh_tokens (store w1) = delete token (refresh_tokens (store w)) /\
       log w1 = log w ++ [ESql (DeleteRefreshTokenByToken token) true])).
Proof.
  unfold db.DeleteRefreshToken, bind, ret.
  destruct (Exec _ _ w) as [x w0] eqn:X. apply Exec_inv in X.
  destruct x as [res|err]; intros [= <- <-].
  - destruct X as (F & d & I & ->). injection I as <- <-. cbn. auto 10.
  - destruct X as (-> & _). cbn. auto 10.
Qed.

Lemma db_SaveRefreshToken_inv (userID : Z) (token : string) (expiresAt : Z)
    (w w1 : World) (e : option error) :
  db.SaveRefreshToken userID token expiresAt w = (e, w1) ->
  cfg w1 = cfg w /\ clock w1 = clock w /\
  match e with
  | None =>
      exists row,
        refresh_tokens (store w1) = <[token := row]> (refresh_tokens (store w)) /\
        RefreshToken_UserID row = userID /\ RefreshToken_Token row = token /\
        RefreshToken_ExpiresAt row = expiresAt /\
        refresh_tokens (store w) !! token = None /\
        log w1 = log w ++ [ESql (InsertRefreshToken userID token expiresAt) true]
  | Some _ =>
      store w1 = store w /\
      log w1 = log w ++ [ESql (InsertRefreshToken userID token expiresAt) false]
  end.
Proof.
  unfold db.SaveRefreshToken, bind, ret.
  destruct (Exec _ _ w) as [x w0] eqn:X. apply Exec_inv in X.
  destruct x as [res|err]; intros [= <- <-].
  - destruct X as (F & d & I & ->). unfold db.insert_refresh_token in I.
    destruct (negb _); [discriminate|].
    destruct (refresh_tokens (store w) !! token) eqn:L; [discriminate|].
    injection I as <- <-. cbn. split; [reflexivity|]. split; [reflexivity|].
    eexists. repeat split; auto.
  - destruct X as (-> & _). cbn. auto.
Qed.

Lemma GenerateRefreshToken_inv {vendor : Vendor} (w w1 : World) (r : result string) :
  auth.GenerateRefreshToken w = (r, w1) ->
  store w1 = store w /\ cfg w1 = cfg w /\ clock w1 = clock w /\
  log w1 = log w ++ [ERand 32 (is_ok r)].
Proof.
  unfold auth.GenerateRefreshToken, bind, ret.
  destruct (rand_Read 32 w) as [b w0] eqn:R. apply rand_Read_inv in R.
  destruct R as (? & ? & ? & ? & ? & L).
  destruct b; intros [= <- <-]; auto.
Qed.

Lemma GenerateAccessToken_inv {vendor : Vendor} (userID : Z) (username : string)
    (w w1 : World) (r : result string) :
  auth.GenerateAccessToken userID username w = (r, w1) -> w1 = w.
Proof. unfold auth.GenerateAccessToken. intros [= _ <-]. reflexivity. Qed.

Lemma head_option_list {A} (o : option A) : head (option_list o) = o.
Proof. destruct o; reflexivity. Qed.

(** A token that is not stored is refused as invalid, whatever else happens. *)
Lemma Refresh_unknown_token {vendor : Vendor} (refreshToken : string) (w : World) :
  refresh_tokens (store w) !! refreshToken = None ->
  fst (handlers.Refresh (Some refreshToken) w)
  = JSON StatusUnauthorized (ErrorResponse "Invalid refresh token" None).
Proof.
  intros N. unfold handlers.Refresh, bind.
  destruct (db.GetRefreshToken refreshToken w) as [r w0] eqn:G.
  unfold db.GetRefreshToken in G. apply QueryRow_inv in G as [_ G].
  destruct r as [row|e]; [|reflexivity].
  destruct G as [_ G]. rewrite head_option_list, N in G. discriminate.
Qed.

(** C6.  A refresh that succeeds found the presented token in storage,
    stores a new row under a new token for the same user, expiring
    [RefreshExpiryDays] days from now (the product is a 64-bit duration and
    wraps as one), hands the new token out in the cookie, and issues the
    [DELETE] of the presented token, whose error it does not look at.  When that [DELETE] ran, and the new random token is not the
    presented one, the presented token is gone and any later refresh with
    it is refused with "Invalid refresh token".  A stored token whose
    expiry has passed is refused with 401; when the lookup ran, the answer
    is "Refresh token expired" and the [DELETE] of the token is issued,
    after which, if it ran, the token is gone. *)
Theorem Refresh_rotates_the_token {vendor : Vendor} (refreshToken : string) (w : World) :
  let '(resp, w') := handlers.Refresh (Some refreshToken) w in
  (Status resp = StatusOK ->
   exists newRefreshToken old new deleted,
     refresh_tokens (store w) !! refreshToken = Some old /\
     SetCookie resp = Some newRefreshToken /\
     refresh_tokens (store w') !! newRefreshToken = Some new /\
     RefreshToken_UserID new = RefreshToken_UserID old /\
     RefreshToken_ExpiresAt new = clock w + wrap64 (RefreshExpiryDays (JWT (cfg w)) * 24 * auth.hour) /\
     ESql (DeleteRefreshTokenByToken refreshToken) deleted ∈ events_since w w' /\
     (deleted = true -> newRefreshToken <> refreshToken ->
      refresh_tokens (store w') !! refreshToken = None /\
      forall w2, store w2 = store w' ->
        fst (handlers.Refresh (Some refreshToken) w2)
        = JSON StatusUnauthorized (ErrorResponse "Invalid refresh token" None))) /\
  (forall old,
     refresh_tokens (store w) !! refreshToken = Some old ->
     RefreshToken_ExpiresAt old < clock w ->
     Status resp = StatusUnauthorized /\
     (faulty w = false ->
      resp = JSON StatusUnauthorized (ErrorResponse "Refresh token expired" None) /\
      exists deleted,
        events_since w w' = [ESql (SelectRefreshToken refreshToken) true;
                             ESql (DeleteRefreshTokenByToken refreshToken) deleted] /\
        (deleted = true -> refresh_tokens (store w') !! refreshToken = None))).
Proof.
  unfold handlers.Refresh, handlers.login_ok, bind, ret, time_Now, gets,
    auth.GetRefreshTokenExpiry.
  destruct (db.GetRefreshToken refreshToken w) as [r w0] eqn:G.
  unfold db.GetRefreshToken in G. apply QueryRow_inv in G as [W0 G].
  assert (S0 : store w0 = store w) by (rewrite W0; reflexivity).
  assert (C0 : cfg w0 = cfg w) by (rewrite W0; reflexivity).
  assert (K0 : clock w0 = clock w) by (rewrite W0; reflexivity).
  assert (L0 : log w0 = log w ++ [ESql (SelectRefreshToken refreshToken) (negb (faulty w))]).
  { rewrite W0. reflexivity. }
  destruct r as [tokenData|e]; cbv beta iota.
  2:{ cbn [Status JSON]. split; [discriminate|]. intros old O X. split; [reflexivity|].
      intros F. exfalso. destruct G as [[F' _]|(_ & N & _)]; [congruence|].
      rewrite O in N. discriminate. }
  destruct G as [F G]. rewrite head_option_list in G.
  rewrite K0.
  destruct (RefreshToken_ExpiresAt tokenData <? clock w) eqn:X.
  - (* expired *)
    destruct (db.DeleteRefreshToken refreshToken w0) as [e1 w1] eqn:D.
    apply db_DeleteRefreshToken_inv in D as (C1 & K1 & U1 & D).
    cbn [Status JSON]. split; [discriminate|].
    intros old O _. split; [reflexivity|]. intros _. split; [reflexivity|].
    destruct D as [(S1 & L1)|(R1 & L1)].
    + exists false. split; [|discriminate].
      apply events_since_app. rewrite L1, L0, F, <- app_assoc. reflexivity.
    + exists true. split.
      * apply events_since_app. rewrite L1, L0, F, <- app_assoc. reflexivity.
      * intros _. rewrite R1. apply lookup_delete_eq.
  - (* not expired *)
    apply Z.ltb_ge in X.
    assert (NotExpired : forall old,
               refresh_tokens (store w) !! refreshToken = Some old ->
               RefreshToken_ExpiresAt old < clock w -> False).
    { intros old O Lt. rewrite G in O. injection O as <-. lia. }
    destruct (db.GetUserByID (RefreshToken_UserID tokenData) w0) as [u w1] eqn:Q.
    unfold db.GetUserByID in Q. apply QueryRow_inv in Q as [W1 Q].
    assert (S1 : store w1 = store w) by (rewrite W1; cbn; exact S0).
    assert (C1 : cfg w1 = cfg w) by (rewrite W1; cbn; exact C0).
    assert (K1 : clock w1 = clock w) by (rewrite W1; cbn; exact K0).
    assert (L1 : exists q, log w1 = log w ++ [ESql (SelectRefreshToken refreshToken) true; q]).
    { eexists. rewrite W1. cbn. rewrite L0, F, <- app_assoc. reflexivity. }
    destruct u as [user|e]; cbv beta iota.
    2:{ cbn [Status JSON]. split; [discriminate|]. intros old O Lt. destruct (NotExpired old O Lt). }
    destruct Q as [F1 Q]. apply head_Some_elem_of in Q.
    apply list_elem_of_filter in Q as [Uid _].
    destruct (auth.GenerateAccessToken (User_ID user) (User_Username user) w1) as [a w2] eqn:A.
    apply GenerateAccessToken_inv in A as ->.
    destruct a as [accessToken|e]; cbv beta iota.
    2:{ cbn [Status JSON]. split; [discriminate|]. intros old O Lt. destruct (NotExpired old O Lt). }
    destruct (db.DeleteRefreshToken refreshToken w1) as [e2 w2] eqn:D.
    apply db_DeleteRefreshToken_inv in D as (C2 & K2 & U2 & D).
    destruct (auth.GenerateRefreshToken w2) as [t w3] eqn:T.
    apply GenerateRefreshToken_inv in T as (S3 & C3 & K3 & L3).
    destruct t as [newRefreshToken|e]; cbv beta iota.
    2:{ cbn [Status JSON]. split; [discriminate|]. intros old O Lt. destruct (NotExpired old O Lt). }
    destruct (db.SaveRefreshToken _ _ _ w3) as [s w4] eqn:V.
    apply db_SaveRefreshToken_inv in V as (C4 & K4 & V).
    destruct s as [e|]; cbv beta iota.
    1:{ cbn [Status JSON]. split; [discriminate|]. intros old O Lt. destruct (NotExpired old O Lt). }
    destruct V as (row & R4 & Ru & Rt & Re & Fresh & L4).
    cbn [Status SetCookie]. split; [|intros old O Lt; destruct (NotExpired old O Lt)].
    intros _. destruct L1 as (q & L1).
    assert (Ev : exists deleted all,
               log w4 = log w ++ all /\
               ESql (DeleteRefreshTokenByToken refreshToken) deleted ∈ all /\
               (deleted = true ->
                refresh_tokens (store w2) = delete refreshToken (refresh_tokens (store w)))).
    { destruct D as [(S2 & L2)|(R2 & L2)].
      - exists false. eexists. split; [rewrite L4, L3, L2, L1, <- !app_assoc; reflexivity|].
        split; [set_solver | discriminate].
      - exists true. eexists. split; [rewrite L4, L3, L2, L1, <- !app_assoc; reflexivity|].
        split; [set_solver | intros _; rewrite R2, S1; reflexivity]. }
    destruct Ev as (deleted & all & L & I & Del).
    exists newRefreshToken, tokenData, row, deleted.
    split; [exact G|]. split; [reflexivity|].
    split; [rewrite R4; apply lookup_insert_eq|].
    split; [congruence|].
    split; [rewrite Re, C3, C2, C1, K3, K2, K1; reflexivity|].
    split; [rewrite (events_since_app _ _ _ L); exact I|].
    intros Dt Ne.
    assert (Gone : refresh_tokens (store w4) !! refreshToken = None).
    { rewrite R4, lookup_insert_ne by exact Ne. rewrite S3, (Del Dt). apply lookup_delete_eq. }
    split; [exact Gone|].
    intros w5 S5. apply Refresh_unknown_token. rewrite S5. exact Gone.
Qed.

Lemma keeps_credentials_refl (w : World) : keeps_credentials w w.
Proof. repeat split. exists []. symmetry. apply app_nil_r. Qed.

Lemma keeps_credentials_trans (w w1 w2 : World) :
  keeps_credentials w w1 -> keeps_credentials w1 w2 -> keeps_credentials w w2.
Proof.
  intros (U1 & R1 & A1 & e1 & L1) (U2 & R2 & A2 & e2 & L2).
  repeat split; try congruence. exists (e1 ++ e2). rewrite L2, L1, app_assoc. reflexivity.
Qed.

Lemma update_setting_inv {vendor : Vendor} (key : string) (value : option string)
    (failure : string) (after : string -> World -> World) (w w1 : World) (r : option Response) :
  (forall v w0, store (after v w0) = store w0 /\ log (after v w0) = log w0 /\
                Admin_Username (cfg (after v w0)) = Admin_Username (cfg w0)) ->
  handlers.update_setting key value failure after w = (r, w1) ->
  keeps_credentials w w1 /\
  forall resp, r = Some resp -> Status resp = StatusInternalServerError.
Proof.
  intros Af. unfold handlers.update_setting.
  destruct value as [v|];
    [|intros [= <- <-]; split; [apply keeps_credentials_refl | discriminate]].
  unfold db.SetSetting, bind, ret.
  destruct (Exec _ _ w) as [x w0] eqn:X. apply Exec_inv in X.
  destruct x as [res|err].
  - destruct X as (F & d & I & W0). injection I as <- <-.
    intros [= <- <-]. destruct (Af v w0) as (S & L & A).
    unfold keeps_credentials. rewrite S, L, A, W0. cbn.
    split; [|discriminate]. repeat split. eexists. reflexivity.
  - destruct X as (-> & _). intros [= <- <-].
    split; [|intros resp [= <-]; reflexivity]. repeat split. eexists. reflexivity.
Qed.

Lemma update_admin_password_failure {vendor : Vendor} (password : string) (w w1 : World)
    (resp : Response) :
  handlers.update_admin_password password w = (Some resp, w1) ->
  Status resp = StatusInternalServerError.
Proof.
  unfold handlers.update_admin_password, handlers.GenerateFromPassword, db.GetUserByUsername,
    db.UpdateUserPassword, db.UpdateUserAPIToken, db.DeleteUserRefreshTokens.
  unfold_m. intros E. run; reflexivity.
Qed.

Lemma update_users_inv (q : Sql) (f : User -> User) (id : Z) (w w1 : World)
    (r : result ExecResult) :
  Exec q (db.update_users f id) w = (r, w1) ->
  refresh_tokens (store w1) = refresh_tokens (store w) /\ cfg w1 = cfg w /\
  log w1 = log w ++ [ESql q (is_ok r)].
Proof.
  intros X. apply Exec_inv in X. destruct r as [res|err].
  - destruct X as (F & d & I & ->). injection I as <- <-. cbn. auto.
  - destruct X as (-> & _). cbn. auto.
Qed.

Lemma db_DeleteUserRefreshTokens_inv (userID : Z) (w w1 : World) (e : option error) :
  db.DeleteUserRefreshTokens userID w = (e, w1) ->
  (store w1 = store w /\ log w1 = log w ++ [ESql (DeleteRefreshTokensByUser userID) false])
  \/ (refresh_tokens (store w1)
        = filter (fun kv => RefreshToken_UserID (snd kv) <> userID) (refresh_tokens (store w)) /\
      log w1 = log w ++ [ESql (DeleteRefreshTokensByUser userID) true]).
Proof.
  unfold db.DeleteUserRefreshTokens, bind, ret.
  destruct (Exec _ _ w) as [x w0] eqn:X. apply Exec_inv in X.
  destruct x as [res|err]; intros [= <- <-].
  - destruct X as (F & d & I & ->). injection I as <- <-. cbn. auto.
  - destruct X as (-> & _). cbn. auto.
Qed.

Lemma update_admin_password_inv {vendor : Vendor} (password : string) (w w1 : World) :
  handlers.update_admin_password password w = (None, w1) ->
  exists user deleted evs,
    user ∈ users (store w) /\ User_Username user = Admin_Username (cfg w) /\
    log w1 = log w ++ evs /\
    ESql (DeleteRefreshTokensByUser (User_ID user)) deleted ∈ evs /\
    (deleted = true ->
     refresh_tokens (store w1)
       = filter (fun kv => RefreshToken_UserID (snd kv) <> User_ID user)
           (refresh_tokens (store w))).
Proof.
  unfold handlers.update_admin_password, handlers.GenerateFromPassword, bind, ret, gets.
  destruct (bcrypt_refuses password _); [discriminate|].
  destruct (rand_Read 16 w) as [s w0] eqn:R. apply rand_Read_inv in R.
  destruct R as (S0 & _ & _ & C0 & _ & L0).
  destruct (match s with Ok salt => _ | Err e => _ end) as [hashedPassword|e];
    [|discriminate].
  destruct (db.GetUserByUsername _ w0) as [u w2] eqn:G.
  unfold db.GetUserByUsername in G. apply QueryRow_inv in G as [W2 G].
  destruct u as [user|e]; [|discriminate].
  destruct G as [F2 G]. apply head_Some_elem_of in G. apply list_elem_of_filter in G as [Un In].
  unfold db.UpdateUserPassword, db.UpdateUserAPIToken, bind, ret.
  destruct (Exec (UpdateUserPassword_sql _ _) _ w2) as [x3 w3] eqn:X3.
  apply update_users_inv in X3 as (R3 & C3 & L3).
  destruct x3 as [res3|e3]; [|discriminate].
  destruct (Exec (UpdateUserAPIToken_sql _ _) _ w3) as [x4 w4] eqn:X4.
  apply update_users_inv in X4 as (R4 & C4 & L4).
  destruct x4 as [res4|e4]; [|discriminate].
  destruct (db.DeleteUserRefreshTokens (User_ID user) w4) as [e5 w5] eqn:D.
  apply db_DeleteUserRefreshTokens_inv in D.
  intros [= <-].
  assert (R2 : refresh_tokens (store w2) = refresh_tokens (store w)).
  { rewrite W2. cbn. rewrite S0. reflexivity. }
  assert (L2 : exists q, log w2 = log w ++ [ERand 16 (is_ok s); q]).
  { eexists. rewrite W2. cbn. rewrite L0, <- app_assoc. reflexivity. }
  destruct L2 as (q & L2).
  exists user.
  destruct D as [(S5 & L5)|(R5 & L5)].
  - exists false. eexists. rewrite S0 in In. rewrite C0 in Un.
    split; [exact In|]. split; [exact Un|].
    split; [rewrite L5, L4, L3, L2, <- !app_assoc; reflexivity|].
    split; [set_solver | discriminate].
  - exists true. eexists. rewrite S0 in In. rewrite C0 in Un.
    split; [exact In|]. split; [exact Un|].
    split; [rewrite L5, L4, L3, L2, <- !app_assoc; reflexivity|].
    split; [set_solver|]. intros _. rewrite R5, R4, R3, R2. reflexivity.
Qed.

(** C9.  A settings update that carries a non-empty admin password and
    answers 200 has found the admin user and issued the [DELETE] of all the
    refresh tokens of that user, whose error it does not look at.  When that
    [DELETE] ran, no stored refresh token belongs to the user any more, and
    a refresh with any token the user held before is refused with "Invalid
    refresh token". *)
Theorem password_change_revokes_refresh_tokens {vendor : Vendor}
    (req : UpdateSettingsRequest) (password : string) (w : World) :
  UpdateSettingsRequest_AdminPassword req = Some password ->
  password <> "" ->
  let '(resp, w') := handlers.UpdateSettings (Some req) w in
  Status resp = StatusOK ->
  exists user deleted,
    user ∈ users (store w) /\ User_Username user = Admin_Username (cfg w) /\
    ESql (DeleteRefreshTokensByUser (User_ID user)) deleted ∈ events_since w w' /\
    (deleted = true ->
     (forall token row,
         refresh_tokens (store w') !! token = Some row ->
         RefreshToken_UserID row <> User_ID user) /\
     (forall token row,
         refresh_tokens (store w) !! token = Some row ->
         RefreshToken_UserID row = User_ID user ->
         forall w2, store w2 = store w' ->
           fst (handlers.Refresh (Some token) w2)
           = JSON StatusUnauthorized (ErrorResponse "Invalid refresh token" None))).
Proof.
  intros Pw Ne. unfold handlers.UpdateSettings. rewrite Pw.
  apply String.eqb_neq in Ne. rewrite Ne. cbn [negb].
  unfold bind, ret.
  destruct (handlers.update_setting "dns" _ _ _ w) as [r1 w1] eqn:U1.
  apply update_setting_inv in U1 as [K1 F1]; [|intros; cbn; auto].
  destruct r1 as [resp|]; [intros S; rewrite (F1 _ eq_refl) in S; discriminate|].
  destruct (handlers.update_setting "allowed_ips" _ _ _ w1) as [r2 w2] eqn:U2.
  apply update_setting_inv in U2 as [K2 F2]; [|intros; cbn; auto].
  destruct r2 as [resp|]; [intros S; rewrite (F2 _ eq_refl) in S; discriminate|].
  destruct (handlers.update_setting "logging_enabled" _ _ _ w2) as [r3 w3] eqn:U3.
  apply update_setting_inv in U3 as [K3 F3]; [|intros; cbn; auto].
  destruct r3 as [resp|]; [intros S; rewrite (F3 _ eq_refl) in S; discriminate|].
  pose proof (keeps_credentials_trans _ _ _ (keeps_credentials_trans _ _ _ K1 K2) K3)
    as (Us & Rs & Ad & evs0 & L0).
  destruct (handlers.update_admin_password password w3) as [r4 w4] eqn:U4.
  destruct r4 as [resp|].
  { intros S. rewrite (update_admin_password_failure _ _ _ _ U4) in S. discriminate. }
  intros _.
  apply update_admin_password_inv in U4
    as (user & deleted & evs & In & Un & L4 & Ev & Del).
  exists user, deleted.
  split; [rewrite <- Us; exact In|]. split; [rewrite <- Ad; exact Un|].
  split.
  { rewrite (events_since_app w w4 (evs0 ++ evs)); [set_solver|].
    rewrite L4, L0, app_assoc. reflexivity. }
  intros Dt. specialize (Del Dt). rewrite Rs in Del.
  assert (NoneLeft : forall token row,
             refresh_tokens (store w4) !! token = Some row ->
             RefreshToken_UserID row <> User_ID user).
  { intros token row Lk. rewrite Del in Lk.
    apply map_lookup_filter_Some in Lk as [_ P]. exact P. }
  split; [exact NoneLeft|].
  intros token row Lk Own w5 S5. apply Refresh_unknown_token. rewrite S5.
  destruct (refresh_tokens (store w4) !! token) as [row'|] eqn:Lk'; [|reflexivity].
  exfalso. pose proof (NoneLeft _ _ Lk') as N.
  rewrite Del in Lk'. apply map_lookup_filter_Some in Lk' as [Lk' _].
  rewrite Lk in Lk'. injection Lk' as <-. contradiction.
Qed.

(** Against C6 as it was stated: the [DELETE] of the rotation fails, the
    refresh answers 200 all the same, the presented token stays in storage
    and a second refresh with it succeeds. *)
Lemma Refresh_reuse_after_failed_delete :
  let w := session_world [false; false; true] in
  let '(r1, w1) := handlers.Refresh (vendor := sample_vendor) (Some "old-token") w in
  let '(r2, w2) := handlers.Refresh (vendor := sample_vendor) (Some "old-token") w1 in
  Status r1 = StatusOK /\
  map is_sql (log w1) = [true; true; true; false; true] /\
  nth 2 (log w1) (ERand 0 true) = ESql (DeleteRefreshTokenByToken "old-token") false /\
  refresh_tokens (store w1) !! "old-token" = Some (stored_token 1 1 "old-token" 1000) /\
  Status r2 = StatusOK.
Proof. vm_compute. repeat split. Qed.

Lemma Refresh_rotates_the_token_witness :
  let w := session_world [] in
  Status (fst (handlers.Refresh (vendor := sample_vendor) (Some "old-token") w)) = StatusOK /\
  fst (handlers.Refresh (vendor := sample_vendor) (Some "old-token")
         (snd (handlers.Refresh (vendor := sample_vendor) (Some "old-token") w)))
  = JSON StatusUnauthorized (ErrorResponse "Invalid refresh token" None).
Proof.
  intros w.
  assert (S : Status (fst (handlers.Refresh (vendor := sample_vendor) (Some "old-token") w))
              = StatusOK) by (vm_compute; reflexivity).
  split; [exact S|].
  pose proof (Refresh_rotates_the_token (vendor := sample_vendor) "old-token" w) as Th.
  assert (Ev : events_since w (snd (handlers.Refresh (vendor := sample_vendor)
                                      (Some "old-token") w))
               = [ESql (SelectRefreshToken "old-token") true; ESql (SelectUserByID 1) true;
                  ESql (DeleteRefreshTokenByToken "old-token") true; ERand 32 true;
                  ESql (InsertRefreshToken 1 "AQAAAAAAAAAAAAAAAAAAAAAAAAAAAAAAAAAAAAAAAAA="
                          604800000000010) true]) by (vm_compute; reflexivity).
  assert (Ck : SetCookie (fst (handlers.Refresh (vendor := sample_vendor)
                                 (Some "old-token") w))
               = Some "AQAAAAAAAAAAAAAAAAAAAAAAAAAAAAAAAAAAAAAAAAA=")
    by (vm_compute; reflexivity).
  destruct (handlers.Refresh (vendor := sample_vendor) (Some "old-token") w) as [resp w'].
  cbn [fst snd] in *.
  destruct Th as [Th _].
  destruct (Th S) as (new & old & row & deleted & _ & Ck' & _ & _ & _ & I & Fin).
  apply Fin; [| | reflexivity].
  - rewrite Ev in I.
    repeat (apply elem_of_cons in I as [I|I]; try discriminate).
    + injection I as <-. reflexivity.
    + inversion I.
  - rewrite Ck in Ck'. injection Ck' as <-. discriminate.
Defined.

Example refresh_of_an_expired_token :
  let w := sample_world (sample_db [admin_user ""] [] [stored_token 1 1 "old-token" 1000])
             2000 [] in
  let '(r, w') := handlers.Refresh (vendor := sample_vendor) (Some "old-token") w in
  r = JSON StatusUnauthorized (ErrorResponse "Refresh token expired" None) /\
  refresh_tokens (store w') !! "old-token" = None.
Proof. vm_compute. repeat split. Qed.

(** Against C9 as it was stated: the [DELETE] of the user's tokens fails,
    the update answers 200 all the same with the new password in place, and
    a refresh token issued before the change is still honoured. *)
Lemma password_change_keeps_tokens_after_failed_delete :
  let w := session_world [false; false; false; false; true] in
  let '(r1, w1) := handlers.UpdateSettings (vendor := sample_vendor)
                     (Some (change_password "new-password")) w in
  let '(r2, w2) := handlers.Refresh (vendor := sample_vendor) (Some "old-token") w1 in
  r1 = JSON StatusOK (H [("message", "Settings updated")]) /\
  map User_PasswordHash (users (store w1)) = ["bcrypt:new-password"] /\
  nth 4 (log w1) (ERand 0 true) = ESql (DeleteRefreshTokensByUser 1) false /\
  refresh_tokens (store w1) !! "old-token" = Some (stored_token 1 1 "old-token" 1000) /\
  Status r2 = StatusOK.
Proof. vm_compute. repeat split. Qed.

Lemma password_change_revokes_refresh_tokens_witness :
  let w := session_world [] in
  let w1 := snd (handlers.UpdateSettings (vendor := sample_vendor)
                   (Some (change_password "new-password")) w) in
  Status (fst (handlers.UpdateSettings (vendor := sample_vendor)
                 (Some (change_password "new-password")) w)) = StatusOK /\
  fst (handlers.Refresh (vendor := sample_vendor) (Some "old-token") w1)
  = JSON StatusUnauthorized (ErrorResponse "Invalid refresh token" None).
Proof.
  intros w w1.
  assert (S : Status (fst (handlers.UpdateSettings (vendor := sample_vendor)
                             (Some (change_password "new-password")) w)) = StatusOK)
    by (vm_compute; reflexivity).
  split; [exact S|].
  pose proof (password_change_revokes_refresh_tokens (vendor := sample_vendor)
                (change_password "new-password") "new-password" w eq_refl) as Th.
  assert (Ev : events_since w w1
               = [ERand 16 true; ESql (SelectUserByUsername "admin") true;
                  ESql (UpdateUserPassword_sql "bcrypt:new-password" 1) true;
                  ESql (UpdateUserAPIToken_sql
                          (auth.GenerateAPIToken "new-password" "") 1) true;
                  ESql (DeleteRefreshTokensByUser 1) true]) by (vm_compute; reflexivity).
  subst w1.
  destruct (handlers.UpdateSettings (vendor := sample_vendor)
              (Some (change_password "new-password")) w) as [resp w'].
  cbn [fst snd] in *.
  destruct Th as (user & deleted & In & _ & I & Fin); [discriminate | exact S |].
  apply list_elem_of_singleton in In. subst user.
  assert (D : deleted = true).
  { rewrite Ev in I.
    repeat (apply elem_of_cons in I as [I|I]; try discriminate).
    - injection I as <-. reflexivity.
    - inversion I. }
  destruct (Fin D) as [_ Rej].
  apply (Rej "old-token" (stored_token 1 1 "old-token" 1000)); reflexivity.
Defined.

(** ** The rate limiter of the login route (C8) *)

Local Open Scope Q_scope.

Lemma Qlt_bool_true (a b : Q) : rate.Qlt_bool a b = true <-> a < b.
Proof.
  unfold rate.Qlt_bool. rewrite negb_true_iff. split.
  - intros E. apply Qnot_le_lt. intros L. apply Qle_bool_iff in L. congruence.
  - intros L. destruct (Qle_bool b a) eqn:E; [|reflexivity].
    apply Qle_bool_iff in E. destruct (Qlt_not_le _ _ L E).
Qed.

Lemma Qlt_bool_false (a b : Q) : rate.Qlt_bool a b = false <-> b <= a.
Proof.
  unfold rate.Qlt_bool. rewrite negb_false_iff. apply Qle_bool_iff.
Qed.

Lemma tokensFromDuration_login (d : Z) :
  rate.tokensFromDuration login_rate d == inject_Z d * (1 # 12000000000).
Proof.
  unfold rate.tokensFromDuration, login_rate, rate.second. cbn [Qle_bool].
  change (Qle_bool (inject_Z 5 / inject_Z 60) 0) with false. cbv beta iota.
  field.
Qed.

Lemma advance_bound (l : rate.Limiter) (t : Z) :
  rate.limit l = login_rate -> rate.burst l = 5%Z ->
  rate.advance l t <= 5 /\
  ((rate.last l <= t)%Z ->
   rate.advance l t <= rate.tokens l + inject_Z (t - rate.last l) * (1 # 12000000000)).
Proof.
  intros Li Bu. unfold rate.advance. rewrite Li, Bu.
  destruct (rate.Qlt_bool _ _) eqn:C.
  - apply Qlt_bool_true in C. split; [apply Qle_refl|]. intros Le.
    assert ((t <? rate.last l)%Z = false) as N by (apply Z.ltb_ge; exact Le).
    rewrite N in C. rewrite tokensFromDuration_login in C. apply Qlt_le_weak. exact C.
  - apply Qlt_bool_false in C. split; [exact C|]. intros Le.
    assert ((t <? rate.last l)%Z = false) as N by (apply Z.ltb_ge; exact Le).
    rewrite N. rewrite tokensFromDuration_login. apply Qle_refl.
Qed.

Lemma Allow_keeps_config (t : Z) (l l' : rate.Limiter) (ok : bool) :
  rate.limit l = login_rate -> rate.burst l = 5%Z ->
  rate.Allow t l = (ok, l') ->
  rate.limit l' = login_rate /\ rate.burst l' = 5%Z /\
  (ok = true -> rate.last l' = t /\ rate.tokens l' = rate.advance l t - 1).
Proof.
  intros Li Bu. unfold rate.Allow. rewrite Li, Bu.
  change (Qeq_bool login_rate 0) with false. cbv beta iota.
  destruct (_ && _); intros [= <- <-]; cbn; auto. split; auto. split; auto. discriminate.
Qed.

Lemma Allow_first (t1 : Z) (l l' : rate.Limiter) :
  rate.limit l = login_rate -> rate.burst l = 5%Z ->
  rate.Allow t1 l = (true, l') -> spent 1 t1 t1 l'.
Proof.
  intros Li Bu A. destruct (Allow_keeps_config _ _ _ _ Li Bu A) as (Li' & Bu' & X).
  destruct (X eq_refl) as [La To]. unfold spent. repeat split; auto.
  rewrite To. destruct (advance_bound l t1 Li Bu) as [Cap _].
  rewrite Z.sub_diag. change (inject_Z (5 - 1)) with 4. change (inject_Z 0) with 0.
  lra.
Qed.

Lemma Allow_next (k t1 t t' : Z) (l l' : rate.Limiter) :
  spent k t1 t l -> (t <= t')%Z ->
  rate.Allow t' l = (true, l') -> spent (k + 1) t1 t' l'.
Proof.
  intros (Li & Bu & La & To) Le A.
  destruct (Allow_keeps_config _ _ _ _ Li Bu A) as (Li' & Bu' & X).
  destruct (X eq_refl) as [La' To']. unfold spent. repeat split; auto.
  rewrite To'. destruct (advance_bound l t' Li Bu) as [_ Ad].
  rewrite La in Ad. specialize (Ad Le).
  replace (t' - t1)%Z with ((t' - t) + (t - t1))%Z by lia.
  replace (5 - (k + 1))%Z with ((5 - k) + -1)%Z by lia.
  rewrite !inject_Z_plus. change (inject_Z (-1)) with (-1).
  lra.
Qed.

Lemma Allow_sixth (t1 t t' : Z) (l : rate.Limiter) :
  spent 5 t1 t l -> (t <= t')%Z -> (t' - t1 < 12000000000)%Z ->
  fst (rate.Allow t' l) = false.
Proof.
  intros (Li & Bu & La & To) Le Lt.
  destruct (advance_bound l t' Li Bu) as [_ Ad]. rewrite La in Ad. specialize (Ad Le).
  assert (B : rate.advance l t' - 1 <= - (1 # 12000000000)).
  { assert (inject_Z (t' - t1) <= inject_Z 11999999999) as I.
    { rewrite <- Zle_Qle. lia. }
    replace (t' - t1)%Z with ((t' - t) + (t - t1))%Z in I by lia.
    rewrite inject_Z_plus in I. change (inject_Z (5 - 5)) with 0 in To.
    change (inject_Z 11999999999) with (11999999999) in I.
    lra. }
  unfold rate.Allow. rewrite Li, Bu.
  change (Qeq_bool login_rate 0) with false. cbv beta iota.
  set (tokens := rate.advance l t' - 1) in *.
  assert (N : rate.Qlt_bool tokens 0 = true).
  { apply Qlt_bool_true. lra. }
  rewrite N. unfold rate.durationFromTokens.
  change (Qle_bool login_rate 0) with false. cbv beta iota.
  assert (F : (1 <= Qfloor (- tokens / login_rate * rate.second))%Z).
  { rewrite <- (Qfloor_Z 1). apply Qfloor_resp_le.
    unfold login_rate, rate.second. 
    assert (E : - tokens / (inject_Z 5 / inject_Z 60) * inject_Z 1000000000
                == - tokens * 12000000000) by field.
    rewrite E. change (inject_Z 1) with 1. clear - B. clearbody tokens. lra. }
  destruct (_ <=? 0)%Z eqn:D; [apply Z.leb_le in D; lia|].
  rewrite andb_false_r. reflexivity.
Qed.

Lemma advance_at_least (l : rate.Limiter) (t : Z) (x : Q) :
  rate.limit l = login_rate -> rate.burst l = 5%Z ->
  x <= 5 -> x <= rate.tokens l -> x <= rate.advance l t.
Proof.
  intros Li Bu X5 Xt. unfold rate.advance. rewrite Li, Bu.
  destruct (rate.Qlt_bool _ _) eqn:C; [exact X5|].
  rewrite tokensFromDuration_login.
  assert (E : (0 <= t - (if (t <? rate.last l)%Z then t else rate.last l))%Z).
  { destruct (t <? rate.last l)%Z eqn:B; [lia | apply Z.ltb_ge in B; lia]. }
  rewrite Zle_Qle in E. change (inject_Z 0) with 0 in E.
  set (d := inject_Z (t - (if (t <? rate.last l)%Z then t else rate.last l))) in *.
  clearbody d. lra.
Qed.

Lemma Allow_left_over (k t : Z) (l : rate.Limiter) :
  left_over k l -> (0 <= k < 5)%Z ->
  fst (rate.Allow t l) = true /\ left_over (k + 1) (snd (rate.Allow t l)).
Proof.
  intros (Li & Bu & To) K.
  assert (A : inject_Z (5 - k) <= rate.advance l t).
  { apply advance_at_least; auto.
    change 5 with (inject_Z 5). rewrite <- Zle_Qle. lia. }
  assert (One : inject_Z 1 <= inject_Z (5 - k)) by (rewrite <- Zle_Qle; lia).
  change (inject_Z 1) with 1 in One.
  unfold rate.Allow. rewrite Li, Bu.
  change (Qeq_bool login_rate 0) with false. cbv beta iota.
  assert (N : rate.Qlt_bool (rate.advance l t - 1) 0 = false).
  { apply Qlt_bool_false. lra. }
  rewrite N. cbn [Z.leb andb fst snd]. split; [reflexivity|].
  unfold left_over. cbn. rewrite ?Li, ?Bu. split; [reflexivity|]. split; [reflexivity|].
  replace (5 - (k + 1))%Z with ((5 - k) + -1)%Z by lia.
  rewrite inject_Z_plus. change (inject_Z (-1)) with (-1). lra.
Qed.

Local Open Scope Z_scope.

Lemma Middleware_entry (ip : string) (now : Z) (rl : middleware.RateLimiter) :
  let l0 := match middleware.visitors rl !! ip with
            | Some v => middleware.limiter v
            | None => rate.NewLimiter (middleware.rate rl) (middleware.burst rl)
            end in
  fst (middleware.Middleware ip now rl)
    = (if fst (rate.Allow now l0) then None else Some middleware.too_many_requests) /\
  middleware.visitors (snd (middleware.Middleware ip now rl)) !! ip
    = Some {| middleware.limiter := snd (rate.Allow now l0); middleware.lastSeen := now |} /\
  (forall ip', ip' <> ip ->
     middleware.visitors (snd (middleware.Middleware ip now rl)) !! ip'
     = middleware.visitors rl !! ip').
Proof.
  unfold middleware.Middleware, middleware.getVisitor.
  destruct (middleware.visitors rl !! ip) as [v|] eqn:V; cbn [fst snd];
    destruct (rate.Allow now _) as [ok l'] eqn:A; cbn [fst snd];
    (destruct ok; cbn [negb fst snd middleware.set_visitor middleware.visitors];
     (split; [reflexivity|]); (split; [apply lookup_insert_eq|]);
     intros ip' Ne; rewrite !lookup_insert_ne by congruence; reflexivity).
Qed.

Lemma step_quiet (ip : string) (t1 : Z) (tk : middleware.Tick) (rl : middleware.RateLimiter)
    (v : middleware.visitorInfo) :
  quiet ip t1 tk ->
  middleware.visitors rl !! ip = Some v -> t1 <= middleware.lastSeen v ->
  middleware.visitors (middleware.step rl tk) !! ip = Some v.
Proof.
  intros Q V Le. destruct tk as [ip' now|now]; cbn [middleware.step quiet] in *.
  - destruct (Middleware_entry ip' now rl) as (_ & _ & Fr). rewrite Fr by congruence. exact V.
  - cbn [middleware.cleanupVisitors middleware.visitors].
    apply map_lookup_filter_Some. split; [exact V|]. cbn [snd]. lia.
Qed.

Lemma run_quiet (ip : string) (t1 : Z) (os : list middleware.Tick) (rl : middleware.RateLimiter)
    (v : middleware.visitorInfo) :
  Forall (quiet ip t1) os ->
  middleware.visitors rl !! ip = Some v -> t1 <= middleware.lastSeen v ->
  middleware.visitors (middleware.run rl os) !! ip = Some v.
Proof.
  unfold middleware.run. revert rl. induction os as [|tk os IH]; intros rl Q V Le; [exact V|].
  inversion Q as [|? ? Q1 Q2]; subst. cbn [fold_left].
  apply IH; [exact Q2 | apply (step_quiet ip t1); assumption | exact Le].
Qed.

Lemma round_first (ip : string) (t1 : Z) (rl : middleware.RateLimiter)
    (os : list middleware.Tick) :
  configured rl ->
  fst (middleware.Middleware ip t1 rl) = None ->
  Forall (quiet ip t1) os ->
  exists v, middleware.visitors (middleware.run (snd (middleware.Middleware ip t1 rl)) os) !! ip
            = Some v /\ spent 1 t1 t1 (middleware.limiter v).
Proof.
  intros (Ra & Bu & Vs) Ad Q.
  destruct (Middleware_entry ip t1 rl) as (R & E & _). cbv zeta in R, E.
  set (l0 := match middleware.visitors rl !! ip with
             | Some v => middleware.limiter v
             | None => rate.NewLimiter (middleware.rate rl) (middleware.burst rl)
             end) in *.
  assert (C0 : rate.limit l0 = login_rate /\ rate.burst l0 = 5).
  { unfold l0. destruct (middleware.visitors rl !! ip) as [v|] eqn:V.
    - exact (Vs _ _ V).
    - cbn. auto. }
  destruct C0 as [Li0 Bu0].
  rewrite Ad in R. destruct (rate.Allow t1 l0) as [ok l'] eqn:A. cbn [fst snd] in *.
  destruct ok; [|discriminate].
  eexists. split.
  - apply (run_quiet ip t1 os _ _ Q E). cbn. lia.
  - cbn. exact (Allow_first _ _ _ Li0 Bu0 A).
Qed.

Lemma round_next (k : Z) (ip : string) (t1 t t' : Z) (rl : middleware.RateLimiter)
    (v : middleware.visitorInfo) (os : list middleware.Tick) :
  middleware.visitors rl !! ip = Some v -> spent k t1 t (middleware.limiter v) ->
  t <= t' -> t1 <= t' ->
  fst (middleware.Middleware ip t' rl) = None ->
  Forall (quiet ip t1) os ->
  exists v', middleware.visitors (middleware.run (snd (middleware.Middleware ip t' rl)) os) !! ip
             = Some v' /\ spent (k + 1) t1 t' (middleware.limiter v').
Proof.
  intros V Sp Le Le1 Ad Q.
  destruct (Middleware_entry ip t' rl) as (R & E & _). cbv zeta in R, E.
  rewrite V in R, E. rewrite Ad in R.
  destruct (rate.Allow t' (middleware.limiter v)) as [ok l'] eqn:A. cbn [fst snd] in *.
  destruct ok; [|discriminate].
  eexists. split.
  - apply (run_quiet ip t1 os _ _ Q E). cbn. exact Le1.
  - cbn. exact (Allow_next _ _ _ _ _ _ Sp Le A).
Qed.

Lemma round_sixth (ip : string) (t1 t t' : Z) (rl : middleware.RateLimiter)
    (v : middleware.visitorInfo) :
  middleware.visitors rl !! ip = Some v -> spent 5 t1 t (middleware.limiter v) ->
  t <= t' -> t' - t1 < 12000000000 ->
  fst (middleware.Middleware ip t' rl) = Some middleware.too_many_requests.
Proof.
  intros V Sp Le Lt.
  destruct (Middleware_entry ip t' rl) as (R & _ & _). cbv zeta in R.
  rewrite V in R. rewrite R, (Allow_sixth _ _ _ _ Sp Le Lt). reflexivity.
Qed.

Lemma round_left_over (k : Z) (ip : string) (t1 t : Z) (rl : middleware.RateLimiter)
    (v : middleware.visitorInfo) (os : list middleware.Tick) :
  middleware.visitors rl !! ip = Some v -> left_over k (middleware.limiter v) ->
  0 <= k < 5 -> t1 <= t ->
  Forall (quiet ip t1) os ->
  fst (middleware.Middleware ip t rl) = None /\
  exists v', middleware.visitors (middleware.run (snd (middleware.Middleware ip t rl)) os) !! ip
             = Some v' /\ left_over (k + 1) (middleware.limiter v').
Proof.
  intros V Lo K Le Q.
  destruct (Middleware_entry ip t rl) as (R & E & _). cbv zeta in R, E.
  rewrite V in R, E.
  destruct (Allow_left_over k t _ Lo K) as [Ok Lo'].
  rewrite Ok in R. split; [exact R|].
  eexists. split.
  - apply (run_quiet ip t1 os _ _ Q E). cbn. exact Le.
  - exact Lo'.
Qed.

(** X22.  The bucket of a source the limiter has not seen is full: its
    first five attempts are admitted, whenever they come. *)
Lemma five_attempts_of_a_new_source_admitted
    (rl : middleware.RateLimiter) (ip : string) (t1 t2 t3 t4 t5 : Z)
    (o1 o2 o3 o4 : list middleware.Tick) :
  configured rl ->
  middleware.visitors rl !! ip = None ->
  t1 <= t2 -> t1 <= t3 -> t1 <= t4 -> t1 <= t5 ->
  Forall (quiet ip t1) (o1 ++ o2 ++ o3 ++ o4) ->
  let '(r1, rl1) := middleware.Middleware ip t1 rl in
  let '(r2, rl2) := middleware.Middleware ip t2 (middleware.run rl1 o1) in
  let '(r3, rl3) := middleware.Middleware ip t3 (middleware.run rl2 o2) in
  let '(r4, rl4) := middleware.Middleware ip t4 (middleware.run rl3 o3) in
  let '(r5, rl5) := middleware.Middleware ip t5 (middleware.run rl4 o4) in
  [r1; r2; r3; r4; r5] = [None; None; None; None; None].
Proof.
  intros (Ra & Bu & Vs) New L2 L3 L4 L5 Q.
  rewrite !Forall_app in Q. destruct Q as (Q1 & Q2 & Q3 & Q4).
  (* the first attempt creates the entry *)
  destruct (Middleware_entry ip t1 rl) as (R1 & E1 & _). cbv zeta in R1, E1.
  rewrite New in R1, E1.
  assert (Lo0 : left_over 0 (rate.NewLimiter (middleware.rate rl) (middleware.burst rl))).
  { rewrite Ra, Bu. split; [reflexivity|]. split; [reflexivity|]. cbn. apply Qle_refl. }
  destruct (Allow_left_over 0 t1 _ Lo0 ltac:(lia)) as [Ok1 Lo1].
  rewrite Ok1 in R1.
  pose proof (run_quiet ip t1 o1 _ _ Q1 E1 ltac:(cbn; lia)) as V1.
  destruct (middleware.Middleware ip t1 rl) as [r1 rl1]. cbn [fst snd] in *.
  pose proof (round_left_over 1 ip t1 t2 _ _ o2 V1 Lo1 ltac:(lia) L2 Q2) as (R2 & v2 & V2 & Lo2).
  destruct (middleware.Middleware ip t2 _) as [r2 rl2]. cbn [fst snd] in *.
  pose proof (round_left_over 2 ip t1 t3 _ _ o3 V2 Lo2 ltac:(lia) L3 Q3) as (R3 & v3 & V3 & Lo3).
  destruct (middleware.Middleware ip t3 _) as [r3 rl3]. cbn [fst snd] in *.
  pose proof (round_left_over 3 ip t1 t4 _ _ o4 V3 Lo3 ltac:(lia) L4 Q4) as (R4 & v4 & V4 & Lo4).
  destruct (middleware.Middleware ip t4 _) as [r4 rl4]. cbn [fst snd] in *.
  pose proof (round_left_over 4 ip t1 t5 _ _ [] V4 Lo4 ltac:(lia) L5 ltac:(constructor))
    as (R5 & _).
  cbn [middleware.run fold_left] in R5.
  destruct (middleware.Middleware ip t5 _) as [r5 rl5]. cbn [fst snd] in *.
  congruence.
Qed.

(** C8.  With the limiter of the login route configured for 5 requests
    in 60 seconds, in any state it can be in: when five attempts of one
    source have been admitted, a sixth attempt of that source that comes at
    least a microsecond short of twelve seconds after the first of the five
    is refused with 429 "Too many requests".  The attempts come at
    non-decreasing times; requests of other sources may come in between at
    any time, and so may ticks of the cleanup up to three minutes after the
    first attempt.  The microsecond keeps the statement off the instant at
    which the sixth token is refilled, where the rounding of the library's
    floating-point tokens decides. *)
Theorem sixth_attempt_within_twelve_seconds_rejected
    (rl : middleware.RateLimiter) (ip : string) (t1 t2 t3 t4 t5 t6 : Z)
    (o1 o2 o3 o4 o5 : list middleware.Tick) :
  configured rl ->
  t1 <= t2 <= t3 -> t3 <= t4 <= t5 -> t5 <= t6 ->
  t6 - t1 <= 12 * 1000000000 - 1000 ->
  Forall (quiet ip t1) (o1 ++ o2 ++ o3 ++ o4 ++ o5) ->
  let '(r1, rl1) := middleware.Middleware ip t1 rl in
  let '(r2, rl2) := middleware.Middleware ip t2 (middleware.run rl1 o1) in
  let '(r3, rl3) := middleware.Middleware ip t3 (middleware.run rl2 o2) in
  let '(r4, rl4) := middleware.Middleware ip t4 (middleware.run rl3 o3) in
  let '(r5, rl5) := middleware.Middleware ip t5 (middleware.run rl4 o4) in
  let '(r6, rl6) := middleware.Middleware ip t6 (middleware.run rl5 o5) in
  r1 = None -> r2 = None -> r3 = None -> r4 = None -> r5 = None ->
  r6 = Some middleware.too_many_requests.
Proof.
  intros Cf [L12 L23] [L34 L45] L56 Lt Q.
  rewrite !Forall_app in Q. destruct Q as (Q1 & Q2 & Q3 & Q4 & Q5).
  pose proof (round_first ip t1 rl o1 Cf) as R1.
  destruct (middleware.Middleware ip t1 rl) as [r1 rl1]. cbn [fst snd] in R1.
  pose proof (fun v k t => round_next k ip t1 t t2 (middleware.run rl1 o1) v o2) as R2.
  destruct (middleware.Middleware ip t2 (middleware.run rl1 o1)) as [r2 rl2]. cbn [fst snd] in R2.
  pose proof (fun v k t => round_next k ip t1 t t3 (middleware.run rl2 o2) v o3) as R3.
  destruct (middleware.Middleware ip t3 (middleware.run rl2 o2)) as [r3 rl3]. cbn [fst snd] in R3.
  pose proof (fun v k t => round_next k ip t1 t t4 (middleware.run rl3 o3) v o4) as R4.
  destruct (middleware.Middleware ip t4 (middleware.run rl3 o3)) as [r4 rl4]. cbn [fst snd] in R4.
  pose proof (fun v k t => round_next k ip t1 t t5 (middleware.run rl4 o4) v o5) as R5.
  destruct (middleware.Middleware ip t5 (middleware.run rl4 o4)) as [r5 rl5]. cbn [fst snd] in R5.
  pose proof (fun v t => round_sixth ip t1 t t6 (middleware.run rl5 o5) v) as R6.
  destruct (middleware.Middleware ip t6 (middleware.run rl5 o5)) as [r6 rl6]. cbn [fst snd] in R6.
  intros A1 A2 A3 A4 A5.
  destruct (R1 A1 Q1) as (v1 & V1 & S1).
  destruct (R2 v1 1 t1 V1 S1 ltac:(lia) ltac:(lia) A2 Q2) as (v2 & V2 & S2).
  destruct (R3 v2 2 t2 V2 S2 ltac:(lia) ltac:(lia) A3 Q3) as (v3 & V3 & S3).
  destruct (R4 v3 3 t3 V3 S3 ltac:(lia) ltac:(lia) A4 Q4) as (v4 & V4 & S4).
  destruct (R5 v4 4 t4 V4 S4 ltac:(lia) ltac:(lia) A5 Q5) as (v5 & V5 & S5).
  apply (R6 v5 t5 V5 S5); lia.
Qed.

Lemma configured_new : configured (middleware.NewRateLimiter 5 60).
Proof.
  split; [reflexivity|]. split; [reflexivity|].
  intros ip v E. cbn in E. rewrite lookup_empty in E. discriminate.
Qed.

Lemma step_configured (rl : middleware.RateLimiter) (tk : middleware.Tick) :
  configured rl -> configured (middleware.step rl tk).
Proof.
  intros (Ra & Bu & Vs). destruct tk as [ip now|now]; cbn [middleware.step].
  - destruct (Middleware_entry ip now rl) as (_ & E & Fr). cbv zeta in E.
    assert (RB : middleware.rate (snd (middleware.Middleware ip now rl)) = login_rate /\
                 middleware.burst (snd (middleware.Middleware ip now rl)) = 5).
    { unfold middleware.Middleware, middleware.getVisitor.
      destruct (middleware.visitors rl !! ip); destruct (rate.Allow now _) as [[] ?];
        cbn; auto. }
    destruct RB as [Ra' Bu']. split; [exact Ra'|]. split; [exact Bu'|].
    intros ip' v V. destruct (decide (ip' = ip)) as [->|Ne].
    + rewrite E in V. injection V as <-. cbn [middleware.limiter].
      set (l0 := match middleware.visitors rl !! ip with
                 | Some v => middleware.limiter v
                 | None => rate.NewLimiter (middleware.rate rl) (middleware.burst rl)
                 end).
      assert (C0 : rate.limit l0 = login_rate /\ rate.burst l0 = 5).
      { unfold l0. destruct (middleware.visitors rl !! ip) as [v|] eqn:V.
        - exact (Vs _ _ V).
        - cbn. auto. }
      destruct C0 as [Li0 Bu0].
      destruct (rate.Allow now l0) as [ok l'] eqn:A.
      destruct (Allow_keeps_config _ _ _ _ Li0 Bu0 A) as (? & ? & _). auto.
    + rewrite Fr in V by exact Ne. exact (Vs _ _ V).
  - split; [exact Ra|]. split; [exact Bu|].
    intros ip v V. cbn in V. apply map_lookup_filter_Some in V as [V _]. exact (Vs _ _ V).
Qed.

(** Every state the limiter of the login route can be in is configured. *)
Lemma run_configured (ts : list middleware.Tick) :
  configured (middleware.run (middleware.NewRateLimiter 5 60) ts).
Proof.
  unfold middleware.run. generalize configured_new.
  generalize (middleware.NewRateLimiter 5 60).
  induction ts as [|tk ts IH]; intros rl C; [exact C|].
  cbn [fold_left]. apply IH, step_configured, C.
Qed.

(** Against C8 as stated: five attempts in the first five seconds, a sixth
    thirty seconds in: all six are inside one window of sixty seconds, and
    the sixth is let through, on the tokens refilled since. *)
Lemma sixth_attempt_in_window_admitted :
  let ip := "203.0.113.7" in
  let rl := middleware.NewRateLimiter 5 60 in
  let '(r1, rl1) := middleware.Middleware ip (0 * second) rl in
  let '(r2, rl2) := middleware.Middleware ip (1 * second) rl1 in
  let '(r3, rl3) := middleware.Middleware ip (2 * second) rl2 in
  let '(r4, rl4) := middleware.Middleware ip (3 * second) rl3 in
  let '(r5, rl5) := middleware.Middleware ip (4 * second) rl4 in
  let '(r6, rl6) := middleware.Middleware ip (30 * second) rl5 in
  [r1; r2; r3; r4; r5] = [None; None; None; None; None] /\
  30 * second - 0 * second < 60 * second /\
  r6 = None.
Proof. vm_compute. repeat split. Qed.

Lemma sixth_attempt_within_twelve_seconds_rejected_witness :
  let ip := "203.0.113.7" in
  let rl := middleware.NewRateLimiter 5 60 in
  let o1 := [middleware.Request "198.51.100.1" (1 * second); middleware.Cleanup (60 * second)] in
  let '(r1, rl1) := middleware.Middleware ip (0 * second) rl in
  let '(r2, rl2) := middleware.Middleware ip (1 * second) (middleware.run rl1 o1) in
  let '(r3, rl3) := middleware.Middleware ip (2 * second) rl2 in
  let '(r4, rl4) := middleware.Middleware ip (3 * second) rl3 in
  let '(r5, rl5) := middleware.Middleware ip (4 * second) rl4 in
  let '(r6, rl6) := middleware.Middleware ip (11 * second) rl5 in
  [r1; r2; r3; r4; r5] = [None; None; None; None; None] /\
  r6 = Some middleware.too_many_requests.
Proof.
  intros ip rl o1.
  assert (Q : Forall (quiet ip (0 * second)) (o1 ++ [] ++ [] ++ [] ++ [])).
  { repeat constructor; cbn; unfold second; try discriminate; lia. }
  pose proof (sixth_attempt_within_twelve_seconds_rejected rl ip
                (0 * second) (1 * second) (2 * second) (3 * second) (4 * second) (11 * second)
                o1 [] [] [] [] configured_new
                ltac:(unfold second; lia) ltac:(unfold second; lia) ltac:(unfold second; lia)
                ltac:(unfold second; lia) Q) as T.
  vm_compute in T |- *.
  split; [reflexivity | apply T; reflexivity].
Defined.

(** ** Sessions: login, refresh, logout and the change of password *)

Lemma Login_unauthorized_iff {vendor : Vendor} (req : LoginRequest) (w : World) :
  let '(resp, w') := handlers.Login (Some req) w in
  let name := LoginRequest_Username req in
  let found := head (filter (fun u => User_Username u = name) (users (store w))) in
  ((faulty w = true \/ found = None \/
    (exists u, found = Some u /\
               bcrypt_CompareHashAndPassword (User_PasswordHash u)
                 (LoginRequest_Password req) = false))
   <-> Status resp = StatusUnauthorized) /\
  (Status resp = StatusUnauthorized ->
   resp = invalid_credentials /\ store w' = store w /\
   events_since w w' = [ESql (SelectUserByUsername name) (negb (faulty w))]).
Proof.
  destruct (handlers.Login (Some req) w) as [resp w'] eqn:E. cbv zeta.
  unfold handlers.Login, bind in E.
  destruct (db.GetUserByUsername _ w) as [r w0] eqn:G.
  unfold db.GetUserByUsername in G. apply QueryRow_inv in G as [W0 G].
  destruct r as [user|e].
  - destruct G as [F Hd]. rewrite Hd.
    unfold auth.VerifyPassword in E.
    destruct (bcrypt_CompareHashAndPassword _ _) eqn:V.
    + (* verified: never 401 *)
      assert (N : Status resp <> StatusUnauthorized).
      { revert E. unfold handlers.login_ok, db.UpdateUserAPIToken, db.SaveRefreshToken,
          auth.GenerateAccessToken, auth.GenerateRefreshToken, auth.GetRefreshTokenExpiry.
        unfold_m. intros E. run. }
      split; [|intros S; contradiction].
      split; [|intros S; contradiction].
      intros [C|[C|(u & [= <-] & C)]]; congruence.
    + cbn in E. injection E as <- <-. split.
      * split; [reflexivity|]. intros _. right. right. eauto.
      * intros _. split; [reflexivity|]. subst w0. split; [reflexivity|].
        apply events_since_app. rewrite F. reflexivity.
  - cbn in E. injection E as <- <-. split.
    + split; [reflexivity|]. intros _.
      destruct G as [[F _]|(F & Em & _)]; [left; exact F|right; left; rewrite Em; reflexivity].
    + intros _. split; [reflexivity|]. subst w0. split; [reflexivity|].
      apply events_since_app. reflexivity.
Qed.

Lemma Login_ok_inv {vendor : Vendor} (req : LoginRequest) (w w1 : World) (resp : Response) :
  handlers.Login (Some req) w = (resp, w1) ->
  Status resp = StatusOK ->
  let apiToken := auth.GenerateAPIToken (LoginRequest_Password req) (AccessSecret (JWT (cfg w))) in
  exists user t row accessToken,
    faulty w = false /\
    head (filter (fun u => User_Username u = LoginRequest_Username req) (users (store w)))
      = Some user /\
    bcrypt_CompareHashAndPassword (User_PasswordHash user) (LoginRequest_Password req) = true /\
    jwt_SignedString
      {| Claims_UserID := User_ID user; Claims_Username := User_Username user;
         Claims_ExpiresAt := clock w + wrap64 (AccessExpiryMinutes (JWT (cfg w)) * auth.minute);
         Claims_IssuedAt := clock w; Claims_Issuer := "wgeasygo" |}
      (AccessSecret (JWT (cfg w))) = Ok accessToken /\
    resp = {| Status := StatusOK;
              Payload := LoginJSON
                {| LoginResponse_AccessToken := accessToken;
                   LoginResponse_ExpiresIn := wrap64 (AccessExpiryMinutes (JWT (cfg w)) * 60);
                   LoginResponse_APIToken := apiToken |};
              SetCookie := Some t |} /\
    refresh_tokens (store w1) = <[t := row]> (refresh_tokens (store w)) /\
    refresh_tokens (store w) !! t = None /\
    RefreshToken_UserID row = User_ID user /\
    RefreshToken_ExpiresAt row = clock w + wrap64 (RefreshExpiryDays (JWT (cfg w)) * 24 * auth.hour) /\
    ((User_APIToken user = apiToken /\ users (store w1) = users (store w)) \/
     users (store w1)
     = map (fun u => if decide (User_ID u = User_ID user) then with_token apiToken u else u)
         (users (store w))) /\
    peers (store w1) = peers (store w) /\ settings (store w1) = settings (store w) /\
    live w1 = live w /\ cfg w1 = cfg w /\ clock w1 = clock w.
Proof.
  intros E S. cbv zeta.
  unfold handlers.Login, bind in E.
  destruct (db.GetUserByUsername _ w) as [r w0] eqn:G.
  unfold db.GetUserByUsername in G. apply QueryRow_inv in G as [W0 G].
  destruct r as [user|e]; [|cbn in E; injection E as <- <-; discriminate].
  destruct G as [F Hd]. rewrite F in W0. cbn in W0.
  unfold auth.VerifyPassword in E.
  destruct (bcrypt_CompareHashAndPassword _ _) eqn:V;
    [|cbn in E; injection E as <- <-; discriminate].
  exists user.
  revert E. unfold handlers.login_ok, db.UpdateUserAPIToken, db.SaveRefreshToken,
    db.insert_refresh_token, db.update_users, db.set_users,
    auth.GenerateAccessToken, auth.GenerateRefreshToken, auth.GetRefreshTokenExpiry.
  unfold_m. subst w0. intros E. run.
  all: do 3 eexists; repeat (split; [try reflexivity; try eassumption|]); try reflexivity; auto.
  left. split; [|reflexivity]. apply String.eqb_eq, negb_false_iff. assumption.
Qed.

Lemma filter_found {A} (P : A -> Prop) `{!forall x, Decision (P x)} (l : list A) (x : A) :
  x ∈ l -> P x -> exists y, head (filter P l) = Some y.
Proof.
  intros I Px. destruct (filter P l) as [|y r] eqn:Fl; [|eauto].
  exfalso. exact (filter_nil_inv _ _ Fl x I Px).
Qed.

(** X1.  The refresh cookie that a successful login sets is recognised by
    the refresh operation until it expires.  In a later state of the same
    store and while no step fails, a refresh that presents it is answered
    200 (or 500 when a new token cannot be made) as long as the clock has
    not passed the instant of the login plus the configured lifetime, the
    product taken as the 64-bit duration it is; once the clock has passed
    it, the answer is 401 "Refresh token expired". *)
Theorem Refresh_accepts_the_cookie_of_Login {vendor : Vendor}
    (req : LoginRequest) (w w1 : World) (resp : Response) (t : string) :
  handlers.Login (Some req) w = (resp, w1) ->
  Status resp = StatusOK ->
  SetCookie resp = Some t ->
  forall w2,
    store w2 = store w1 -> faults w2 = [] ->
    let expiry := clock w + wrap64 (RefreshExpiryDays (JWT (cfg w)) * 24 * auth.hour) in
    let r := fst (handlers.Refresh (Some t) w2) in
    (clock w2 <= expiry -> Status r = StatusOK \/ Status r = StatusInternalServerError) /\
    (expiry < clock w2 ->
     r = JSON StatusUnauthorized (ErrorResponse "Refresh token expired" None)).
Proof.
  intros E S C w2 St F. cbv zeta.
  apply Login_ok_inv in E; [|exact S]. cbv zeta in E.
  destruct E as (user & t' & row & a & F0 & Hd & V & J & -> & RT & Fresh & RU & RE & US & _ & _ & _
                 & Cf & Ck).
  cbn in C. injection C as ->.
  assert (I : exists u', head (filter (fun x => User_ID x = RefreshToken_UserID row)
                                  (users (store w2))) = Some u').
  { apply head_Some_elem_of in Hd. apply list_elem_of_filter in Hd as [_ Hd].
    rewrite St, RU. destruct US as [[_ ->] | ->].
    - apply (filter_found _ _ user); auto.
    - eapply filter_found; [apply list_elem_of_fmap; exists user; split; [reflexivity|exact Hd]|].
      cbn. rewrite decide_True by reflexivity. reflexivity. }
  destruct I as [u' I].
  unfold handlers.Refresh, db.GetRefreshToken, db.GetUserByID, db.DeleteRefreshToken,
    db.SaveRefreshToken, handlers.login_ok,
    auth.GenerateAccessToken, auth.GenerateRefreshToken, auth.GetRefreshTokenExpiry.
  rewrite <- St in RT.
  unfold_m. unfold faulty. rewrite F, RT, lookup_insert_eq. cbn.
  rewrite RE.
  destruct (_ <? _) eqn:L; [apply Z.ltb_lt in L | apply Z.ltb_ge in L].
  - split; [intros Le; lia | intros _]. cbn. rewrite F. reflexivity.
  - split; [intros _ | intros Lt; lia].
    cbn. rewrite F. cbn.
    destruct (filter _ (users (store w2))) as [|u l] eqn:Fl; [discriminate|].
    clear J. cbn. destruct (jwt_SignedString _ _); [|right; reflexivity].
    cbn.
    match goal with |- context [db.insert_refresh_token ?a ?b ?c ?d] =>
      destruct (db.insert_refresh_token a b c d) as [[d' r']|e'] end; cbn; auto.
Qed.

(** X2.  Logout answers 200 and clears the cookie whatever happens.  Without
    a cookie it touches nothing.  With one, it issues the delete of that
    token and of nothing else: the other tokens stay, and when the delete
    ran the token is rejected by every later refresh. *)
Theorem Logout_revokes_the_presented_token {vendor : Vendor}
    (cookie : option string) (w : World) :
  let '(resp, w1) := handlers.Logout cookie w in
  resp = logged_out /\
  (cookie = None -> w1 = w) /\
  (forall t, cookie = Some t ->
     events_since w w1 = [ESql (DeleteRefreshTokenByToken t) (negb (faulty w))] /\
     users (store w1) = users (store w) /\ peers (store w1) = peers (store w) /\
     (forall t', t' <> t -> refresh_tokens (store w1) !! t' = refresh_tokens (store w) !! t') /\
     (faulty w = false ->
      refresh_tokens (store w1) !! t = None /\
      fst (handlers.Refresh (Some t) w1)
      = JSON StatusUnauthorized (ErrorResponse "Invalid refresh token" None))).
Proof.
  destruct cookie as [t|]; cbn.
  2:{ split; [reflexivity|]. split; [reflexivity|]. intros t [=]. }
  unfold handlers.Logout, db.DeleteRefreshToken. unfold_m.
  unfold faulty. destruct (hd false (faults w)) eqn:F; cbn.
  - split; [reflexivity|]. split; [discriminate|]. intros ? [= <-].
    split; [apply events_since_app; reflexivity|]. repeat split; discriminate.
  - split; [reflexivity|]. split; [discriminate|]. intros ? [= <-].
    split; [apply events_since_app; reflexivity|].
    split; [reflexivity|]. split; [reflexivity|].
    split; [intros t' N; apply lookup_delete_ne; congruence|].
    intros _. assert (N : delete t (refresh_tokens (store w)) !! t = None)
      by apply lookup_delete_eq.
    split; [exact N|]. apply Refresh_unknown_token. exact N.
Qed.

Lemma map_map_users (f g : User -> User) (id : Z) (us : list User) :
  (forall u, User_ID (f u) = User_ID u) ->
  map (fun u => if decide (User_ID u = id) then g u else u)
    (map (fun u => if decide (User_ID u = id) then f u else u) us)
  = map (fun u => if decide (User_ID u = id) then g (f u) else u) us.
Proof.
  intros Hf. rewrite map_map. apply map_ext. intros u.
  destruct (decide (User_ID u = id)) as [E|N].
  - rewrite decide_True by (rewrite Hf; exact E). reflexivity.
  - rewrite decide_False by exact N. reflexivity.
Qed.

Lemma update_admin_password_users {vendor : Vendor} (password : string) (w w1 : World) :
  handlers.update_admin_password password w = (None, w1) ->
  exists user salt h,
    head (filter (fun u => User_Username u = Admin_Username (cfg w)) (users (store w)))
      = Some user /\
    bcrypt_GenerateFromPassword password handlers.bcrypt_DefaultCost salt = Ok h /\
    users (store w1)
    = map (fun u => if decide (User_ID u = User_ID user)
                    then with_password h (auth.GenerateAPIToken password "") u else u)
        (users (store w)) /\
    peers (store w1) = peers (store w) /\ settings (store w1) = settings (store w) /\
    cfg w1 = cfg w /\ live w1 = live w.
Proof.
  unfold handlers.update_admin_password, handlers.GenerateFromPassword,
    db.GetUserByUsername, db.UpdateUserPassword, db.UpdateUserAPIToken,
    db.DeleteUserRefreshTokens, db.update_users, db.set_users, db.set_refresh_tokens.
  unfold_m. intros E.
  destruct (bcrypt_refuses password _); [cbn in E; discriminate|]. run.
  all: do 3 eexists; split; [reflexivity|]; split; [eassumption|];
    split; [|repeat split]; rewrite map_map_users by reflexivity; reflexivity.
Qed.

Lemma UpdateSettings_ok_inv {vendor : Vendor} (req : UpdateSettingsRequest) (w w1 : World)
    (resp : Response) :
  handlers.UpdateSettings (Some req) w = (resp, w1) ->
  Status resp = StatusOK ->
  exists w0,
    match UpdateSettingsRequest_AdminPassword req with
    | Some password =>
        if decide (password = "") then w1 = w0
        else handlers.update_admin_password password w0 = (None, w1)
    | None => w1 = w0
    end /\
    users (store w0) = users (store w) /\ peers (store w0) = peers (store w) /\
    refresh_tokens (store w0) = refresh_tokens (store w) /\ live w0 = live w /\
    settings (store w0)
    = put "logging_enabled" (option_map logging_value (UpdateSettingsRequest_LoggingEnabled req))
        (put "allowed_ips" (UpdateSettingsRequest_AllowedIPs req)
           (put "dns" (UpdateSettingsRequest_DNS req) (settings (store w)))) /\
    DNS (WireGuard (cfg w0))
    = default (DNS (WireGuard (cfg w))) (UpdateSettingsRequest_DNS req) /\
    AllowedIPs (WireGuard (cfg w0))
    = default (AllowedIPs (WireGuard (cfg w))) (UpdateSettingsRequest_AllowedIPs req) /\
    Admin_Username (cfg w0) = Admin_Username (cfg w) /\
    ServerPublicKey (WireGuard (cfg w0)) = ServerPublicKey (WireGuard (cfg w)) /\
    ServerEndpoint (WireGuard (cfg w0)) = ServerEndpoint (WireGuard (cfg w)).
Proof.
  unfold handlers.UpdateSettings, handlers.update_setting, db.SetSetting.
  unfold bind, ret, Exec.
  destruct req as [dns allowed logging password]. cbn [UpdateSettingsRequest_DNS
    UpdateSettingsRequest_AllowedIPs UpdateSettingsRequest_LoggingEnabled
    UpdateSettingsRequest_AdminPassword].
  intros E S.
  destruct dns as [dns|], allowed as [allowed|], logging as [logging|]; cbn in E.
  all: repeat match type of E with
       | context [if hd false ?f then _ else _] => destruct (hd false f); cbn in E
       end.
  all: try (injection E as <- <-; discriminate).
  all: destruct password as [password|];
    [destruct (String.eqb_spec password "") as [->|N]; cbn in E|].
  all: try match type of E with
       | context [handlers.update_admin_password ?p ?w0] =>
           destruct (handlers.update_admin_password p w0) as [[r|] w'] eqn:U; cbn in E;
           [apply update_admin_password_failure in U; injection E as <- <-;
            rewrite U in S; discriminate|]
       end.
  all: injection E as <- <-.
  all: eexists; split;
    [try rewrite decide_True by reflexivity; try rewrite decide_False by assumption;
     first [exact U | reflexivity]|].
  all: repeat split.
Qed.

(** X3.  A login is answered 401 exactly when the lookup of the user fails
    (no such user, or the statement failed) or the stored hash rejects the
    password; the answer is the same "Invalid credentials" in every such
    case, the store is left as it was and the only statement issued is the
    lookup. *)
Theorem Login_rejection_is_uniform {vendor : Vendor} (req : LoginRequest) (w : World) :
  let '(resp, w') := handlers.Login (Some req) w in
  let name := LoginRequest_Username req in
  let found := head (filter (fun u => User_Username u = name) (users (store w))) in
  ((faulty w = true \/ found = None \/
    (exists u, found = Some u /\
               bcrypt_CompareHashAndPassword (User_PasswordHash u)
                 (LoginRequest_Password req) = false))
   <-> Status resp = StatusUnauthorized) /\
  (Status resp = StatusUnauthorized ->
   resp = invalid_credentials /\ store w' = store w /\
   events_since w w' = [ESql (SelectUserByUsername name) (negb (faulty w))]).
Proof. exact (Login_unauthorized_iff req w). Qed.

Lemma head_filter_map {A} (P : A -> Prop) `{!forall x, Decision (P x)} (f : A -> A)
    (l : list A) :
  (forall x, P (f x) <-> P x) ->
  head (filter P (map f l)) = option_map f (head (filter P l)).
Proof.
  intros Hf. induction l as [|a l IH]; [reflexivity|].
  cbn [map]. rewrite !filter_cons.
  destruct (decide (P a)) as [Pa|Na].
  - rewrite decide_True by (apply Hf; exact Pa). reflexivity.
  - rewrite decide_False by (rewrite Hf; exact Na). exact IH.
Qed.

(** X4.  After a successful change of the admin password through the
    settings, the stored hash of the admin is the bcrypt hash of the new
    password at the default cost 10, and it alone decides a login under the
    admin's name: while the lookup does not fail, the login is answered 401
    exactly when that hash rejects the presented password. *)
Theorem password_change_decides_the_next_login {vendor : Vendor}
    (req : UpdateSettingsRequest) (password : string) (w w1 : World) (resp : Response) :
  UpdateSettingsRequest_AdminPassword req = Some password ->
  password <> "" ->
  handlers.UpdateSettings (Some req) w = (resp, w1) ->
  Status resp = StatusOK ->
  exists salt h,
    bcrypt_GenerateFromPassword password 10 salt = Ok h /\
    forall presented w2,
      store w2 = store w1 -> faulty w2 = false ->
      let login := {| LoginRequest_Username := Admin_Username (cfg w);
                      LoginRequest_Password := presented |} in
      Status (fst (handlers.Login (Some login) w2)) = StatusUnauthorized
      <-> bcrypt_CompareHashAndPassword h presented = false.
Proof.
  intros P N E S.
  apply UpdateSettings_ok_inv in E as (w0 & U & Us & _ & _ & _ & _ & _ & _ & Ad & _); [|exact S].
  rewrite P, decide_False in U by exact N.
  apply update_admin_password_users in U as (user & salt & h & Hd & B & Us1 & _).
  exists salt, h. split; [exact B|].
  intros presented w2 St F. cbv zeta.
  pose proof (Login_unauthorized_iff
                {| LoginRequest_Username := Admin_Username (cfg w);
                   LoginRequest_Password := presented |} w2) as L.
  destruct (handlers.Login _ w2) as [r w3]. cbn [fst]. cbv zeta in L.
  destruct L as [L _]. rewrite <- L. clear L.
  cbn [LoginRequest_Username LoginRequest_Password].
  rewrite St, Us1, <- Ad.
  rewrite head_filter_map, Hd.
  2:{ intros x. destruct (decide _); reflexivity. }
  cbn. rewrite decide_True by reflexivity. cbn.
  split.
  - intros [C|[C|(u & [= <-] & C)]]; [unfold faulty in *; congruence|discriminate|exact C].
  - intros C. right. right. eexists. split; [reflexivity|exact C].
Qed.

Lemma password_change_decides_the_next_login_witness :
  let w := session_world [] in
  let out := handlers.UpdateSettings (vendor := sample_vendor)
               (Some (change_password "new-password")) w in
  let login p := {| LoginRequest_Username := "admin"; LoginRequest_Password := p |} in
  Status (fst (handlers.Login (vendor := sample_vendor) (Some (login "changeme123")) (snd out)))
  = StatusUnauthorized /\
  Status (fst (handlers.Login (vendor := sample_vendor) (Some (login "new-password")) (snd out)))
  <> StatusUnauthorized.
Proof.
  intros w out login.
  assert (E : handlers.UpdateSettings (vendor := sample_vendor)
                (Some (change_password "new-password")) w = (fst out, snd out))
    by (subst out; destruct (handlers.UpdateSettings _ w); reflexivity).
  assert (S : Status (fst out) = StatusOK) by (vm_compute; reflexivity).
  assert (F : faulty (snd out) = false) by (vm_compute; reflexivity).
  clearbody out.
  destruct (password_change_decides_the_next_login (vendor := sample_vendor)
              (change_password "new-password") "new-password" w (snd out) (fst out)
              eq_refl ltac:(discriminate) E S)
    as (salt & h & B & D).
  cbn in B. injection B as <-.
  split.
  - apply (D "changeme123" (snd out) eq_refl F). reflexivity.
  - intros C. apply (D "new-password" (snd out) eq_refl F) in C. discriminate.
Defined.

Lemma Refresh_accepts_the_cookie_of_Login_witness :
  let w := sample_world (sample_db [admin_user ""] [] []) 0 [] in
  let out := handlers.Login (vendor := sample_vendor) (Some login_admin) w in
  let t := "AAAAAAAAAAAAAAAAAAAAAAAAAAAAAAAAAAAAAAAAAAA=" in
  let week := 7 * 24 * auth.hour in
  SetCookie (fst out) = Some t /\
  Status (fst (handlers.Refresh (vendor := sample_vendor) (Some t)
                 (sample_world (store (snd out)) week []))) = StatusOK /\
  fst (handlers.Refresh (vendor := sample_vendor) (Some t)
         (sample_world (store (snd out)) (week + 1) []))
  = JSON StatusUnauthorized (ErrorResponse "Refresh token expired" None).
Proof.
  intros w out t week.
  assert (E : handlers.Login (vendor := sample_vendor) (Some login_admin) w = (fst out, snd out))
    by (subst out; destruct (handlers.Login _ w); reflexivity).
  assert (S : Status (fst out) = StatusOK) by (vm_compute; reflexivity).
  assert (C : SetCookie (fst out) = Some t) by (vm_compute; reflexivity).
  assert (R : Status (fst (handlers.Refresh (vendor := sample_vendor) (Some t)
                            (sample_world (store (snd out)) week []))) = StatusOK)
    by (vm_compute; reflexivity).
  assert (St : forall d now, store (sample_world d now []) = d) by reflexivity.
  assert (Fa : forall d now, faults (sample_world d now []) = []) by reflexivity.
  clearbody out.
  split; [exact C|]. split; [exact R|].
  apply (Refresh_accepts_the_cookie_of_Login (vendor := sample_vendor) login_admin w
           (snd out) (fst out) t E S C (sample_world (store (snd out)) (week + 1) [])
           (St _ _) (Fa _ _)).
  vm_compute. reflexivity.
Defined.

(** ** The access gate and the API token *)

Lemma AuthMiddleware_Next_inv {vendor : Vendor} (authHeader : string) (uid : Z) (name : string)
    (w w' : World) :
  middleware.AuthMiddleware authHeader w = (middleware.Next uid name, w') ->
  exists scheme tokenString,
    middleware.SplitN2 authHeader = [scheme; tokenString] /\
    middleware.ToLower scheme = "bearer" /\ tokenString <> "" /\
    (jwt_valid tokenString w = true \/
     exists u, u ∈ users (store w) /\ User_ID u = uid /\ User_APIToken u = tokenString).
Proof.
  intros E.
  unfold middleware.AuthMiddleware, middleware.abort, auth.ValidateAccessToken,
    db.GetUserByAPIToken, jwt_valid in *.
  unfold_m. run.
  all: do 2 eexists; (split; [reflexivity|]).
  all: split; [apply String.eqb_eq, negb_false_iff; assumption|].
  all: split; [apply String.eqb_neq; assumption|].
  all: try (match goal with J : jwt_ParseWithClaims _ _ _ = inl _ |- _ =>
                 left; rewrite J; reflexivity end).
  all: right; match goal with F : filter _ _ = _ :: _ |- _ =>
                apply filter_cons_inv in F; destruct F as (? & ? & ?) end.
  all: eexists; repeat split; try eassumption; reflexivity.
Qed.

Lemma SplitN2_Bearer (tok : string) :
  middleware.SplitN2 ("Bearer " +:+ tok) = ["Bearer"; tok].
Proof. reflexivity. Qed.

Lemma len_nonempty (s : string) : 0 < len s -> s <> "".
Proof. intros L ->. unfold len in L. cbn in L. lia. Qed.

(** X5.  The API token that a successful login returns opens the gate: a
    request that carries it as its bearer value is admitted, whenever the
    lookup of the token does not fail. *)
Theorem gate_admits_the_api_token_of_Login {vendor : Vendor}
    (req : LoginRequest) (w w1 : World) (resp : Response) (l : LoginResponse) :
  handlers.Login (Some req) w = (resp, w1) ->
  Status resp = StatusOK ->
  Payload resp = LoginJSON l ->
  forall w2, store w2 = store w1 -> faulty w2 = false ->
    exists uid name,
      fst (middleware.AuthMiddleware ("Bearer " +:+ LoginResponse_APIToken l) w2)
      = middleware.Next uid name.
Proof.
  intros E S P w2 St F.
  apply Login_ok_inv in E; [|exact S]. cbv zeta in E.
  destruct E as (user & t & row & a & _ & Hd & _ & _ & -> & _ & _ & _ & _ & US & _).
  cbn in P. injection P as <-. cbn [LoginResponse_APIToken].
  set (tok := auth.GenerateAPIToken _ _) in *.
  assert (L : len tok = 43) by apply GenerateAPIToken_len.
  assert (N : tok <> "") by (apply len_nonempty; lia).
  assert (I : exists u, head (filter (fun u => User_APIToken u = tok /\ User_APIToken u <> "")
                                (users (store w2))) = Some u).
  { apply head_Some_elem_of, list_elem_of_filter in Hd as [_ Hd]. rewrite St.
    destruct US as [[T ->] | ->].
    - apply (filter_found _ _ user); [exact Hd|]. rewrite T. auto.
    - eapply filter_found.
      + apply list_elem_of_fmap. exists user. split; [reflexivity|exact Hd].
      + cbn. rewrite decide_True by reflexivity. cbn. auto. }
  destruct I as [u I]. clear Hd US.
  unfold middleware.AuthMiddleware. rewrite SplitN2_Bearer.
  change (String.eqb ("Bearer " +:+ tok) "") with false.
  change (negb (String.eqb (middleware.ToLower "Bearer") "bearer")) with false.
  cbv beta iota. apply String.eqb_neq in N. rewrite N.
  unfold auth.ValidateAccessToken, db.GetUserByAPIToken. rewrite N. unfold_m.
  destruct (jwt_ParseWithClaims _ _ _) as [c|[|]]; cbv beta iota.
  - cbn. do 2 eexists; reflexivity.
  - apply Z.eqb_eq in L. rewrite L. cbn. unfold faulty in F. rewrite F.
    destruct (filter _ _) as [|u0 us]; [discriminate|]. cbn. do 2 eexists; reflexivity.
  - apply Z.eqb_eq in L. rewrite L. cbn. unfold faulty in F. rewrite F.
    destruct (filter _ _) as [|u0 us]; [discriminate|]. cbn. do 2 eexists; reflexivity.
Qed.

Lemma gate_admits_the_api_token_of_Login_witness :
  let w := sample_world (sample_db [admin_user ""] [] []) 0 [] in
  let out := handlers.Login (vendor := sample_vendor) (Some login_admin) w in
  let l := {| LoginResponse_AccessToken := "jwt:admin"; LoginResponse_ExpiresIn := 900;
              LoginResponse_APIToken := "ZNUMuJ6n0Y_seSrYUDBbvKUapW1-zWvQtF2-AY3QC8Q" |} in
  Payload (fst out) = LoginJSON l /\
  exists uid name,
    fst (middleware.AuthMiddleware (vendor := sample_vendor)
           ("Bearer " +:+ LoginResponse_APIToken l) (snd out))
    = middleware.Next uid name.
Proof.
  intros w out l.
  assert (E : handlers.Login (vendor := sample_vendor) (Some login_admin) w = (fst out, snd out))
    by (subst out; destruct (handlers.Login _ w); reflexivity).
  assert (S : Status (fst out) = StatusOK) by (vm_compute; reflexivity).
  assert (P : Payload (fst out) = LoginJSON l) by (vm_compute; reflexivity).
  assert (F : faulty (snd out) = false) by (vm_compute; reflexivity).
  clearbody out.
  split; [exact P|].
  exact (gate_admits_the_api_token_of_Login (vendor := sample_vendor) login_admin w (snd out)
           (fst out) l E S P (snd out) eq_refl F).
Defined.

(** X6.  After a successful change of the admin password nobody is admitted
    at the gate as the admin through an API token other than the one derived
    from the new password: a request admitted under the admin's id carries
    a valid access token or the new API token. *)
Theorem password_change_replaces_the_api_token {vendor : Vendor}
    (req : UpdateSettingsRequest) (password : string) (w w1 : World) (resp : Response) :
  UpdateSettingsRequest_AdminPassword req = Some password ->
  password <> "" ->
  handlers.UpdateSettings (Some req) w = (resp, w1) ->
  Status resp = StatusOK ->
  exists admin,
    head (filter (fun u => User_Username u = Admin_Username (cfg w)) (users (store w)))
    = Some admin /\
    forall authHeader w2 name w3,
      store w2 = store w1 ->
      middleware.AuthMiddleware authHeader w2 = (middleware.Next (User_ID admin) name, w3) ->
      exists scheme tokenString,
        middleware.SplitN2 authHeader = [scheme; tokenString] /\
        (jwt_valid tokenString w2 = true \/
         tokenString = auth.GenerateAPIToken password (AccessSecret (JWT (cfg w)))).
Proof.
  intros P N E S.
  apply UpdateSettings_ok_inv in E as (w0 & U & Us & _ & _ & _ & _ & _ & _ & Ad & _); [|exact S].
  rewrite P, decide_False in U by exact N.
  apply update_admin_password_users in U as (user & salt & h & Hd & B & Us1 & _).
  exists user. split; [rewrite <- Ad, <- Us; exact Hd|].
  intros authHeader w2 name w3 St G.
  apply AuthMiddleware_Next_inv in G as (scheme & tok & Sp & _ & _ & [J|(u & I & Id & T)]).
  - exists scheme, tok. auto.
  - exists scheme, tok. split; [exact Sp|]. right.
    rewrite St, Us1 in I. apply list_elem_of_fmap in I as (u0 & -> & I).
    destruct (decide (User_ID u0 = User_ID user)) as [_|Ne].
    + cbn in T. rewrite <- T. reflexivity.
    + contradiction.
Qed.

Lemma password_change_replaces_the_api_token_witness :
  let old := "ZNUMuJ6n0Y_seSrYUDBbvKUapW1-zWvQtF2-AY3QC8Q" in
  let w := set_entropy [[x01]]
             (sample_world (sample_db [admin_user old] [] []) 0 []) in
  let out := handlers.UpdateSettings (vendor := sample_vendor)
               (Some (change_password "new-password")) w in
  fst (middleware.AuthMiddleware (vendor := sample_vendor) ("Bearer " +:+ old) w)
  = middleware.Next 1 "admin" /\
  forall name w3,
    middleware.AuthMiddleware (vendor := sample_vendor) ("Bearer " +:+ old) (snd out)
    <> (middleware.Next 1 name, w3).
Proof.
  intros old w out. split; [vm_compute; reflexivity|].
  assert (E : handlers.UpdateSettings (vendor := sample_vendor)
                (Some (change_password "new-password")) w = (fst out, snd out))
    by (subst out; destruct (handlers.UpdateSettings _ w); reflexivity).
  assert (S : Status (fst out) = StatusOK) by (vm_compute; reflexivity).
  assert (J : jwt_valid (vendor := sample_vendor) old (snd out) = false)
    by (vm_compute; reflexivity).
  clearbody out.
  destruct (password_change_replaces_the_api_token (vendor := sample_vendor)
              (change_password "new-password") "new-password" w (snd out) (fst out)
              eq_refl ltac:(discriminate) E S)
    as (admin & Hd & G).
  vm_compute in Hd. injection Hd as <-.
  intros name w3 A.
  apply (G _ (snd out) name w3 eq_refl) in A as (scheme & tok & Sp & [V|T]).
  - vm_compute in Sp. injection Sp as <- <-. unfold old in J. rewrite J in V. discriminate.
  - vm_compute in Sp. injection Sp as <- <-. vm_compute in T. discriminate.
Defined.

(** ** Settings: what is written is what is read *)

Lemma GetAllSettings_calm (w : World) :
  faults w = [] ->
  db.GetAllSettings w = (Ok (settings (store w)), w).
Proof.
  intros F. unfold db.GetAllSettings, QueryUnlisted, bind, ret, faulty, used. rewrite F. cbn.
  rewrite list_to_map_to_list. destruct w. cbn in *. subst. reflexivity.
Qed.

Lemma settings_written (dn al lo : option string) (m : gmap string string) :
  let m' := put "logging_enabled" lo (put "allowed_ips" al (put "dns" dn m)) in
  m' !! "dns" = match dn with Some v => Some v | None => m !! "dns" end /\
  m' !! "allowed_ips" = match al with Some v => Some v | None => m !! "allowed_ips" end /\
  m' !! "logging_enabled" = match lo with Some v => Some v | None => m !! "logging_enabled" end.
Proof.
  unfold put. destruct dn, al, lo; cbv zeta; repeat split;
    rewrite ?lookup_insert_eq; repeat (rewrite lookup_insert_ne by discriminate);
    rewrite ?lookup_insert_eq; reflexivity.
Qed.

Lemma GetSettings_calm (w : World) :
  faults w = [] ->
  exists s w2,
    handlers.GetSettings w = (inr s, w2) /\ store w2 = store w /\
    SettingsResponse_DNS s
    = match settings (store w) !! "dns" with
      | Some val => if negb (String.eqb val "") then val else DNS (WireGuard (cfg w))
      | None => DNS (WireGuard (cfg w))
      end /\
    SettingsResponse_AllowedIPs s
    = match settings (store w) !! "allowed_ips" with
      | Some val => if negb (String.eqb val "") then val else AllowedIPs (WireGuard (cfg w))
      | None => AllowedIPs (WireGuard (cfg w))
      end /\
    SettingsResponse_LoggingEnabled s
    = match settings (store w) !! "logging_enabled" with
      | Some val => String.eqb val "true"
      | None => false
      end /\
    SettingsResponse_APIToken s
    = match head (filter (fun u => User_Username u = Admin_Username (cfg w))
                    (users (store w))) with
      | Some u => User_APIToken u
      | None => ""
      end.
Proof.
  intros F.
  unfold handlers.GetSettings, bind. rewrite (GetAllSettings_calm w F).
  unfold gets, ret, db.GetUserByUsername, QueryRow, faulty. rewrite F. cbn [hd].
  cbv beta iota.
  destruct (filter _ _) as [|u0 l]; (eexists; eexists; split; [reflexivity|]);
    repeat split.
Qed.

(** X7.  What a successful update of the settings wrote is what the
    settings read back: the DNS, the allowed addresses and the logging flag
    of the request, also when they are empty, and the API token derived from
    a new admin password. *)
Theorem GetSettings_after_UpdateSettings {vendor : Vendor}
    (req : UpdateSettingsRequest) (w w1 : World) (resp : Response) :
  handlers.UpdateSettings (Some req) w = (resp, w1) ->
  Status resp = StatusOK ->
  faults w1 = [] ->
  exists s w2,
    handlers.GetSettings w1 = (inr s, w2) /\ store w2 = store w1 /\
    (forall v, UpdateSettingsRequest_DNS req = Some v -> SettingsResponse_DNS s = v) /\
    (forall v, UpdateSettingsRequest_AllowedIPs req = Some v ->
               SettingsResponse_AllowedIPs s = v) /\
    (forall b, UpdateSettingsRequest_LoggingEnabled req = Some b ->
               SettingsResponse_LoggingEnabled s = b) /\
    (forall p, UpdateSettingsRequest_AdminPassword req = Some p -> p <> "" ->
               SettingsResponse_APIToken s
               = auth.GenerateAPIToken p (AccessSecret (JWT (cfg w)))).
Proof.
  intros E S F.
  apply UpdateSettings_ok_inv in E as (w0 & U & Us & _ & _ & _ & St & Dn & Al & Ad & _); [|exact S].
  assert (K : settings (store w1) = settings (store w0) /\ cfg w1 = cfg w0 /\
              forall p, UpdateSettingsRequest_AdminPassword req = Some p -> p <> "" ->
                exists u, head (filter (fun u => User_Username u = Admin_Username (cfg w1))
                                  (users (store w1))) = Some u /\
                          User_APIToken u = auth.GenerateAPIToken p "").
  { destruct (UpdateSettingsRequest_AdminPassword req) as [p|].
    - destruct (decide (p = "")) as [->|N].
      + subst w1. split; [reflexivity|]. split; [reflexivity|]. intros ? [= <-] C. contradiction.
      + apply update_admin_password_users in U as (user & salt & h & Hd & B & Us1 & _ & S1 & C1 & _).
        split; [exact S1|]. split; [exact C1|]. intros ? [= <-] _.
        rewrite Us1, C1, head_filter_map, Hd.
        2:{ intros x. destruct (decide _); reflexivity. }
        cbn. rewrite decide_True by reflexivity. eexists. split; reflexivity.
    - subst w1. split; [reflexivity|]. split; [reflexivity|]. intros ? [=]. }
  destruct K as (St1 & Cf1 & Tok).
  destruct (GetSettings_calm w1 F) as (s & w2 & G & St2 & D & A & L & T).
  exists s, w2. split; [exact G|]. split; [exact St2|].
  rewrite St1, St in D, A, L. rewrite Cf1 in D, A.
  destruct (settings_written (UpdateSettingsRequest_DNS req)
              (UpdateSettingsRequest_AllowedIPs req)
              (option_map logging_value (UpdateSettingsRequest_LoggingEnabled req))
              (settings (store w))) as (M1 & M2 & M3).
  rewrite M1 in D. rewrite M2 in A. rewrite M3 in L. clear M1 M2 M3.
  repeat split.
  - intros v Ev. rewrite D, Dn, Ev. cbn. destruct (String.eqb v ""); reflexivity.
  - intros v Ev. rewrite A, Al, Ev. cbn. destruct (String.eqb v ""); reflexivity.
  - intros b Eb. rewrite L, Eb. destruct b; reflexivity.
  - intros p Ep Np. destruct (Tok p Ep Np) as (u & Hd & Tk).
    rewrite T, Hd. exact Tk.
Qed.

Lemma GetSettings_after_UpdateSettings_witness :
  let req := {| UpdateSettingsRequest_DNS := Some "9.9.9.9";
                UpdateSettingsRequest_AllowedIPs := Some "";
                UpdateSettingsRequest_LoggingEnabled := Some true;
                UpdateSettingsRequest_AdminPassword := None |} in
  let out := handlers.UpdateSettings (vendor := sample_vendor) (Some req) (session_world []) in
  exists s w2,
    handlers.GetSettings (snd out) = (inr s, w2) /\
    SettingsResponse_DNS s = "9.9.9.9" /\ SettingsResponse_AllowedIPs s = "" /\
    SettingsResponse_LoggingEnabled s = true.
Proof.
  intros req out.
  destruct (GetSettings_after_UpdateSettings (vendor := sample_vendor) req (session_world [])
              (snd out) (fst out)) as (s & w2 & G & _ & D & A & L & _).
  - subst out. destruct (handlers.UpdateSettings _ _). reflexivity.
  - vm_compute. reflexivity.
  - vm_compute. reflexivity.
  - exists s, w2. split; [exact G|].
    split; [apply D; reflexivity|]. split; [apply A; reflexivity | apply L; reflexivity].
Defined.

(** X8.  A setting changed through the API is read again when the service
    starts: the start replaces the DNS and the allowed addresses of the
    configuration by the saved values.  An empty saved value is passed
    over, so a setting that was set to the empty string comes back as the
    configuration file has it. *)
Theorem loadSavedSettings_after_UpdateSettings {vendor : Vendor}
    (req : UpdateSettingsRequest) (w w1 : World) (resp : Response) :
  handlers.UpdateSettings (Some req) w = (resp, w1) ->
  Status resp = StatusOK ->
  forall w2, store w2 = store w1 -> faults w2 = [] ->
    exists w3,
      main.loadSavedSettings w2 = (None, w3) /\ store w3 = store w2 /\
      (forall v, UpdateSettingsRequest_DNS req = Some v ->
                 DNS (WireGuard (cfg w3))
                 = if String.eqb v "" then DNS (WireGuard (cfg w2)) else v) /\
      (forall v, UpdateSettingsRequest_AllowedIPs req = Some v ->
                 AllowedIPs (WireGuard (cfg w3))
                 = if String.eqb v "" then AllowedIPs (WireGuard (cfg w2)) else v).
Proof.
  intros E S w2 St2 F.
  apply UpdateSettings_ok_inv in E as (w0 & U & _ & _ & _ & _ & St & _); [|exact S].
  assert (St1 : settings (store w1) = settings (store w0)).
  { destruct (UpdateSettingsRequest_AdminPassword req) as [p|]; [|subst; reflexivity].
    destruct (decide (p = "")); [subst; reflexivity|].
    apply update_admin_password_users in U as (? & ? & ? & _ & _ & _ & _ & S1 & _). exact S1. }
  destruct (settings_written (UpdateSettingsRequest_DNS req)
              (UpdateSettingsRequest_AllowedIPs req)
              (option_map logging_value (UpdateSettingsRequest_LoggingEnabled req))
              (settings (store w))) as (M1 & M2 & _).
  rewrite <- St, <- St1, <- St2 in M1, M2.
  unfold main.loadSavedSettings, bind. rewrite (GetAllSettings_calm w2 F).
  unfold ret.
  destruct (settings (store w2) !! "dns") as [dns|];
    destruct (settings (store w2) !! "allowed_ips") as [al|];
    try destruct (String.eqb dns "") eqn:Ed; try destruct (String.eqb al "") eqn:Ea;
    cbn [negb]; cbv beta iota.
  all: eexists; split; [reflexivity|]; split; [reflexivity|].
  all: split; intros v Ev; rewrite Ev in *.
  all: try (injection M1 as <-); try (injection M2 as <-); try discriminate.
  all: rewrite ?Ed, ?Ea; reflexivity.
Qed.

Lemma loadSavedSettings_after_UpdateSettings_witness :
  let req := {| UpdateSettingsRequest_DNS := Some "9.9.9.9";
                UpdateSettingsRequest_AllowedIPs := Some "";
                UpdateSettingsRequest_LoggingEnabled := None;
                UpdateSettingsRequest_AdminPassword := None |} in
  let out := handlers.UpdateSettings (vendor := sample_vendor) (Some req) (session_world []) in
  let restart := sample_world (store (snd out)) 0 [] in
  exists w3,
    main.loadSavedSettings restart = (None, w3) /\
    DNS (WireGuard (cfg w3)) = "9.9.9.9" /\ AllowedIPs (WireGuard (cfg w3)) = "0.0.0.0/0".
Proof.
  intros req out restart.
  assert (E : handlers.UpdateSettings (vendor := sample_vendor) (Some req) (session_world [])
              = (fst out, snd out)) by (subst out; destruct (handlers.UpdateSettings _ _); reflexivity).
  assert (S : Status (fst out) = StatusOK) by (vm_compute; reflexivity).
  clearbody out.
  destruct (loadSavedSettings_after_UpdateSettings (vendor := sample_vendor) req
              (session_world []) (snd out) (fst out) E S restart eq_refl eq_refl)
    as (w3 & L & _ & D & A).
  exists w3. split; [exact L|].
  split; [apply (D "9.9.9.9"); reflexivity | apply (A ""); reflexivity].
Defined.

(** X9.  A start that finds no user of the admin's name creates one, its
    password hashed at the configured cost or at 12 when that is lower, and
    without an API token.  A start that finds one leaves the users alone
    and hashes nothing: the configured admin password is read by the first
    start only.  In every case a start that reports no error leaves a user
    of the admin's name behind. *)
Theorem ensureAdminUser_creates_the_admin_once {vendor : Vendor}
    (adminPassword : string) (w : World) :
  let '(e, w1) := main.ensureAdminUser adminPassword w in
  let admin := Admin_Username (cfg w) in
  let named u := User_Username u = admin in
  ((exists u, u ∈ users (store w) /\ named u) ->
   store w1 = store w /\ entropy w1 = entropy w) /\
  (e = None ->
   (exists u, u ∈ users (store w1) /\ named u) /\
   ((forall u, u ∈ users (store w) -> ~ named u) ->
    exists salt h,
      bcrypt_GenerateFromPassword adminPassword
        (Z.max 12 (BcryptCost (Security (cfg w)))) salt = Ok h /\
      users (store w1)
      = users (store w) ++
          [{| User_ID := db.next_rowid (users_seq (store w)) (map User_ID (users (store w)));
              User_Username := admin; User_PasswordHash := h; User_APIToken := "" |}])).
Proof.
  destruct (main.ensureAdminUser adminPassword w) as [e w1] eqn:E. cbv zeta.
  unfold main.ensureAdminUser, db.UserExists, auth.HashPassword, db.CreateUser,
    db.GetUserByID, db.insert_user, QueryRowUnlisted, used in E.
  unfold_m.
  assert (C : (0 <? Z.of_nat (length (filter (fun u => User_Username u = Admin_Username (cfg w))
                                        (users (store w))))) = true
              <-> exists u, u ∈ users (store w) /\ User_Username u = Admin_Username (cfg w)).
  { destruct (filter _ _) as [|u l] eqn:Fl.
    - split; [discriminate|]. intros (u & I & N). exfalso.
      exact (filter_nil_inv _ _ Fl u I N).
    - split; [|reflexivity]. intros _. apply filter_cons_inv in Fl. eauto. }
  assert (Mx : Z.max 12 (BcryptCost (Security (cfg w)))
               = if BcryptCost (Security (cfg w)) <? 12 then 12
                 else BcryptCost (Security (cfg w))).
  { destruct (_ <? 12) eqn:L; [apply Z.ltb_lt in L | apply Z.ltb_ge in L]; lia. }
  rewrite Mx. clear Mx.
  unfold faulty in E. destruct (hd false (faults w)) eqn:Fw; cbn in E.
  { injection E as <- <-. split; [intros _; split; reflexivity | discriminate]. }
  destruct (0 <? _) eqn:X; cbn in E.
  - (* the admin is there *)
    assert (Ex := proj1 C eq_refl). injection E as <- <-.
    split; [intros _; split; reflexivity|].
    intros _. split; [exact Ex|].
    intros N. destruct Ex as (u & I & Nm). exfalso. exact (N u I Nm).
  - assert (No : forall u, u ∈ users (store w) -> User_Username u <> Admin_Username (cfg w)).
    { intros u I Nm. assert (T : false = true) by (apply C; eauto). discriminate. }
    split.
    + intros (u & I & Nm). exfalso. exact (No u I Nm).
    + intros ->.
      assert (Ne : existsb (fun u => String.eqb (User_Username u) (Admin_Username (cfg w)))
                     (users (store w)) = false).
      { apply not_true_is_false. intros T. apply existsb_exists in T as (u & I & T).
        apply String.eqb_eq in T. apply (No u); [apply list_elem_of_In; exact I | exact T]. }
      run.
      all: try match goal with
               | Hb : negb (existsb _ _) = false |- _ => apply negb_false_iff in Hb; congruence
               | Hb : existsb _ _ = true |- _ => congruence
               end.
      all: split; [eexists; split; [apply elem_of_app; right; left|reflexivity]|].
      all: intros _; do 2 eexists; split; [eassumption|reflexivity].
Qed.

(** ** Peers: the registry and the interface *)

(** *** What the peer operations do to the registry and the interface *)

Lemma db_CreatePeer_fresh (p : Peer) (w w1 : World) (r : result Peer) :
  db.CreatePeer p w = (r, w1) ->
  (peers (store w1) = peers (store w) /\ exists e, r = Err e) \/
  (peers (store w1) = peers (store w) ++ [inserted_row p (store w)] /\
   fresh_row (inserted_row p (store w)) (peers (store w)) /\
   (r = Ok (inserted_row p (store w)) \/ r = Err ErrDriver)).
Proof.
  intros E. pose proof E as E'. apply db_CreatePeer_inv in E'. cbv zeta in E'.
  destruct E' as (_ & _ & [(S & _ & X)|(P & U & R)]).
  - left. rewrite S. auto.
  - right. split; [exact P|]. split; [|destruct R as [[R _]|[R _]]; auto].
    intros q I. split; [|apply U; exact I].
    revert E. unfold db.CreatePeer, bind, Exec, db.insert_peer.
    destruct (faulty w).
    { cbn. intros [= _ E]. rewrite <- E in P. cbn in P.
      apply (f_equal (@length _)) in P. rewrite length_app in P. cbn in P. lia. }
    destruct (existsb _ _) eqn:X.
    { cbn. intros [= _ E]. rewrite <- E in P. cbn in P.
      apply (f_equal (@length _)) in P. rewrite length_app in P. cbn in P. lia. }
    intros _ K. cbn in K.
    assert (T : existsb (fun q => String.eqb (Peer_PublicKey q) (Peer_PublicKey p)
                                  || String.eqb (Peer_AssignedIP q) (Peer_AssignedIP p))
                  (peers (store w)) = true); [|congruence].
    apply existsb_exists. exists q. split; [apply list_elem_of_In; exact I|].
    rewrite K, String.eqb_refl. reflexivity.
Qed.

Lemma AddPeer_valid (publicKey assignedIP : string) (w w1 : World) :
  wgmanager.AddPeer publicKey assignedIP w = (None, w1) ->
  wgmanager.ValidatePublicKey publicKey = true /\ wgmanager.ValidateIP assignedIP = true.
Proof.
  unfold wgmanager.AddPeer.
  destruct (wgmanager.ValidatePublicKey publicKey); [|discriminate].
  destruct (wgmanager.ValidateIP assignedIP); [|discriminate]. auto.
Qed.

Lemma CreatePeer_state {vendor : Vendor} (req : CreatePeerRequest) (w w1 : World)
    (resp : Response) :
  handlers.CreatePeer (Some req) w = (resp, w1) ->
  (Status resp <> StatusCreated /\ peers (store w1) = peers (store w)) \/
  exists row,
    fresh_row row (peers (store w)) /\ peers (store w1) = peers (store w) ++ [row] /\
    (Status resp = StatusCreated ->
     resp = JSON StatusCreated (PeerJSON (handlers.PeerResponse_of row)) /\
     Peer_Name row = CreatePeerRequest_Name req /\
     Peer_Enabled row = true /\
     wgmanager.ValidatePublicKey (Peer_PublicKey row) = true /\
     wgmanager.ValidateIP (Peer_AssignedIP row) = true /\
     live w1 = <[Peer_PublicKey row := Peer_AssignedIP row +:+ "/32"]> (live w) /\
     saved w1 = live w1).
Proof.
  unfold handlers.CreatePeer, bind, gets, ret.
  destruct (wgmanager.GenerateKeyPair w) as [k w0] eqn:K.
  apply GenerateKeyPair_inv in K as (S1 & V1 & C1 & L1).
  destruct k as [[privateKey publicKey]|e]; cbv beta iota.
  2:{ intros [= <- <-]. left. split; [discriminate|congruence]. }
  destruct (db.GetNextAvailableIP _ w0) as [a w2] eqn:A.
  apply GetNextAvailableIP_inv in A as (S2 & V2 & C2 & L2).
  destruct a as [assignedIP|e]; cbv beta iota.
  2:{ intros [= <- <-]. left. split; [discriminate|congruence]. }
  destruct (db.CreatePeer _ w2) as [c w3] eqn:C.
  pose proof C as V3. apply db_CreatePeer_inv in V3 as (V3 & _).
  apply db_CreatePeer_fresh in C.
  destruct C as [(P3 & e & ->)|(P3 & U3 & [-> | ->])]; cbv beta iota.
  - intros [= <- <-]. left. split; [discriminate|congruence].
  - destruct (wgmanager.AddPeer publicKey assignedIP w3) as [e w4] eqn:D.
    pose proof D as D'.
    apply AddPeer_inv in D as (S4 & C4 & K4 & evs & L4 & R4 & M4).
    destruct e as [err|]; cbv beta iota.
    + destruct (db.DeletePeer assignedIP w4) as [e5 w5] eqn:X.
      apply db_DeletePeer_inv in X as (V5 & C5 & [(S5 & L5 & _)|(P5 & L5)]);
        intros [= <- <-].
      * right. eexists. split; [|split; [rewrite S5, S4, P3, S2, S1; reflexivity|]].
        -- rewrite <- S1, <- S2. exact U3.
        -- discriminate.
      * left. split; [discriminate|]. rewrite P5, S4, P3.
        rewrite filter_other_ip; [congruence | intros q I; apply U3; exact I | reflexivity].
    + destruct M4 as (-> & Lv & Sv). apply AddPeer_valid in D' as [Vk Vi].
      intros [= <- <-]. right. eexists.
      split; [rewrite <- S1, <- S2; exact U3|].
      split; [rewrite S4, P3, S2, S1; reflexivity|].
      intros _. split; [reflexivity|]. split; [reflexivity|]. split; [reflexivity|].
      split; [exact Vk|]. split; [exact Vi|]. split; [|exact Sv].
      rewrite Lv, V3, V2, V1. reflexivity.
  - intros [= <- <-]. right. eexists.
    split; [rewrite <- S1, <- S2; exact U3|].
    split; [rewrite P3, S2, S1; reflexivity|]. discriminate.
Qed.

Lemma DeletePeer_state (ip : string) (w w1 : World) (resp : Response) :
  handlers.DeletePeer ip w = (resp, w1) ->
  (Status resp <> StatusOK /\ peers (store w1) = peers (store w)) \/
  exists peer,
    persisted ip w peer /\
    wgmanager.ValidateIP ip = true /\
    resp = JSON StatusOK (H [("message", "Peer deleted successfully")]) /\
    peers (store w1) = filter (fun p => Peer_AssignedIP p <> ip) (peers (store w)) /\
    live w1 = delete (Peer_PublicKey peer) (live w) /\ saved w1 = live w1.
Proof.
  unfold handlers.DeletePeer.
  destruct (wgmanager.ValidateIP ip) eqn:V; cbn [negb].
  2:{ intros [= <- <-]. left. split; [discriminate|reflexivity]. }
  unfold bind.
  destruct (db.GetPeerByIP ip w) as [r w0] eqn:G.
  unfold db.GetPeerByIP in G. apply QueryRow_inv in G as [W0 G].
  destruct r as [peer|e].
  2:{ intros [= <- <-]. left. split; [discriminate|]. subst w0. reflexivity. }
  destruct G as [F Hd].
  destruct (wgmanager.RemovePeer _ w0) as [e w2] eqn:R.
  apply RemovePeer_inv in R as (S2 & C2 & K2 & evs & L2 & R2 & M2).
  destruct e as [err|].
  { intros [= <- <-]. left. split; [discriminate|]. rewrite S2. subst w0. reflexivity. }
  destruct M2 as (-> & Lv & Sv).
  destruct (db.DeletePeer ip w2) as [e5 w5] eqn:X.
  pose proof X as X'. apply db_DeletePeer_inv in X' as (V5 & C5 & _).
  revert X. unfold db.DeletePeer, bind, Exec, db.delete_peers.
  destruct (faulty w2).
  { intros [= <- <-]. intros [= <- <-]. left. split; [discriminate|]. cbn.
    rewrite S2. subst w0. reflexivity. }
  cbn [RowsAffected ret]. 
  assert (Nz : (Z.of_nat (length (filter (fun p => Peer_AssignedIP p = ip) (peers (store w2))))
                =? 0) = false).
  { rewrite S2. subst w0. cbn [store stepped].
    destruct (filter _ _); [discriminate|]. reflexivity. }
  rewrite Nz. intros [= <- <-]. intros [= <- <-].
  right. exists peer. split; [exact Hd|]. split; [reflexivity|]. split; [reflexivity|].
  cbn. rewrite Sv, S2, Lv. subst w0. cbn. auto.
Qed.

Lemma updated_None (p : Peer) : updated None None p = p.
Proof. destruct p. reflexivity. Qed.

Lemma map_updated_None (ip : string) (ps : list Peer) :
  map (fun p => if decide (Peer_AssignedIP p = ip) then updated None None p else p) ps = ps.
Proof.
  rewrite <- (map_id ps) at 2. apply map_ext. intros p.
  destruct (decide _); [apply updated_None | reflexivity].
Qed.

Lemma map_map_peers (f g : Peer -> Peer) (ip : string) (ps : list Peer) :
  (forall p, Peer_AssignedIP (f p) = Peer_AssignedIP p) ->
  map (fun p => if decide (Peer_AssignedIP p = ip) then g p else p)
    (map (fun p => if decide (Peer_AssignedIP p = ip) then f p else p) ps)
  = map (fun p => if decide (Peer_AssignedIP p = ip) then g (f p) else p) ps.
Proof.
  intros Hf. rewrite map_map. apply map_ext. intros p.
  destruct (decide (Peer_AssignedIP p = ip)) as [E|N].
  - rewrite decide_True by (rewrite Hf; exact E). reflexivity.
  - rewrite decide_False by exact N. reflexivity.
Qed.

Lemma db_UpdatePeer_state (ip : string) (name : option string) (enabled : option bool)
    (w w1 : World) (r : result Peer) :
  db.UpdatePeer ip name enabled w = (r, w1) ->
  live w1 = live w /\ saved w1 = saved w /\
  exists n e,
    peers (store w1)
    = map (fun p => if decide (Peer_AssignedIP p = ip) then updated n e p else p)
        (peers (store w)) /\
    (is_ok r = true -> n = name /\ e = enabled).
Proof.
  unfold db.UpdatePeer, db.GetPeerByIP, db.update_peers, db.set_peers. unfold_m.
  intros E.
  destruct name as [n|], enabled as [e|]; run.
  all: split; [reflexivity|]; split; [reflexivity|].
  all: try (exists None, None; split; [symmetry; apply map_updated_None | discriminate]).
  all: try (eexists _, _; split; [|intros _; split; reflexivity];
            first [ rewrite map_map_peers by reflexivity; reflexivity
                  | reflexivity
                  | symmetry; apply map_updated_None ]).
  all: try (exists (Some n), None; split; [reflexivity | discriminate]).
Qed.

Lemma UpdatePeer_state (ip : string) (req : UpdatePeerRequest) (w w1 : World)
    (resp : Response) :
  handlers.UpdatePeer ip (Some req) w = (resp, w1) ->
  exists n e,
    peers (store w1)
    = map (fun p => if decide (Peer_AssignedIP p = ip) then updated n e p else p)
        (peers (store w)) /\
    (Status resp = StatusOK ->
     n = UpdatePeerRequest_Name req /\ e = UpdatePeerRequest_Enabled req /\
     exists peer,
       persisted ip w peer /\
       resp = JSON StatusOK (PeerJSON (handlers.PeerResponse_of
                                         (updated n e peer))) /\
       live w1 = toggled (UpdatePeerRequest_Enabled req) peer (live w)).
Proof.
  unfold handlers.UpdatePeer.
  destruct (wgmanager.ValidateIP ip) eqn:V; cbn [negb].
  2:{ intros [= <- <-]. exists None, None.
      split; [symmetry; apply map_updated_None | discriminate]. }
  unfold bind.
  destruct (db.GetPeerByIP ip w) as [r w0] eqn:G.
  unfold db.GetPeerByIP in G. apply QueryRow_inv in G as [W0 G].
  destruct r as [peer|e0].
  2:{ intros [= <- <-]. exists None, None. subst w0.
      split; [symmetry; apply map_updated_None | discriminate]. }
  destruct G as [F Hd].
  assert (S0 : store w0 = store w /\ live w0 = live w) by (subst w0; auto).
  destruct S0 as [S0 L0]. clear W0.
  set (tog := match UpdatePeerRequest_Enabled req with
              | Some enabled => _ | None => _ end).
  destruct (tog w0) as [t w2] eqn:T.
  assert (K : store w2 = store w /\
              (t = None -> live w2 = toggled (UpdatePeerRequest_Enabled req) peer (live w))).
  { subst tog. unfold toggled. destruct (UpdatePeerRequest_Enabled req) as [[|]|].
    - destruct (Peer_Enabled peer); cbn [negb andb] in T.
      + injection T as <- <-. auto.
      + unfold bind in T.
        destruct (wgmanager.AddPeer _ _ w0) as [e w3] eqn:A.
        apply AddPeer_inv in A as (S3 & _ & _ & evs & _ & _ & M).
        injection T as <- <-. split; [congruence|].
        destruct e; [discriminate|]. intros _. destruct M as (_ & Lv & _). congruence.
    - destruct (Peer_Enabled peer); cbn [negb andb] in T.
      + unfold bind in T.
        destruct (wgmanager.RemovePeer _ w0) as [e w3] eqn:A.
        apply RemovePeer_inv in A as (S3 & _ & _ & evs & _ & _ & M).
        injection T as <- <-. split; [congruence|].
        destruct e; [discriminate|]. intros _. destruct M as (_ & Lv & _). congruence.
      + injection T as <- <-. auto.
    - injection T as <- <-. auto. }
  destruct K as [S2 L2]. clearbody tog.
  destruct t as [[msg err]|].
  { intros [= <- <-]. exists None, None. rewrite S2.
    split; [symmetry; apply map_updated_None | discriminate]. }
  destruct (db.UpdatePeer ip _ _ w2) as [u w3] eqn:U. 
  pose proof U as U'. apply db_UpdatePeer_state in U' as (Lv & _ & n & e & P & Ok').
  destruct u as [updatedPeer|e1]; intros [= <- <-].
  2:{ exists n, e. rewrite P, S2. split; [reflexivity|discriminate]. }
  exists n, e. rewrite P, S2. split; [reflexivity|]. intros _.
  destruct (Ok' eq_refl) as [-> ->]. split; [reflexivity|]. split; [reflexivity|].
  exists peer. split; [exact Hd|]. split.
  - revert U. unfold db.UpdatePeer, bind, ret.
    set (q1 := match UpdatePeerRequest_Name req with Some _ => _ | None => _ end).
    destruct (q1 w2) as [[r1|e1] w4]; [|discriminate].
    set (q2 := match UpdatePeerRequest_Enabled req with Some _ => _ | None => _ end).
    destruct (q2 w4) as [[r2|e2] w5] eqn:Q2; [|discriminate].
    intros G. unfold db.GetPeerByIP in G. apply QueryRow_inv in G as [W3 [_ Hd3]].
    assert (S5 : store w5 = store w3) by (subst w3; reflexivity).
    rewrite S5, P, S2 in Hd3.
    rewrite head_filter_map in Hd3.
    2:{ intros x. destruct (decide _); reflexivity. }
    unfold persisted in Hd. rewrite Hd in Hd3. cbn in Hd3.
    apply head_Some_elem_of, list_elem_of_filter in Hd as [Ei _].
    rewrite decide_True in Hd3 by exact Ei. injection Hd3 as <-. reflexivity.
  - rewrite Lv. apply L2. reflexivity.
Qed.

(** *** Uniqueness of addresses and keys *)

Lemma NoDup_map_filter {A B} (f : A -> B) (P : A -> Prop) `{!forall x, Decision (P x)}
    (l : list A) :
  NoDup (map f l) -> NoDup (map f (filter P l)).
Proof.
  induction l as [|a l IH]; [auto|]. cbn [map]. intros N.
  apply NoDup_cons in N as [Na N]. rewrite filter_cons.
  destruct (decide (P a)); [|auto]. cbn [map]. apply NoDup_cons. split; [|auto].
  intros I. apply Na. apply list_elem_of_fmap in I as (x & E & I).
  apply list_elem_of_filter in I as [_ I]. apply list_elem_of_fmap. eauto.
Qed.

Lemma NoDup_map_snoc {A B} (f : A -> B) (l : list A) (x : A) :
  NoDup (map f l) -> (forall y, y ∈ l -> f y <> f x) -> NoDup (map f (l ++ [x])).
Proof.
  intros N Fr. rewrite map_app. apply NoDup_app. split; [exact N|]. split.
  - intros b I J. apply list_elem_of_fmap in I as (y & -> & I).
    apply list_elem_of_singleton in J. exact (Fr y I J).
  - apply NoDup_singleton.
Qed.

Lemma NoDup_map_eq {A B} (f : A -> B) (l : list A) (x y : A) :
  NoDup (map f l) -> x ∈ l -> y ∈ l -> f x = f y -> x = y.
Proof.
  induction l as [|a l IH]; intros N Ix Iy E; [inversion Ix|].
  cbn [map] in N. apply NoDup_cons in N as [Na N].
  apply elem_of_cons in Ix as [->|Ix], Iy as [->|Iy]; auto.
  - exfalso. apply Na. rewrite E. apply list_elem_of_fmap. eauto.
  - exfalso. apply Na. rewrite <- E. apply list_elem_of_fmap. eauto.
Qed.

Lemma peers_unique_map (f : Peer -> Peer) (d d' : Database) :
  (forall p, Peer_AssignedIP (f p) = Peer_AssignedIP p /\
             Peer_PublicKey (f p) = Peer_PublicKey p) ->
  peers d' = map f (peers d) -> peers_unique d -> peers_unique d'.
Proof.
  intros Hf E [N1 N2]. unfold peers_unique. rewrite E, !map_map.
  rewrite (map_ext (fun p => Peer_AssignedIP (f p)) Peer_AssignedIP) by (intros; apply Hf).
  rewrite (map_ext (fun p => Peer_PublicKey (f p)) Peer_PublicKey) by (intros; apply Hf).
  auto.
Qed.

Lemma peers_unique_eq (d d' : Database) :
  peers d' = peers d -> peers_unique d -> peers_unique d'.
Proof. unfold peers_unique. intros ->. auto. Qed.

Lemma peers_unique_filter (P : Peer -> Prop) `{!forall x, Decision (P x)} (d d' : Database) :
  peers d' = filter P (peers d) -> peers_unique d -> peers_unique d'.
Proof.
  unfold peers_unique. intros -> [N1 N2]. split; apply NoDup_map_filter; assumption.
Qed.

Lemma peers_unique_snoc (row : Peer) (d d' : Database) :
  peers d' = peers d ++ [row] -> fresh_row row (peers d) -> peers_unique d -> peers_unique d'.
Proof.
  unfold peers_unique. intros -> Fr [N1 N2].
  split; apply NoDup_map_snoc; auto; intros y I; apply Fr; exact I.
Qed.

(** X10.  Whatever the outcome of a peer operation (also a failure half way
    through, or a roll-back that did not happen), the registry afterwards
    holds no two peers with the same address and no two with the same
    public key, provided it held none before. *)
Theorem peer_operations_keep_addresses_and_keys_unique {vendor : Vendor} (w : World) :
  peers_unique (store w) ->
  (forall body, peers_unique (store (snd (handlers.CreatePeer body w)))) /\
  (forall ip body, peers_unique (store (snd (handlers.UpdatePeer ip body w)))) /\
  (forall ip, peers_unique (store (snd (handlers.DeletePeer ip w)))).
Proof.
  intros U. split; [|split].
  - intros [req|]; [|exact U].
    destruct (handlers.CreatePeer (Some req) w) as [resp w1] eqn:E. cbn [snd].
    apply CreatePeer_state in E as [[_ P]|(row & Fr & P & _)].
    + exact (peers_unique_eq _ _ P U).
    + exact (peers_unique_snoc _ _ _ P Fr U).
  - intros ip [req|].
    2:{ unfold handlers.UpdatePeer. destruct (negb _); exact U. }
    destruct (handlers.UpdatePeer ip (Some req) w) as [resp w1] eqn:E. cbn [snd].
    apply UpdatePeer_state in E as (n & e & P & _).
    refine (peers_unique_map _ _ _ _ P U).
    intros p. destruct (decide _); split; reflexivity.
  - intros ip.
    destruct (handlers.DeletePeer ip w) as [resp w1] eqn:E. cbn [snd].
    apply DeletePeer_state in E as [[_ P]|(peer & _ & _ & _ & P & _)].
    + exact (peers_unique_eq _ _ P U).
    + exact (peers_unique_filter _ _ _ P U).
Qed.

(** *** The interface against the registry *)

Lemma persisted_elem (ip : string) (w : World) (peer : Peer) :
  persisted ip w peer -> peer ∈ peers (store w) /\ Peer_AssignedIP peer = ip.
Proof.
  unfold persisted. intros Hd.
  apply head_Some_elem_of, list_elem_of_filter in Hd. tauto.
Qed.

Lemma in_sync_create (w w1 : World) (row : Peer) :
  in_sync w -> fresh_row row (peers (store w)) -> Peer_Enabled row = true ->
  peers (store w1) = peers (store w) ++ [row] ->
  live w1 = <[Peer_PublicKey row := Peer_AssignedIP row +:+ "/32"]> (live w) ->
  in_sync w1.
Proof.
  intros Sy Fr En P L k a. rewrite P, L.
  destruct (decide (k = Peer_PublicKey row)) as [->|N].
  - rewrite lookup_insert_eq. split.
    + intros [= <-]. exists row. split; [apply elem_of_app; right; left|auto].
    + intros (p & I & _ & K & ->). apply elem_of_app in I as [I|I].
      * exfalso. exact (proj1 (Fr p I) K).
      * apply list_elem_of_singleton in I. subst p. reflexivity.
  - rewrite lookup_insert_ne by congruence. rewrite (Sy k a). split.
    + intros (p & I & R). exists p. split; [apply elem_of_app; left; exact I | exact R].
    + intros (p & I & E & K & A). apply elem_of_app in I as [I|I]; [eauto 6|].
      apply list_elem_of_singleton in I. subst p. congruence.
Qed.

Lemma in_sync_delete (ip : string) (w w1 : World) (peer : Peer) :
  peers_unique (store w) -> in_sync w -> persisted ip w peer ->
  peers (store w1) = filter (fun p => Peer_AssignedIP p <> ip) (peers (store w)) ->
  live w1 = delete (Peer_PublicKey peer) (live w) ->
  in_sync w1.
Proof.
  intros [U1 U2] Sy Hd P L k a. apply persisted_elem in Hd as [Ip Ei]. rewrite P, L.
  destruct (decide (k = Peer_PublicKey peer)) as [->|N].
  - rewrite lookup_delete_eq. split; [discriminate|].
    intros (p & I & _ & K & _). apply list_elem_of_filter in I as [Ne I].
    assert (p = peer) by (apply (NoDup_map_eq Peer_PublicKey _ _ _ U2 I Ip K)).
    subst p. contradiction.
  - rewrite lookup_delete_ne by congruence. rewrite (Sy k a). split.
    + intros (p & I & E & K & A). exists p. split; [|auto].
      apply list_elem_of_filter. split; [|exact I]. intros Ep.
      assert (p = peer).
      { apply (NoDup_map_eq Peer_AssignedIP _ _ _ U1 I Ip). congruence. }
      subst p. congruence.
    + intros (p & I & R). apply list_elem_of_filter in I as [_ I]. eauto.
Qed.

Lemma in_sync_update (ip : string) (n : option string) (e : option bool) (w w1 : World)
    (peer : Peer) :
  peers_unique (store w) -> in_sync w -> persisted ip w peer ->
  peers (store w1)
  = map (fun p => if decide (Peer_AssignedIP p = ip) then updated n e p else p)
      (peers (store w)) ->
  live w1 = toggled e peer (live w) ->
  in_sync w1.
Proof.
  intros [U1 U2] Sy Hd P L k a. apply persisted_elem in Hd as [Ip Ei]. rewrite P, L.
  assert (Only : forall p, p ∈ peers (store w) -> Peer_AssignedIP p = ip -> p = peer).
  { intros p I E. apply (NoDup_map_eq Peer_AssignedIP _ _ _ U1 I Ip). congruence. }
  assert (Key : forall p, p ∈ peers (store w) ->
                          Peer_PublicKey p = Peer_PublicKey peer -> p = peer).
  { intros p I E. exact (NoDup_map_eq Peer_PublicKey _ _ _ U2 I Ip E). }
  set (g := fun p => if decide (Peer_AssignedIP p = ip) then updated n e p else p).
  assert (G : forall p, Peer_PublicKey (g p) = Peer_PublicKey p /\
                        Peer_AssignedIP (g p) = Peer_AssignedIP p /\
                        Peer_Enabled (g p)
                        = if decide (Peer_AssignedIP p = ip)
                          then default (Peer_Enabled p) e else Peer_Enabled p).
  { intros p. unfold g. destruct (decide _); auto. }
  assert (M : (exists p', p' ∈ map g (peers (store w)) /\ Peer_Enabled p' = true /\
                          Peer_PublicKey p' = k /\ a = Peer_AssignedIP p' +:+ "/32")
              <-> exists p, p ∈ peers (store w) /\ Peer_Enabled (g p) = true /\
                            Peer_PublicKey p = k /\ a = Peer_AssignedIP p +:+ "/32").
  { split.
    - intros (p' & I & E & K & A). apply list_elem_of_fmap in I as (p & -> & I).
      destruct (G p) as (Gk & Gi & _). exists p. rewrite <- Gk, <- Gi. auto.
    - intros (p & I & E & K & A). exists (g p).
      destruct (G p) as (Gk & Gi & _). rewrite Gk, Gi.
      split; [apply list_elem_of_fmap; eauto | auto]. }
  rewrite M. clear M.
  assert (Same : forall p, p ∈ peers (store w) -> p <> peer ->
                           Peer_Enabled (g p) = Peer_Enabled p).
  { intros p I Np. destruct (G p) as (_ & _ & ->).
    destruct (decide _) as [E|_]; [|reflexivity]. exfalso. apply Np, Only; assumption. }
  assert (Gp : Peer_Enabled (g peer) = default (Peer_Enabled peer) e).
  { destruct (G peer) as (_ & _ & ->). rewrite decide_True by exact Ei. reflexivity. }
  assert (Unchanged : default (Peer_Enabled peer) e = Peer_Enabled peer ->
                      (live w !! k = Some a <->
                       exists p, p ∈ peers (store w) /\ Peer_Enabled (g p) = true /\
                                 Peer_PublicKey p = k /\ a = Peer_AssignedIP p +:+ "/32")).
  { intros D.
    assert (All : forall p, p ∈ peers (store w) -> Peer_Enabled (g p) = Peer_Enabled p).
    { intros p I. destruct (G p) as (_ & _ & ->).
      destruct (decide _) as [E|_]; [|reflexivity]. rewrite (Only p I E). exact D. }
    rewrite (Sy k a). split; intros (p & I & E & R); exists p; (split; [exact I|]);
      (split; [|exact R]).
    - rewrite All by exact I. exact E.
    - rewrite All in E by exact I. exact E. }
  unfold toggled. destruct e as [[|]|]; cbn [default] in *.
  - destruct (Peer_Enabled peer) eqn:En; [apply Unchanged; reflexivity|].
    destruct (decide (k = Peer_PublicKey peer)) as [->|N].
    + rewrite lookup_insert_eq. split.
      * intros [= <-]. exists peer. auto.
      * intros (p & I & _ & K & ->). rewrite (Key p I K). reflexivity.
    + rewrite lookup_insert_ne by congruence. rewrite (Sy k a).
      split; intros (p & I & E & K & A); exists p; (split; [exact I|]); (split; [|auto]);
        assert (Np : p <> peer) by congruence.
      * rewrite Same by assumption. exact E.
      * rewrite Same in E by assumption. exact E.
  - destruct (Peer_Enabled peer) eqn:En; [|apply Unchanged; reflexivity].
    destruct (decide (k = Peer_PublicKey peer)) as [->|N].
    + rewrite lookup_delete_eq. split; [discriminate|].
      intros (p & I & E & K & _). rewrite (Key p I K), Gp in E. discriminate.
    + rewrite lookup_delete_ne by congruence. rewrite (Sy k a).
      split; intros (p & I & E & K & A); exists p; (split; [exact I|]); (split; [|auto]);
        assert (Np : p <> peer) by congruence.
      * rewrite Same by assumption. exact E.
      * rewrite Same in E by assumption. exact E.
  - apply Unchanged. reflexivity.
Qed.

(** X11.  A peer operation that succeeds keeps the live interface in line
    with the registry: when the peers of the interface were exactly the
    enabled rows, each under its key with its address as a /32, they are so
    again after a create answered 201, an update answered 200 and a delete
    answered 200. *)
Theorem successful_peer_operations_keep_the_interface_in_sync {vendor : Vendor} (w : World) :
  peers_unique (store w) ->
  in_sync w ->
  (forall body resp w1,
      handlers.CreatePeer body w = (resp, w1) -> Status resp = StatusCreated -> in_sync w1) /\
  (forall ip body resp w1,
      handlers.UpdatePeer ip body w = (resp, w1) -> Status resp = StatusOK -> in_sync w1) /\
  (forall ip resp w1,
      handlers.DeletePeer ip w = (resp, w1) -> Status resp = StatusOK -> in_sync w1).
Proof.
  intros U Sy. split; [|split].
  - intros [req|] resp w1 E S; [|injection E as <- <-; discriminate].
    apply CreatePeer_state in E as [[N _]|(row & Fr & P & Ok')]; [contradiction|].
    destruct (Ok' S) as (_ & _ & En & _ & _ & L & _).
    exact (in_sync_create w w1 row Sy Fr En P L).
  - intros ip [req|] resp w1 E S.
    2:{ unfold handlers.UpdatePeer in E. destruct (negb _); injection E as <- <-; discriminate. }
    apply UpdatePeer_state in E as (n & e & P & Ok').
    destruct (Ok' S) as (-> & -> & peer & Hd & _ & L).
    exact (in_sync_update ip _ _ w w1 peer U Sy Hd P L).
  - intros ip resp w1 E S.
    apply DeletePeer_state in E as [[N _]|(peer & Hd & _ & _ & P & L & _)]; [contradiction|].
    exact (in_sync_delete ip w w1 peer U Sy Hd P L).
Qed.

Lemma peers_unique_witness_db :
  peers_unique (sample_db [] [sample_peer 1 2 true; sample_peer 2 3 false] []).
Proof. split; apply (bool_decide_unpack _); vm_compute; exact I. Qed.

Lemma peer_operations_keep_addresses_and_keys_unique_witness :
  let w := sample_world (sample_db [] [sample_peer 1 2 true; sample_peer 2 3 false] []) 0 [] in
  peers_unique (store (snd (handlers.CreatePeer (vendor := sample_vendor)
                              (Some {| CreatePeerRequest_Name := "laptop" |}) w))) /\
  peers_unique (store (snd (handlers.DeletePeer "10.8.0.2" w))).
Proof.
  intros w.
  destruct (peer_operations_keep_addresses_and_keys_unique (vendor := sample_vendor) w
              peers_unique_witness_db) as (C & _ & D).
  split; [apply C | apply D].
Defined.

Lemma in_sync_empty : in_sync (sample_world (sample_db [] [] []) 0 []).
Proof.
  intros k a. cbn. rewrite lookup_empty. split; [discriminate|].
  intros (p & I & _). inversion I.
Qed.

Lemma successful_peer_operations_keep_the_interface_in_sync_witness :
  let w := sample_world (sample_db [] [] []) 0 [] in
  let out := handlers.CreatePeer (vendor := sample_vendor)
               (Some {| CreatePeerRequest_Name := "laptop" |}) w in
  Status (fst out) = StatusCreated /\ in_sync (snd out).
Proof.
  intros w out.
  assert (E : handlers.CreatePeer (vendor := sample_vendor)
                (Some {| CreatePeerRequest_Name := "laptop" |}) w = (fst out, snd out))
    by (subst out; destruct (handlers.CreatePeer _ w); reflexivity).
  assert (S : Status (fst out) = StatusCreated) by (vm_compute; reflexivity).
  clearbody out. split; [exact S|].
  destruct (successful_peer_operations_keep_the_interface_in_sync (vendor := sample_vendor) w)
    as (C & _ & _).
  - split; constructor.
  - exact in_sync_empty.
  - exact (C _ _ _ E S).
Defined.

(** *** Steps that do not fail *)

Lemma QueryRow_calm {A} (q : Sql) (rows : Database -> list A) (w : World) :
  faults w = [] ->
  QueryRow q rows w
  = (match rows (store w) with r :: _ => Ok r | [] => Err ErrNoRows end,
     stepped (ESql q true) w).
Proof. intros F. unfold QueryRow, faulty. rewrite F. cbn. destruct (rows _); reflexivity. Qed.

Lemma Run_calm (c : Cmd) (w : World) :
  faults w = [] -> Run c w = (true, stepped (ERun (argv c) true) (tool c w)).
Proof. intros F. unfold Run, faulty. rewrite F. reflexivity. Qed.

Lemma delete_insert_same (k v : string) (m : gmap string string) :
  delete k (<[k := v]> m) = delete k m.
Proof.
  apply map_eq. intros i. destruct (decide (i = k)) as [->|N].
  - rewrite !lookup_delete_eq. reflexivity.
  - rewrite !lookup_delete_ne, lookup_insert_ne by congruence. reflexivity.
Qed.

(** X12.  Deleting the peer that a create has just answered with undoes the
    create: while no step fails the delete is answered 200, the registry
    holds the rows it held before the create, and the key is gone from the
    live interface and from the saved configuration. *)
Theorem DeletePeer_undoes_CreatePeer {vendor : Vendor}
    (req : CreatePeerRequest) (w w1 : World) (resp : Response) (created : PeerResponse) :
  handlers.CreatePeer (Some req) w = (resp, w1) ->
  Status resp = StatusCreated ->
  Payload resp = PeerJSON created ->
  faults w1 = [] ->
  exists w2,
    handlers.DeletePeer (PeerResponse_AssignedIP created) w1
    = (JSON StatusOK (H [("message", "Peer deleted successfully")]), w2) /\
    peers (store w2) = peers (store w) /\
    live w2 = delete (PeerResponse_PublicKey created) (live w) /\
    saved w2 = live w2.
Proof.
  intros E S P F.
  apply CreatePeer_state in E as [[N _]|(row & Fr & Ps & Ok')]; [contradiction|].
  destruct (Ok' S) as (-> & _ & En & Vk & Vi & L & _).
  cbn in P. injection P as <-. cbn [handlers.PeerResponse_of PeerResponse_AssignedIP
    PeerResponse_PublicKey].
  assert (Fi : filter (fun p => Peer_AssignedIP p = Peer_AssignedIP row) (peers (store w1))
               = [row]).
  { rewrite Ps, filter_app, (filter_none _ (peers (store w)))
      by (intros q I; apply Fr; exact I).
    cbn [app]. rewrite filter_cons, decide_True by reflexivity. reflexivity. }
  unfold handlers.DeletePeer. rewrite Vi. cbn [negb]. unfold bind.
  unfold db.GetPeerByIP. rewrite (QueryRow_calm _ _ _ F), Fi.
  unfold wgmanager.RemovePeer. rewrite Vk. cbn [negb]. unfold bind, wgmanager.iface, gets.
  rewrite Run_calm by (cbn; rewrite F; reflexivity). cbn [negb].
  unfold wgmanager.SaveConfig, bind, wgmanager.iface, gets.
  rewrite Run_calm by (cbn; rewrite F; reflexivity). unfold ret.
  unfold db.DeletePeer, bind, Exec, faulty, db.delete_peers. cbn. rewrite F. cbn.
  rewrite Fi. cbn.
  eexists. split; [reflexivity|]. cbn.
  split; [rewrite Ps; apply filter_other_ip; [intros q I; apply Fr; exact I | reflexivity]|].
  rewrite L. split; [apply delete_insert_same | reflexivity].
Qed.

Lemma DeletePeer_undoes_CreatePeer_witness :
  let w := sample_world (sample_db [] [sample_peer 1 2 true] []) 0 [] in
  let out := handlers.CreatePeer (vendor := sample_vendor)
               (Some {| CreatePeerRequest_Name := "laptop" |}) w in
  exists created w2,
    Payload (fst out) = PeerJSON created /\
    PeerResponse_AssignedIP created = "10.8.0.3" /\
    handlers.DeletePeer "10.8.0.3" (snd out)
    = (JSON StatusOK (H [("message", "Peer deleted successfully")]), w2) /\
    peers (store w2) = peers (store w).
Proof.
  intros w out.
  assert (E : handlers.CreatePeer (vendor := sample_vendor)
                (Some {| CreatePeerRequest_Name := "laptop" |}) w = (fst out, snd out))
    by (subst out; destruct (handlers.CreatePeer _ w); reflexivity).
  assert (S : Status (fst out) = StatusCreated) by (vm_compute; reflexivity).
  assert (F : faults (snd out) = []) by (vm_compute; reflexivity).
  assert (P : exists created, Payload (fst out) = PeerJSON created /\
                              PeerResponse_AssignedIP created = "10.8.0.3")
    by (vm_compute; eexists; split; reflexivity).
  clearbody out. destruct P as (created & P & A).
  destruct (DeletePeer_undoes_CreatePeer (vendor := sample_vendor) _ w (snd out) (fst out)
              created E S P F) as (w2 & D & Ps & _).
  exists created, w2. rewrite A in D. auto.
Defined.

(** ** The synchronisation at the start and the client configuration *)

Lemma AddPeer_live (publicKey assignedIP : string) (w w1 : World) (e : option error) :
  wgmanager.AddPeer publicKey assignedIP w = (e, w1) ->
  live w1 = live w \/ live w1 = <[publicKey := assignedIP +:+ "/32"]> (live w).
Proof.
  unfold wgmanager.AddPeer, wgmanager.SaveConfig, wgmanager.iface. unfold_m.
  intros E. run; auto.
Qed.

Lemma AddPeer_calm (publicKey assignedIP : string) (w : World) :
  faults w = [] ->
  wgmanager.ValidatePublicKey publicKey = true ->
  wgmanager.ValidateIP assignedIP = true ->
  exists w1,
    wgmanager.AddPeer publicKey assignedIP w = (None, w1) /\
    faults w1 = [] /\ store w1 = store w /\
    live w1 = <[publicKey := assignedIP +:+ "/32"]> (live w) /\ saved w1 = live w1.
Proof.
  intros F Vk Vi. unfold wgmanager.AddPeer. rewrite Vk, Vi. cbn [negb].
  unfold bind, wgmanager.iface, gets. rewrite Run_calm by exact F. cbn [negb].
  unfold wgmanager.SaveConfig, bind, wgmanager.iface, gets.
  rewrite Run_calm by (cbn; rewrite F; reflexivity). unfold ret.
  eexists. split; [reflexivity|]. cbn. rewrite F. auto.
Qed.

(** X13.  The synchronisation at the start never reports an error, never
    touches the registry, starts nothing but the tool, and takes no peer
    off the interface; for a list of disabled peers it does nothing at
    all. *)
Theorem SyncPeersToInterface_only_adds (ps : list Peer) (w : World) :
  let '(e, w1) := wgmanager.SyncPeersToInterface ps w in
  e = None /\ store w1 = store w /\
  all_runs (events_since w w1) /\
  (forall k, is_Some (live w !! k) -> is_Some (live w1 !! k)) /\
  (Forall (fun p => Peer_Enabled p = false) ps -> w1 = w).
Proof.
  destruct (wgmanager.SyncPeersToInterface ps w) as [e w1] eqn:E.
  assert (G : e = None /\ store w1 = store w /\
              (exists evs, log w1 = log w ++ evs /\ all_runs evs) /\
              (forall k, is_Some (live w !! k) -> is_Some (live w1 !! k)) /\
              (Forall (fun p => Peer_Enabled p = false) ps -> w1 = w)).
  { revert w E. induction ps as [|p ps IH]; intros w E.
    - injection E as <- <-. split; [reflexivity|]. split; [reflexivity|].
      split; [exists []; split; [symmetry; apply app_nil_r | constructor]|]. auto.
    - cbn [wgmanager.SyncPeersToInterface] in E. unfold bind at 1 in E.
      destruct (Peer_Enabled p) eqn:En.
      + unfold bind at 1 in E.
        destruct (wgmanager.AddPeer _ _ w) as [e0 w0] eqn:A. unfold ret in E.
        pose proof (AddPeer_live _ _ _ _ _ A) as Lv.
        apply AddPeer_inv in A as (S0 & _ & _ & evs0 & L0 & R0 & _).
        apply IH in E as (-> & S1 & (evs & L1 & R1) & K & _).
        split; [reflexivity|]. split; [congruence|].
        split; [exists (evs0 ++ evs); split;
                [rewrite L1, L0, app_assoc; reflexivity | apply Forall_app; auto]|].
        split.
        * intros k I. apply K. destruct Lv as [-> | ->]; [exact I|].
          destruct (decide (k = Peer_PublicKey p)) as [->|N].
          -- rewrite lookup_insert_eq. eauto.
          -- rewrite lookup_insert_ne by congruence. exact I.
        * intros Fa. apply Forall_cons in Fa as [Fa _]. congruence.
      + unfold ret in E. apply IH in E as (-> & S1 & Ev & K & Id).
        split; [reflexivity|]. split; [exact S1|]. split; [exact Ev|]. split; [exact K|].
        intros Fa. apply Forall_cons in Fa as [_ Fa]. auto. }
  destruct G as (G1 & G2 & (evs & L & R) & G4 & G5).
  rewrite (events_since_app _ _ _ L). auto.
Qed.

Lemma SyncPeersToInterface_calm (ps : list Peer) (w : World) :
  faults w = [] ->
  NoDup (map Peer_PublicKey ps) ->
  (forall p, p ∈ ps -> Peer_Enabled p = true ->
             wgmanager.ValidatePublicKey (Peer_PublicKey p) = true /\
             wgmanager.ValidateIP (Peer_AssignedIP p) = true) ->
  exists w1,
    wgmanager.SyncPeersToInterface ps w = (None, w1) /\ store w1 = store w /\
    forall k a,
      live w1 !! k = Some a <->
      (exists p, p ∈ ps /\ Peer_Enabled p = true /\ Peer_PublicKey p = k /\
                 a = Peer_AssignedIP p +:+ "/32") \/
      (live w !! k = Some a /\
       forall p, p ∈ ps -> Peer_Enabled p = true -> Peer_PublicKey p <> k).
Proof.
  revert w. induction ps as [|p ps IH]; intros w F N V.
  - exists w. split; [reflexivity|]. split; [reflexivity|]. intros k a. split.
    + intros L. right. split; [exact L|]. intros p I. inversion I.
    + intros [(p & I & _)|[L _]]; [inversion I | exact L].
  - cbn [map] in N. apply NoDup_cons in N as [Np N].
    assert (Other : forall q, q ∈ ps -> Peer_PublicKey q <> Peer_PublicKey p).
    { intros q I E. apply Np. rewrite <- E. apply list_elem_of_fmap. eauto. }
    cbn [wgmanager.SyncPeersToInterface]. unfold bind at 1.
    destruct (Peer_Enabled p) eqn:En.
    + destruct (V p ltac:(left) En) as [Vk Vi].
      destruct (AddPeer_calm _ _ w F Vk Vi) as (w0 & A & F0 & S0 & L0 & _).
      unfold bind at 1. rewrite A. unfold ret.
      destruct (IH w0 F0 N) as (w1 & Sy & S1 & K).
      { intros q I. apply V. right. exact I. }
      exists w1. split; [exact Sy|]. split; [congruence|].
      intros k a. rewrite K, L0. clear K.
      destruct (decide (k = Peer_PublicKey p)) as [->|Nk].
      * rewrite lookup_insert_eq. split.
        -- intros [(q & I & _ & E & _)|[[= <-] _]].
           ++ exfalso. exact (Other q I E).
           ++ left. exists p. split; [left|auto].
        -- intros [(q & I & Eq & E & ->)|[_ C]].
           ++ apply elem_of_cons in I as [->|I]; [|exfalso; exact (Other q I E)].
              right. split; [reflexivity|]. intros q I _. apply Other. exact I.
           ++ exfalso. apply (C p); [left | exact En | reflexivity].
      * rewrite lookup_insert_ne by congruence. split.
        -- intros [(q & I & R)|[L C]].
           ++ left. exists q. split; [right; exact I | exact R].
           ++ right. split; [exact L|]. intros q I Eq.
              apply elem_of_cons in I as [->|I]; [congruence | auto].
        -- intros [(q & I & Eq & E & A')|[L C]].
           ++ apply elem_of_cons in I as [->|I]; [congruence|]. left. eauto 6.
           ++ right. split; [exact L|]. intros q I. apply C. right. exact I.
    + unfold ret.
      destruct (IH w F N) as (w1 & Sy & S1 & K).
      { intros q I. apply V. right. exact I. }
      exists w1. split; [exact Sy|]. split; [exact S1|].
      intros k a. rewrite K. clear K. split.
      * intros [(q & I & R)|[L C]].
        -- left. exists q. split; [right; exact I | exact R].
        -- right. split; [exact L|]. intros q I Eq.
           apply elem_of_cons in I as [->|I]; [congruence | auto].
      * intros [(q & I & Eq & R)|[L C]].
        -- apply elem_of_cons in I as [->|I]; [congruence|]. left. eauto 6.
        -- right. split; [exact L|]. intros q I. apply C. right. exact I.
Qed.

(** X14.  On an interface that carries no peer, the synchronisation of the
    stored peers (in whatever order they were read) puts exactly the enabled
    ones on it, each under its key with its address as a /32, while no step
    fails and the stored keys and addresses are well formed. *)
Theorem SyncPeersToInterface_restores_the_interface (ps : list Peer) (w : World) :
  faults w = [] ->
  live w = ∅ ->
  ps ≡ₚ peers (store w) ->
  peers_unique (store w) ->
  (forall p, p ∈ peers (store w) ->
             wgmanager.ValidatePublicKey (Peer_PublicKey p) = true /\
             wgmanager.ValidateIP (Peer_AssignedIP p) = true) ->
  in_sync (snd (wgmanager.SyncPeersToInterface ps w)).
Proof.
  intros F L Pm [_ U] V.
  destruct (SyncPeersToInterface_calm ps w F) as (w1 & Sy & S1 & K).
  - rewrite Pm. exact U.
  - intros p I _. apply V. rewrite <- Pm. exact I.
  - rewrite Sy. cbn [snd]. intros k a. rewrite K, S1, L, lookup_empty. split.
    + intros [(p & I & R)|[[=] _]]. exists p. rewrite <- Pm. auto.
    + intros (p & I & R). left. exists p. rewrite Pm. auto.
Qed.

Lemma SyncPeersToInterface_restores_the_interface_witness :
  let ps := [sample_peer 1 2 true; sample_peer 2 3 false] in
  let w := sample_world (sample_db [] ps []) 0 [] in
  in_sync (snd (wgmanager.SyncPeersToInterface (rev ps) w)).
Proof.
  intros ps w.
  apply (SyncPeersToInterface_restores_the_interface (rev ps) w).
  - reflexivity.
  - reflexivity.
  - symmetry. apply Permutation_rev.
  - exact peers_unique_witness_db.
  - intros p I. cbn in I.
    apply elem_of_cons in I as [->|I]; [split; vm_compute; reflexivity|].
    apply list_elem_of_singleton in I as ->. split; vm_compute; reflexivity.
Defined.

Lemma GetPeerConfig_inv (ip : string) (w : World) :
  let '(r, w1) := handlers.GetPeerConfig ip w in
  let g := WireGuard (cfg w) in
  store w1 = store w /\ live w1 = live w /\ cfg w1 = cfg w /\
  no_runs (events_since w w1) /\
  match r with
  | inr d =>
      wgmanager.ValidateIP ip = true /\ faulty w = false /\
      exists peer,
        persisted ip w peer /\
        d = {| handlers.ContentDisposition :=
                 "attachment; filename=" +:+ Peer_Name peer +:+ ".conf";
               handlers.ContentType := "text/plain";
               handlers.Content :=
                 wgmanager.clientConfigTmpl_Execute (Peer_PrivateKey peer) ip (DNS g)
                   (ServerPublicKey g) (ServerEndpoint g) (AllowedIPs g) |}
  | inl resp =>
      (wgmanager.ValidateIP ip = false /\ w1 = w /\
       resp = JSON StatusBadRequest (ErrorResponse "Invalid IP address format" None)) \/
      (wgmanager.ValidateIP ip = true /\
       (faulty w = true \/ forall p, p ∈ peers (store w) -> Peer_AssignedIP p <> ip) /\
       resp = JSON StatusNotFound (ErrorResponse "Peer not found" None))
  end.
Proof.
  unfold handlers.GetPeerConfig.
  destruct (wgmanager.ValidateIP ip) eqn:V; cbn [negb].
  2:{ cbn. unfold events_since. rewrite drop_all. repeat split; auto. constructor. }
  unfold bind.
  destruct (db.GetPeerByIP ip w) as [r w0] eqn:G.
  unfold db.GetPeerByIP in G. apply QueryRow_inv in G as [-> G].
  assert (Ev : no_runs (events_since w (stepped (ESql (SelectPeerByIP ip) (negb (faulty w))) w))).
  { rewrite (events_since_app _ _ [ESql (SelectPeerByIP ip) (negb (faulty w))]) by reflexivity.
    repeat constructor. }
  destruct r as [peer|e]; cbn.
  - destruct G as [F Hd]. repeat split; auto.
    exists peer. split; [exact Hd|].
    apply head_Some_elem_of, list_elem_of_filter in Hd as [<- _]. reflexivity.
  - repeat split; auto. right. split; [reflexivity|]. split; [|reflexivity].
    destruct G as [[F _]|(F & Em & _)]; [left; exact F|right].
    intros p I E'. exact (filter_nil_inv _ _ Em p I E').
Qed.

(** X15.  The download of a client configuration changes nothing and starts
    no subprocess.  It is answered with the configuration exactly when the
    key is a well-formed address, the lookup does not fail and a row holds
    the address: the text is then the template filled with that row's
    private key and address and the DNS, server key, endpoint and allowed
    addresses of the configuration in use, under a file name made of the
    peer's name.  A malformed key gets 400 and no lookup; every other
    failure gets 404. *)
Theorem GetPeerConfig_serves_the_stored_peer (ip : string) (w : World) :
  let '(r, w1) := handlers.GetPeerConfig ip w in
  let g := WireGuard (cfg w) in
  store w1 = store w /\ live w1 = live w /\ cfg w1 = cfg w /\
  no_runs (events_since w w1) /\
  match r with
  | inr d =>
      wgmanager.ValidateIP ip = true /\ faulty w = false /\
      exists peer,
        persisted ip w peer /\
        d = {| handlers.ContentDisposition :=
                 "attachment; filename=" +:+ Peer_Name peer +:+ ".conf";
               handlers.ContentType := "text/plain";
               handlers.Content :=
                 wgmanager.clientConfigTmpl_Execute (Peer_PrivateKey peer) ip (DNS g)
                   (ServerPublicKey g) (ServerEndpoint g) (AllowedIPs g) |}
  | inl resp =>
      (wgmanager.ValidateIP ip = false /\ w1 = w /\
       resp = JSON StatusBadRequest (ErrorResponse "Invalid IP address format" None)) \/
      (wgmanager.ValidateIP ip = true /\
       (faulty w = true \/ forall p, p ∈ peers (store w) -> Peer_AssignedIP p <> ip) /\
       resp = JSON StatusNotFound (ErrorResponse "Peer not found" None))
  end.
Proof. exact (GetPeerConfig_inv ip w). Qed.

(** X16.  The configuration object is shared: a DNS or a list of allowed
    addresses changed through the settings is what every client
    configuration downloaded afterwards carries. *)
Theorem GetPeerConfig_after_UpdateSettings {vendor : Vendor}
    (req : UpdateSettingsRequest) (w w1 w2 : World) (resp : Response) (ip : string)
    (d : handlers.Download) :
  handlers.UpdateSettings (Some req) w = (resp, w1) ->
  Status resp = StatusOK ->
  handlers.GetPeerConfig ip w1 = (inr d, w2) ->
  exists peer,
    persisted ip w peer /\
    handlers.Content d
    = wgmanager.clientConfigTmpl_Execute (Peer_PrivateKey peer) ip
        (default (DNS (WireGuard (cfg w))) (UpdateSettingsRequest_DNS req))
        (ServerPublicKey (WireGuard (cfg w))) (ServerEndpoint (WireGuard (cfg w)))
        (default (AllowedIPs (WireGuard (cfg w))) (UpdateSettingsRequest_AllowedIPs req)).
Proof.
  intros E S G.
  apply UpdateSettings_ok_inv in E as (w0 & U & _ & Ps & _ & _ & _ & Dn & Al & _ & Pk & Ep);
    [|exact S].
  assert (K : peers (store w1) = peers (store w0) /\ cfg w1 = cfg w0).
  { destruct (UpdateSettingsRequest_AdminPassword req) as [p|]; [|subst; auto].
    destruct (decide (p = "")); [subst; auto|].
    apply update_admin_password_users in U as (? & ? & ? & _ & _ & _ & P1 & _ & C1 & _). auto. }
  destruct K as [P1 C1].
  pose proof (GetPeerConfig_inv ip w1) as T. rewrite G in T.
  cbv zeta in T. destruct T as (_ & _ & _ & _ & _ & _ & peer & Hd & ->).
  exists peer. unfold persisted in *. rewrite P1, Ps in Hd. split; [exact Hd|].
  cbn. rewrite C1, Dn, Al, Pk, Ep. reflexivity.
Qed.

Lemma GetPeerConfig_after_UpdateSettings_witness :
  let req := {| UpdateSettingsRequest_DNS := Some "9.9.9.9";
                UpdateSettingsRequest_AllowedIPs := None;
                UpdateSettingsRequest_LoggingEnabled := None;
                UpdateSettingsRequest_AdminPassword := None |} in
  let w := sample_world (sample_db [admin_user ""] [sample_peer 1 2 true] []) 0 [] in
  let out := handlers.UpdateSettings (vendor := sample_vendor) (Some req) w in
  exists d w2,
    handlers.GetPeerConfig "10.8.0.2" (snd out) = (inr d, w2) /\
    handlers.Content d
    = wgmanager.clientConfigTmpl_Execute (sample_key 102) "10.8.0.2" "9.9.9.9" "" "vpn:51820"
        "0.0.0.0/0".
Proof.
  intros req w out.
  assert (E : handlers.UpdateSettings (vendor := sample_vendor) (Some req) w = (fst out, snd out))
    by (subst out; destruct (handlers.UpdateSettings _ w); reflexivity).
  assert (S : Status (fst out) = StatusOK) by (vm_compute; reflexivity).
  assert (G : exists d w2, handlers.GetPeerConfig "10.8.0.2" (snd out) = (inr d, w2))
    by (vm_compute; eexists _, _; reflexivity).
  clearbody out. destruct G as (d & w2 & G). exists d, w2. split; [exact G|].
  destruct (GetPeerConfig_after_UpdateSettings (vendor := sample_vendor) req w (snd out) w2
              (fst out) "10.8.0.2" d E S G) as (peer & Hd & ->).
  vm_compute in Hd. injection Hd as <-. reflexivity.
Defined.

(** ** Addresses: the check and the allocator *)

(** *** Splitting at the dots *)

Lemma split_on_nonempty (sep : ascii) (s : string) : wgmanager.split_on sep s <> [].
Proof.
  destruct s as [|c s]; cbn; [discriminate|].
  destruct (Ascii.eqb c sep); [discriminate|].
  destruct (wgmanager.split_on sep s); discriminate.
Qed.

Lemma split_on_cons (sep : ascii) (s x y : string) (ys : list string) :
  wgmanager.split_on sep s = x :: y :: ys ->
  exists s', s = x +:+ String sep s' /\ wgmanager.split_on sep s' = y :: ys.
Proof.
  revert x. induction s as [|c s IH]; intros x; cbn; [discriminate|].
  destruct (Ascii.eqb_spec c sep) as [->|N].
  - intros [= <- E]. exists s. split; [reflexivity | exact E].
  - destruct (wgmanager.split_on sep s) as [|p ps] eqn:Sp; [discriminate|].
    intros [= <- ->]. destruct (IH p eq_refl) as (s' & -> & E).
    exists s'. split; [reflexivity | exact E].
Qed.

Lemma split_on_single (sep : ascii) (s x : string) :
  wgmanager.split_on sep s = [x] -> s = x.
Proof.
  revert x. induction s as [|c s IH]; intros x; cbn; [intros [= <-]; reflexivity|].
  destruct (Ascii.eqb c sep).
  - intros [= _ E]. exfalso. exact (split_on_nonempty _ _ E).
  - destruct (wgmanager.split_on sep s) as [|p ps] eqn:Sp;
      [exfalso; exact (split_on_nonempty _ _ Sp)|].
    intros [= <- ->]. rewrite (IH p eq_refl). reflexivity.
Qed.

Lemma split_on_digits (p : string) :
  all_digits p = true -> wgmanager.split_on "."%char p = [p].
Proof.
  induction p as [|c p IH]; [reflexivity|]. cbn. intros D.
  apply andb_true_iff in D as [Dc D].
  destruct (Ascii.eqb_spec c "."%char) as [->|_]; [discriminate|].
  rewrite (IH D). reflexivity.
Qed.

Lemma split_on_digits_dot (p r : string) :
  all_digits p = true ->
  wgmanager.split_on "."%char (p +:+ String "."%char r) = p :: wgmanager.split_on "."%char r.
Proof.
  induction p as [|c p IH]; [reflexivity|].
  cbn [all_digits]. intros D. apply andb_true_iff in D as [Dc D].
  change (wgmanager.split_on "."%char (String c p +:+ String "."%char r))
    with (if Ascii.eqb c "."%char
          then EmptyString :: wgmanager.split_on "."%char (p +:+ String "."%char r)
          else match wgmanager.split_on "."%char (p +:+ String "."%char r) with
               | p' :: ps => String c p' :: ps
               | [] => [String c EmptyString]
               end).
  destruct (Ascii.eqb_spec c "."%char) as [->|_]; [discriminate|].
  rewrite (IH D). reflexivity.
Qed.

Lemma atoi_digits_nonneg (p : string) (acc : Z) :
  all_digits p = true -> 0 <= acc -> 0 <= atoi_digits p acc.
Proof.
  revert acc. induction p as [|c p IH]; intros acc D A; [exact A|]. cbn in *.
  apply andb_true_iff in D as [Dc D]. unfold is_digit in Dc.
  apply andb_true_iff in Dc as [L _]. apply Z.leb_le in L. apply IH; [exact D | lia].
Qed.

Lemma octet_check (p : string) :
  octet p <->
  (all_digits p && (1 <=? len p) && (len p <=? 3)
   && negb ((atoi_digits p 0 <? 0) || (255 <? atoi_digits p 0))) = true.
Proof.
  unfold octet. rewrite !andb_true_iff, negb_true_iff, orb_false_iff,
    !Z.leb_le, !Z.ltb_ge. split.
  - intros (D & L & V). pose proof (atoi_digits_nonneg p 0 D ltac:(lia)). tauto.
  - tauto.
Qed.

Lemma ValidateIP_iff_dotted (ip : string) :
  wgmanager.ValidateIP ip = true <->
  exists a b c d, ip = dotted a b c d /\ octet a /\ octet b /\ octet c /\ octet d.
Proof.
  unfold wgmanager.ValidateIP, wgmanager.ipRegex_MatchString. split.
  - destruct (_ =? _)%nat eqn:Ln; [|discriminate]. cbn [andb].
    destruct (forallb _ _) eqn:Fa; [|discriminate]. cbn [negb].
    intros Fb. apply Nat.eqb_eq in Ln.
    destruct (wgmanager.split_on "."%char ip) as [|a [|b [|c [|d [|]]]]] eqn:Sp;
      try discriminate.
    apply split_on_cons in Sp as (s1 & -> & Sp).
    apply split_on_cons in Sp as (s2 & -> & Sp).
    apply split_on_cons in Sp as (s3 & -> & Sp).
    apply split_on_single in Sp as ->.
    exists a, b, c, d. split; [reflexivity|].
    cbn [forallb] in Fa, Fb.
    apply andb_prop in Fa as [A1 Fa], Fb as [B1 Fb].
    apply andb_prop in Fa as [A2 Fa], Fb as [B2 Fb].
    apply andb_prop in Fa as [A3 Fa], Fb as [B3 Fb].
    apply andb_prop in Fa as [A4 _], Fb as [B4 _].
    cbv zeta in B1, B2, B3, B4.
    split; [apply octet_check; rewrite A1, B1; reflexivity|].
    split; [apply octet_check; rewrite A2, B2; reflexivity|].
    split; [apply octet_check; rewrite A3, B3; reflexivity|].
    apply octet_check; rewrite A4, B4; reflexivity.
  - intros (a & b & c & d & -> & Oa & Ob & Oc & Od).
    pose proof (proj1 Oa) as Da. pose proof (proj1 Ob) as Db.
    pose proof (proj1 Oc) as Dc. pose proof (proj1 Od) as Dd.
    unfold dotted.
    change (a +:+ "." +:+ b +:+ "." +:+ c +:+ "." +:+ d)
      with (a +:+ String "."%char (b +:+ String "."%char (c +:+ String "."%char d))).
    rewrite !split_on_digits_dot, split_on_digits by assumption.
    apply octet_check in Oa, Ob, Oc, Od.
    apply andb_prop in Oa as [A1 A2], Ob as [B1 B2], Oc as [C1 C2], Od as [D1 D2].
    cbn [length Nat.eqb forallb andb negb]. cbv zeta.
    rewrite A1, A2, B1, B2, C1, C2, D1, D2. reflexivity.
Qed.

(** X17.  The address check accepts exactly the strings made of four runs of
    one to three decimal digits joined by dots, each run with a value of at
    most 255; leading zeros are accepted. *)
Theorem ValidateIP_accepts_dotted_quads (ip : string) :
  wgmanager.ValidateIP ip = true <->
  exists a b c d, ip = dotted a b c d /\ octet a /\ octet b /\ octet c /\ octet d.
Proof. exact (ValidateIP_iff_dotted ip). Qed.

(** *** Decimal octets *)

Lemma octets_enumerated (P : Z -> bool) :
  forallb (fun n => P (Z.of_nat n)) (seq 0 256) = true ->
  forall z, 0 <= z <= 255 -> P z = true.
Proof.
  intros A z Hz. rewrite forallb_forall in A.
  rewrite <- (Z2Nat.id z) by lia. apply A. apply in_seq. lia.
Qed.

Lemma itoa_octet (z : Z) :
  0 <= z <= 255 ->
  all_digits (itoa z) = true /\ 1 <= len (itoa z) <= 3 /\ atoi_digits (itoa z) 0 = z.
Proof.
  intros Hz.
  assert (C : (all_digits (itoa z) && (1 <=? len (itoa z)) && (len (itoa z) <=? 3)
               && (atoi_digits (itoa z) 0 =? z)) = true).
  { revert z Hz.
    apply (octets_enumerated
             (fun z => all_digits (itoa z) && (1 <=? len (itoa z)) && (len (itoa z) <=? 3)
                       && (atoi_digits (itoa z) 0 =? z))).
    vm_compute. reflexivity. }
  rewrite !andb_true_iff, !Z.leb_le, Z.eqb_eq in C. tauto.
Qed.

Lemma octet_itoa (z : Z) : 0 <= z <= 255 -> octet (itoa z).
Proof.
  intros Hz. destruct (itoa_octet z Hz) as (D & L & V). unfold octet. rewrite V.
  split; [exact D|]. split; [exact L | lia].
Qed.

Lemma span_number_digits (s r : string) :
  all_digits s = true ->
  (r = "" \/ exists t, r = String "."%char t) ->
  span_number (s +:+ r) = (s, r).
Proof.
  intros D R. induction s as [|c s IH].
  - destruct R as [->|(t & ->)]; reflexivity.
  - cbn [all_digits] in D. apply andb_prop in D as [Dc D].
    change (span_number (String c s +:+ r))
      with (if is_digit c
            then let (t, rest) := span_number (s +:+ r) in (String c t, rest)
            else (EmptyString, String c (s +:+ r))).
    rewrite Dc, (IH D). reflexivity.
Qed.

Lemma skip_space_digit (c : ascii) (r : string) :
  is_digit c = true -> skip_space (String c r) = Some (String c r).
Proof.
  intros Dc. unfold is_digit in Dc. apply andb_prop in Dc as [Lo Hi].
  apply Z.leb_le in Lo, Hi. cbn [skip_space]. cbv zeta.
  destruct (ord c =? 10) eqn:E1; [apply Z.eqb_eq in E1; lia|].
  destruct (9 <=? ord c) eqn:E2; [|apply Z.leb_gt in E2; lia].
  destruct (ord c <=? 13) eqn:E3; [apply Z.leb_le in E3; lia|].
  destruct (ord c =? 32) eqn:E4; [apply Z.eqb_eq in E4; lia|].
  destruct (ord c =? 194) eqn:E5; [apply Z.eqb_eq in E5; lia|].
  cbn [andb orb].
  assert (S3 : forall n2 n3, space3 (ord c) n2 n3 = false).
  { intros n2 n3. unfold space3.
    destruct (ord c =? 225) eqn:F1; [apply Z.eqb_eq in F1; lia|].
    destruct (ord c =? 226) eqn:F2; [apply Z.eqb_eq in F2; lia|].
    destruct (ord c =? 227) eqn:F3; [apply Z.eqb_eq in F3; lia|].
    reflexivity. }
  destruct r as [|c2 [|c3 r3]]; try reflexivity. rewrite S3. reflexivity.
Qed.

Lemma scan_int_octet (z : Z) (r : string) :
  0 <= z <= 255 ->
  (r = "" \/ exists t, r = String "."%char t) ->
  scan_int (itoa z +:+ r) = Some (z, r).
Proof.
  intros Hz R. destruct (itoa_octet z Hz) as (D & L & V).
  unfold scan_int.
  destruct (itoa z) as [|c s] eqn:I; [unfold len in L; cbn in L; lia|].
  change (String c s +:+ r) with (String c (s +:+ r)).
  pose proof D as D'. cbn [all_digits] in D'. apply andb_prop in D' as [Dc _].
  rewrite (skip_space_digit _ _ Dc).
  unfold is_digit in Dc. apply andb_prop in Dc as [Lo Hi].
  apply Z.leb_le in Lo, Hi.
  destruct (ord c =? 45) eqn:E1; [apply Z.eqb_eq in E1; lia|].
  destruct (ord c =? 43) eqn:E2; [apply Z.eqb_eq in E2; lia|].
  change (String c (s +:+ r)) with (String c s +:+ r).
  rewrite (span_number_digits _ _ D R).
  assert (L0 : (0 <? len (String c s)) = true) by (apply Z.ltb_lt; lia).
  rewrite L0, V. cbn [negb].
  assert (Rg : ((- 2 ^ 63 <=? z) && (z <? 2 ^ 63)) = true).
  { apply andb_true_iff. split; [apply Z.leb_le | apply Z.ltb_lt]; lia. }
  rewrite Rg. reflexivity.
Qed.

Lemma append_empty (s : string) : s +:+ "" = s.
Proof.
  induction s as [|c s IH]; [reflexivity|].
  change (String c s +:+ "") with (String c (s +:+ "")). rewrite IH. reflexivity.
Qed.

Lemma scan_int_last_octet (z : Z) : 0 <= z <= 255 -> scan_int (itoa z) = Some (z, "").
Proof.
  intros Hz. rewrite <- (append_empty (itoa z)) at 1. apply scan_int_octet; auto.
Qed.

Lemma expect_dot_scan (r : string) :
  expect_dot (String "."%char r) ≫= scan_int = scan_int r.
Proof. reflexivity. Qed.

Lemma Sscanf_Sprintf (a b c d : Z) :
  0 <= a <= 255 -> 0 <= b <= 255 -> 0 <= c <= 255 -> 0 <= d <= 255 ->
  Sscanf_ipv4 (Sprintf_ipv4 a b c d) = (a, b, c, d).
Proof.
  intros Ha Hb Hc Hd. unfold Sscanf_ipv4, Sprintf_ipv4.
  change (itoa a +:+ "." +:+ itoa b +:+ "." +:+ itoa c +:+ "." +:+ itoa d)
    with (itoa a +:+ String "."%char (itoa b +:+ String "."%char
            (itoa c +:+ String "."%char (itoa d)))).
  rewrite (scan_int_octet a) by eauto. rewrite expect_dot_scan.
  rewrite (scan_int_octet b) by eauto. rewrite expect_dot_scan.
  rewrite (scan_int_octet c) by eauto. rewrite expect_dot_scan.
  rewrite (scan_int_last_octet d) by exact Hd. reflexivity.
Qed.

Lemma before_last_slash_digits (n : string) :
  all_digits n = true -> db.before_last_slash n = None.
Proof.
  induction n as [|c n IH]; [reflexivity|]. cbn [all_digits db.before_last_slash].
  intros D. apply andb_prop in D as [Dc D]. rewrite (IH D).
  unfold is_digit in Dc. apply andb_prop in Dc as [Lo Hi]. apply Z.leb_le in Lo, Hi.
  destruct (ord c =? 47) eqn:E; [apply Z.eqb_eq in E; lia | reflexivity].
Qed.

Lemma before_last_slash_app (x n : string) :
  db.before_last_slash n = None ->
  db.before_last_slash (x +:+ String "/"%char n) = Some x.
Proof.
  intros N. induction x as [|c x IH].
  - change (db.before_last_slash ("" +:+ String "/"%char n))
      with (match db.before_last_slash n with
            | Some p => Some (String "/"%char p)
            | None => if ord "/" =? 47 then Some EmptyString else None
            end).
    rewrite N. reflexivity.
  - change (db.before_last_slash (String c x +:+ String "/"%char n))
      with (match db.before_last_slash (x +:+ String "/"%char n) with
            | Some p => Some (String c p)
            | None => if ord c =? 47 then Some EmptyString else None
            end).
    rewrite IH. reflexivity.
Qed.

Lemma len_app (a b : string) : len (a +:+ b) = len a + len b.
Proof.
  unfold len. induction a as [|c a IH]; [reflexivity|].
  change (String c a +:+ b) with (String c (a +:+ b)). cbn [String.length].
  rewrite !Nat2Z.inj_succ, IH. lia.
Qed.

Lemma len_nonneg (s : string) : 0 <= len s.
Proof. unfold len. lia. Qed.

Lemma baseIP_of_subnet (x n : string) :
  0 < len x -> all_digits n = true -> db.baseIP (x +:+ String "/"%char n) = x.
Proof.
  intros L D. unfold db.baseIP.
  rewrite (before_last_slash_app x n (before_last_slash_digits n D)).
  destruct (0 <? _) eqn:C; [reflexivity|].
  apply Z.ltb_ge in C. rewrite len_app in C.
  change (len (String "/"%char n)) with (Z.of_nat (S (String.length n))) in C. lia.
Qed.

Lemma len_Sprintf_ipv4 (a b c d : Z) : 0 < len (Sprintf_ipv4 a b c d).
Proof.
  unfold Sprintf_ipv4. rewrite len_app.
  pose proof (len_nonneg (itoa a)).
  change ("." +:+ itoa b +:+ "." +:+ itoa c +:+ "." +:+ itoa d)
    with (String "."%char (itoa b +:+ "." +:+ itoa c +:+ "." +:+ itoa d)).
  unfold len at 2. cbn [String.length]. lia.
Qed.

(** X18.  For a subnet written [a.b.c.d/n] with octets of at most 255, the
    allocator hands out addresses [a.b.c.i] with [i] in 2..254: the host
    part [d] and the prefix length [n] of the configured subnet play no
    part.  Every address it hands out passes the address check of the
    interface manager. *)
Theorem allocated_addresses_are_valid (a b c d : Z) (n : string) (w : World) (ip : string) :
  0 <= a <= 255 -> 0 <= b <= 255 -> 0 <= c <= 255 -> 0 <= d <= 255 ->
  all_digits n = true ->
  fst (db.GetNextAvailableIP (Sprintf_ipv4 a b c d +:+ "/" +:+ n) w) = Ok ip ->
  wgmanager.ValidateIP ip = true /\
  exists i, 2 <= i <= 254 /\ ip = Sprintf_ipv4 a b c i.
Proof.
  intros Ha Hb Hc Hd Dn. unfold db.GetNextAvailableIP.
  change (Sprintf_ipv4 a b c d +:+ "/" +:+ n)
    with (Sprintf_ipv4 a b c d +:+ String "/"%char n).
  rewrite (baseIP_of_subnet _ _ (len_Sprintf_ipv4 a b c d) Dn),
    (Sscanf_Sprintf a b c d Ha Hb Hc Hd).
  unfold_m. destruct (faulty w); [discriminate|]. cbn [fst].
  pose proof (first_unused_spec 253 2 a b c
                (list_to_set (map Peer_AssignedIP (peers (store w))))) as S.
  destruct (db.first_unused 253 2 a b c _) as [ip'|]; [|discriminate].
  cbn. intros [= <-]. destruct S as (k & Hk & -> & _).
  split; [|exists k; split; [lia | reflexivity]].
  apply ValidateIP_iff_dotted.
  exists (itoa a), (itoa b), (itoa c), (itoa k). split; [reflexivity|].
  repeat split; apply octet_itoa; lia.
Qed.

Lemma allocated_addresses_are_valid_witness :
  let w := sample_world (sample_db [] (sample_peers 3 2) []) 0 [] in
  fst (db.GetNextAvailableIP "192.168.77.130/30" w) = Ok "192.168.77.2" /\
  wgmanager.ValidateIP "192.168.77.2" = true.
Proof.
  intros w.
  assert (E : fst (db.GetNextAvailableIP "192.168.77.130/30" w) = Ok "192.168.77.2")
    by (vm_compute; reflexivity).
  split; [exact E|].
  apply (allocated_addresses_are_valid 192 168 77 130 "30" w "192.168.77.2");
    try lia; [reflexivity | exact E].
Defined.

(** ** Keys: base64 round trip and the key check *)

(** *** Base64: decoding what was encoded *)

Lemma b2z_range (a : byte) : 0 <= b2z a < 256.
Proof. destruct a; vm_compute; split; congruence. Qed.

Lemma z2b_b2z (a : byte) : z2b (b2z a) = a.
Proof. destruct a; reflexivity. Qed.

Lemma z2b_mod (z : Z) : z2b (z mod 256) = z2b z.
Proof. unfold z2b. rewrite Z.mod_mod by lia. reflexivity. Qed.

Lemma lor_shiftl_add (x y k : Z) :
  0 <= k -> 0 <= y < 2 ^ k -> Z.lor (Z.shiftl x k) y = x * 2 ^ k + y.
Proof.
  intros Hk Hy. rewrite Z.shiftl_mul_pow2 by exact Hk.
  rewrite <- Z.lxor_lor, <- Z.add_nocarry_lxor; try reflexivity.
  all: apply Z.bits_inj'; intros n Hn; rewrite Z.land_spec, Z.bits_0;
    destruct (Z.ltb_spec n k) as [Lt|Ge].
  all: try (rewrite Z.mul_pow2_bits_low by lia; reflexivity).
  all: rewrite <- (Z.mod_small y (2 ^ k)) by lia;
    rewrite Z.mod_pow2_bits_high by lia; apply andb_false_r.
Qed.

Lemma land_63 (v : Z) : Z.land v 63 = v mod 64.
Proof. change 63 with (Z.ones 6). rewrite Z.land_ones by lia. reflexivity. Qed.

Lemma shiftr_div (v n : Z) : 0 <= n -> Z.shiftr v n = v / 2 ^ n.
Proof. intros. apply Z.shiftr_div_pow2. assumption. Qed.

Section Quantum.
Variables a b c : byte.

Let A := b2z a.
Let B := b2z b.
Let C := b2z c.

Lemma quantum3 :
  let v := Z.lor (Z.shiftl A 16) (Z.lor (Z.shiftl B 8) C) in
  let v1 := Z.land (Z.shiftr v 18) 63 in
  let v2 := Z.land (Z.shiftr v 12) 63 in
  let v3 := Z.land (Z.shiftr v 6) 63 in
  let v4 := Z.land v 63 in
  z2b (Z.lor (Z.shiftl v1 2) (Z.shiftr v2 4)) = a /\
  z2b (Z.lor (Z.shiftl v2 4) (Z.shiftr v3 2)) = b /\
  z2b (Z.lor (Z.shiftl v3 6) v4) = c.
Proof.
  pose proof (b2z_range a) as Ha. pose proof (b2z_range b) as Hb.
  pose proof (b2z_range c) as Hc. fold A in Ha. fold B in Hb. fold C in Hc.
  cbv zeta.
  assert (V : Z.lor (Z.shiftl A 16) (Z.lor (Z.shiftl B 8) C) = A * 65536 + B * 256 + C).
  { rewrite (lor_shiftl_add B C 8) by lia.
    rewrite (lor_shiftl_add A _ 16) by lia. change (2 ^ 16) with 65536.
    change (2 ^ 8) with 256. lia. }
  rewrite V, !land_63, !shiftr_div by lia.
  change (2 ^ 18) with 262144. change (2 ^ 12) with 4096. change (2 ^ 6) with 64.
  change (2 ^ 4) with 16. change (2 ^ 2) with 4.
  set (v := A * 65536 + B * 256 + C).
  rewrite (lor_shiftl_add ((v / 262144) mod 64) _ 2)
    by (change (2 ^ 2) with 4; Z.div_mod_to_equations; lia).
  rewrite (lor_shiftl_add ((v / 4096) mod 64) _ 4)
    by (change (2 ^ 4) with 16; Z.div_mod_to_equations; lia).
  rewrite (lor_shiftl_add ((v / 64) mod 64) _ 6)
    by (change (2 ^ 6) with 64; Z.div_mod_to_equations; lia).
  change (2 ^ 2) with 4. change (2 ^ 4) with 16. change (2 ^ 6) with 64.
  split; [|split].
  - transitivity (z2b A); [|apply z2b_b2z]. rewrite <- z2b_mod. f_equal.
    subst v. Z.div_mod_to_equations. lia.
  - transitivity (z2b B); [|apply z2b_b2z]. rewrite <- z2b_mod. f_equal.
    subst v. Z.div_mod_to_equations. lia.
  - transitivity (z2b C); [|apply z2b_b2z]. rewrite <- z2b_mod. f_equal.
    subst v. Z.div_mod_to_equations. lia.
Qed.

End Quantum.

Lemma quantum2 (a b : byte) :
  let v := Z.lor (Z.shiftl (b2z a) 16) (Z.shiftl (b2z b) 8) in
  let v1 := Z.land (Z.shiftr v 18) 63 in
  let v2 := Z.land (Z.shiftr v 12) 63 in
  let v3 := Z.land (Z.shiftr v 6) 63 in
  z2b (Z.lor (Z.shiftl v1 2) (Z.shiftr v2 4)) = a /\
  z2b (Z.lor (Z.shiftl v2 4) (Z.shiftr v3 2)) = b.
Proof.
  pose proof (quantum3 a b x00) as Q. cbv zeta in Q.
  change (b2z x00) with 0 in Q. rewrite Z.lor_0_r in Q.
  destruct Q as (Q1 & Q2 & _). cbv zeta. split; assumption.
Qed.

Lemma quantum1 (a : byte) :
  let v := Z.shiftl (b2z a) 16 in
  let v1 := Z.land (Z.shiftr v 18) 63 in
  let v2 := Z.land (Z.shiftr v 12) 63 in
  z2b (Z.lor (Z.shiftl v1 2) (Z.shiftr v2 4)) = a.
Proof.
  pose proof (quantum2 a x00) as Q. cbv zeta in Q.
  change (Z.shiftl (b2z x00) 8) with 0 in Q. rewrite Z.lor_0_r in Q.
  destruct Q as (Q1 & _). cbv zeta. assumption.
Qed.

(** *** The symbols of the standard alphabet *)

Lemma sym_std (v : Z) :
  let c := base64.sym base64.StdEncoding v in
  base64.val base64.StdEncoding c = Some (Z.land v 63) /\
  ((ord c =? 10) || (ord c =? 13)) = false.
Proof.
  cbv zeta. unfold base64.sym.
  assert (R : 0 <= Z.land v 63 < 64) by (rewrite land_63; apply Z.mod_pos_bound; lia).
  set (n := Z.land v 63) in *.
  assert (E : forallb (fun k =>
                 match String.get k (base64.alphabet base64.StdEncoding) with
                 | Some c => match base64.val base64.StdEncoding c with
                             | Some i => (i =? Z.of_nat k)
                                         && negb ((ord c =? 10) || (ord c =? 13))
                             | None => false
                             end
                 | None => false
                 end) (seq 0 64) = true) by (vm_compute; reflexivity).
  rewrite forallb_forall in E. specialize (E (Z.to_nat n)).
  destruct (String.get (Z.to_nat n) _) as [c|].
  - destruct (base64.val base64.StdEncoding c) as [i|].
    + assert (I : In (Z.to_nat n) (seq 0 64)) by (apply in_seq; lia).
      apply E in I. apply andb_prop in I as [I1 I2].
      apply Z.eqb_eq in I1. apply negb_true_iff in I2.
      split; [f_equal; lia | exact I2].
    + exfalso. assert (I : In (Z.to_nat n) (seq 0 64)) by (apply in_seq; lia).
      apply E in I. discriminate.
  - exfalso. assert (I : In (Z.to_nat n) (seq 0 64)) by (apply in_seq; lia).
    apply E in I. discriminate.
Qed.

Lemma strip_newlines_sym (v : Z) (r : string) :
  base64.strip_newlines (String (base64.sym base64.StdEncoding v) r)
  = base64.sym base64.StdEncoding v :: base64.strip_newlines r.
Proof.
  cbn [base64.strip_newlines]. rewrite (proj2 (sym_std v)). reflexivity.
Qed.

Lemma val_sym (v : Z) :
  base64.val base64.StdEncoding (base64.sym base64.StdEncoding v) = Some (Z.land v 63).
Proof. exact (proj1 (sym_std v)). Qed.

Lemma decode_encode (src : bytes) :
  forall n, (length src < 3 * n)%nat ->
    base64.decode_quanta base64.StdEncoding n
      (base64.strip_newlines (base64.EncodeToString base64.StdEncoding src))
    = Some src.
Proof.
  induction src as [|a|a b|a b c l IH] using list_ind3; intros n Hn;
    (destruct n as [|n]; [cbn in Hn; lia|]).
  - reflexivity.
  - cbn [base64.EncodeToString]. rewrite !strip_newlines_sym.
    cbn [base64.decode_quanta base64.pad base64.padded base64.StdEncoding].
    rewrite !val_sym. rewrite (quantum1 a). reflexivity.
  - cbn [base64.EncodeToString]. rewrite !strip_newlines_sym.
    cbn [base64.decode_quanta base64.pad base64.padded base64.StdEncoding].
    rewrite !val_sym.
    destruct (quantum2 a b) as [Q1 Q2]. cbv zeta in Q1, Q2. rewrite Q1, Q2. reflexivity.
  - cbn [base64.EncodeToString]. rewrite !strip_newlines_sym.
    cbn [base64.decode_quanta]. rewrite !val_sym.
    rewrite IH by (cbn [length] in Hn; lia).
    destruct (quantum3 a b c) as (Q1 & Q2 & Q3). cbv zeta in Q1, Q2, Q3.
    rewrite Q1, Q2, Q3. reflexivity.
Qed.

Lemma strip_encode_length (src : bytes) :
  (length src
   <= 3 * length (base64.strip_newlines
                    (base64.EncodeToString base64.StdEncoding src)))%nat.
Proof.
  induction src as [|a|a b|a b c l IH] using list_ind3.
  - cbn. lia.
  - cbn [base64.EncodeToString]. rewrite !strip_newlines_sym. cbn [length]. lia.
  - cbn [base64.EncodeToString]. rewrite !strip_newlines_sym. cbn [length]. lia.
  - cbn [base64.EncodeToString]. rewrite !strip_newlines_sym. cbn [length]. lia.
Qed.

Lemma DecodeString_EncodeToString (src : bytes) :
  base64.DecodeString base64.StdEncoding
    (base64.EncodeToString base64.StdEncoding src) = Some src.
Proof.
  unfold base64.DecodeString. cbv zeta. apply decode_encode.
  pose proof (strip_encode_length src). lia.
Qed.

Lemma ValidatePublicKey_encoded (k : bytes) :
  length k = 32%nat ->
  wgmanager.ValidatePublicKey (base64.EncodeToString base64.StdEncoding k) = true.
Proof.
  intros L. unfold wgmanager.ValidatePublicKey.
  rewrite DecodeString_EncodeToString, L. reflexivity.
Qed.

Lemma length_take_pad (n : nat) (b : bytes) : length (take n (b ++ repeat x00 n)) = n.
Proof. rewrite length_take, length_app, repeat_length. lia. Qed.

Lemma clamp_low (x : byte) : b2z (z2b (Z.land (b2z x) 248)) mod 8 = 0.
Proof. destruct x; reflexivity. Qed.

Lemma clamp_high (x : byte) :
  64 <= b2z (z2b (Z.lor (Z.land (b2z x) 127) 64)) < 128.
Proof. destruct x; vm_compute; split; congruence. Qed.

(** X19.  Every key pair that is generated passes the key check of the
    interface manager, whatever the random bytes and whatever the curve
    library returns: both keys are the base64 of 32 bytes.  The private key
    is clamped: its first byte is a multiple of 8 and its last byte has the
    top bit clear and the next one set.  The generation fails only when the
    random source does. *)
Theorem GenerateKeyPair_keys_pass_validation {vendor : Vendor} (w : World) :
  match fst (wgmanager.GenerateKeyPair w) with
  | Ok (privateKey, publicKey) =>
      wgmanager.ValidatePublicKey privateKey = true /\
      wgmanager.ValidatePublicKey publicKey = true /\
      exists k b0 b31,
        base64.DecodeString base64.StdEncoding privateKey = Some k /\
        length k = 32%nat /\
        k !! 0%nat = Some b0 /\ b2z b0 mod 8 = 0 /\
        k !! 31%nat = Some b31 /\ 64 <= b2z b31 < 128
  | Err _ => faulty w = true
  end.
Proof.
  unfold wgmanager.GenerateKeyPair, bind, rand_Read, ret.
  destruct (faulty w); [reflexivity|]. cbn [fst].
  set (raw := take 32 (hd [] (entropy w) ++ repeat x00 32)).
  assert (Lr : length raw = 32%nat) by apply length_take_pad.
  assert (Lc : length (wgmanager.clamp raw) = 32%nat).
  { unfold wgmanager.clamp, bytes. rewrite !length_alter. exact Lr. }
  split; [apply ValidatePublicKey_encoded; exact Lc|].
  split; [apply ValidatePublicKey_encoded; apply length_take_pad|].
  destruct (lookup_lt_is_Some_2 raw 0 ltac:(lia)) as [x0 X0].
  destruct (lookup_lt_is_Some_2 raw 31 ltac:(lia)) as [x31 X31].
  exists (wgmanager.clamp raw), (z2b (Z.land (b2z x0) 248)),
    (z2b (Z.lor (Z.land (b2z x31) 127) 64)).
  split; [apply DecodeString_EncodeToString|]. split; [exact Lc|].
  unfold wgmanager.clamp, bytes.
  split; [rewrite list_lookup_alter_ne by lia; rewrite list_lookup_alter, X0; reflexivity|].
  split; [apply clamp_low|].
  split; [rewrite list_lookup_alter, list_lookup_alter_ne by lia; rewrite X31; reflexivity|].
  apply clamp_high.
Qed.

(** ** The limiter along a trace *)

Local Open Scope Q_scope.

Lemma Allow_true_tokens (t : Z) (l l' : rate.Limiter) :
  rate.limit l = login_rate -> rate.burst l = 5%Z ->
  rate.Allow t l = (true, l') -> - (1 # 12000000000) < rate.tokens l'.
Proof.
  intros Li Bu A. unfold rate.Allow in A. rewrite Li, Bu in A.
  change (Qeq_bool login_rate 0) with false in A. cbv beta iota in A.
  set (tokens := rate.advance l t - 1) in *.
  destruct (rate.Qlt_bool tokens 0) eqn:N.
  - unfold rate.durationFromTokens in A.
    change (Qle_bool login_rate 0) with false in A. cbv beta iota in A.
    destruct (Qfloor _ <=? 0)%Z eqn:D.
    + cbn in A. injection A as <-. cbn [rate.tokens]. apply Z.leb_le in D.
      pose proof (Qlt_floor (- tokens / login_rate * rate.second)) as F.
      assert (I : inject_Z (Qfloor (- tokens / login_rate * rate.second) + 1) <= 1).
      { change 1 with (inject_Z 1). rewrite <- Zle_Qle. lia. }
      assert (E : - tokens / login_rate * rate.second == - tokens * 12000000000).
      { unfold login_rate, rate.second. field. }
      assert (F' : - tokens * 12000000000
                   < inject_Z (Qfloor (- tokens / login_rate * rate.second) + 1)).
      { rewrite <- E. exact F. }
      clearbody tokens. lra.
    + rewrite andb_false_r in A. discriminate.
  - cbn in A. injection A as <-. cbn [rate.tokens]. apply Qlt_bool_false in N. lra.
Qed.

Lemma spent_admits (k t1 t : Z) (l : rate.Limiter) :
  spent k t1 t l -> - (1 # 12000000000) < rate.tokens l ->
  (12000000000 * (k - 5) <= t - t1)%Z.
Proof.
  intros (_ & _ & _ & To) Lo.
  assert (X : inject_Z (12000000000 * (k - 5)) < inject_Z (t - t1 + 1)).
  { rewrite inject_Z_mult, inject_Z_plus.
    replace (k - 5)%Z with (- (5 - k))%Z by lia. rewrite inject_Z_opp.
    change (inject_Z 12000000000) with 12000000000. change (inject_Z 1) with 1. lra. }
  rewrite <- Zlt_Qlt in X. lia.
Qed.

Lemma Allow_from_full (t1 k t : Z) (l l' : rate.Limiter) :
  rate.limit l = login_rate -> rate.burst l = 5%Z ->
  (12000000000 * k <= t - t1)%Z ->
  rate.Allow t l = (true, l') -> spent (k + 1) t1 t l'.
Proof.
  intros Li Bu K A.
  destruct (Allow_keeps_config _ _ _ _ Li Bu A) as (Li' & Bu' & X).
  destruct (X eq_refl) as [La' To']. unfold spent. repeat split; auto.
  rewrite To'. destruct (advance_bound l t Li Bu) as [Ad _].
  assert (I : inject_Z (12000000000 * k) <= inject_Z (t - t1)) by (rewrite <- Zle_Qle; lia).
  rewrite inject_Z_mult in I. change (inject_Z 12000000000) with 12000000000 in I.
  replace (5 - (k + 1))%Z with (4 + - k)%Z by lia.
  rewrite inject_Z_plus, inject_Z_opp. change (inject_Z 4) with 4. lra.
Qed.

Local Open Scope Z_scope.

Lemma Allow_false (t : Z) (l l' : rate.Limiter) :
  rate.Allow t l = (false, l') -> l' = l.
Proof.
  unfold rate.Allow.
  repeat match goal with |- context [if ?c then _ else _] => destruct c end;
    intros [=]; congruence.
Qed.

Lemma charged_later (t1 k now now' : Z) (o : option middleware.visitorInfo) :
  charged t1 k now o -> now <= now' -> charged t1 k now' o.
Proof.
  destruct o; cbn; [|lia]. intros [->|(t & S & Le & Se & B)] L; [left; reflexivity|].
  right. exists t. split; [exact S|]. lia.
Qed.

Lemma charged_cleanup (ip : string) (t1 k now0 now : Z) (rl : middleware.RateLimiter) :
  charged t1 k now0 (middleware.visitors rl !! ip) -> t1 <= now0 <= now -> 0 <= k ->
  charged t1 k now (middleware.visitors (middleware.cleanupVisitors now rl) !! ip).
Proof.
  intros C T K. cbn [middleware.cleanupVisitors middleware.visitors].
  destruct (middleware.visitors rl !! ip) as [v|] eqn:V.
  - destruct (decide (3 * 60 * 1000000000 < now - middleware.lastSeen v)) as [Old|Young].
    + rewrite (proj2 (map_lookup_filter_None _ _ _)).
      2:{ right. intros x Vx. rewrite V in Vx. injection Vx as <-. cbn. tauto. }
      cbn. cbn in C. destruct C as [->|(t & _ & Le & Se & B)]; lia.
    + rewrite (map_lookup_filter_Some_2 _ _ _ _ V) by (cbn; exact Young).
      apply (charged_later _ _ now0); [exact C | lia].
  - rewrite (proj2 (map_lookup_filter_None _ _ _)) by (left; exact V).
    cbn in *. lia.
Qed.

Lemma charged_request (ip : string) (t1 k now0 now : Z) (rl : middleware.RateLimiter) :
  configured rl ->
  charged t1 k now0 (middleware.visitors rl !! ip) -> t1 <= now0 <= now -> 0 <= k ->
  let k' := k + match fst (middleware.Middleware ip now rl) with None => 1 | Some _ => 0 end in
  charged t1 k' now (middleware.visitors (snd (middleware.Middleware ip now rl)) !! ip) /\
  12000000000 * (k' - 5) <= now - t1.
Proof.
  intros (Ra & Bu & Vs) C T K.
  destruct (Middleware_entry ip now rl) as (R & E & _). cbv zeta in R, E.
  rewrite R, E. clear R E. cbn [charged middleware.limiter middleware.lastSeen].
  destruct (middleware.visitors rl !! ip) as [v|] eqn:V.
  - destruct (Vs _ _ V) as [Li Bv].
    destruct (rate.Allow now (middleware.limiter v)) as [[] l'] eqn:A; cbn [fst snd].
    + pose proof (Allow_true_tokens _ _ _ Li Bv A) as Lo.
      assert (S : spent (k + 1) t1 now l').
      { cbn in C. destruct C as [->|(t & S & Le & Se & B)].
        - apply (Allow_from_full t1 0 now _ _ Li Bv); [lia | exact A].
        - destruct S as (X1 & X2 & X3 & X4).
          apply (Allow_next k t1 t now _ _ (conj X1 (conj X2 (conj X3 X4)))); [lia | exact A]. }
      pose proof (spent_admits _ _ _ _ S Lo) as B'.
      split; [|exact B']. right. exists now. split; [exact S|]. lia.
    + apply Allow_false in A. subst l'. rewrite Z.add_0_r. split.
      * cbn in C. destruct C as [->|(t & S & Le & Se & B)]; [left; reflexivity|].
        right. exists t. split; [exact S|]. lia.
      * cbn in C. destruct C as [->|(t & S & Le & Se & B)]; lia.
  - rewrite Ra, Bu.
    assert (Lo0 : left_over 0 (rate.NewLimiter login_rate 5)).
    { split; [reflexivity|]. split; [reflexivity|]. cbn. apply Qle_refl. }
    destruct (Allow_left_over 0 now _ Lo0 ltac:(lia)) as [Ok _].
    destruct (rate.Allow now (rate.NewLimiter login_rate 5)) as [ok l'] eqn:A.
    cbn [fst snd] in *. subst ok.
    pose proof (Allow_true_tokens now (rate.NewLimiter login_rate 5) l' eq_refl eq_refl A) as Lo.
    cbn in C.
    assert (S : spent (k + 1) t1 now l').
    { apply (Allow_from_full t1 k now (rate.NewLimiter login_rate 5) l' eq_refl eq_refl);
        [lia | exact A]. }
    pose proof (spent_admits _ _ _ _ S Lo) as B'.
    split; [|exact B']. right. exists now. split; [exact S|]. lia.
Qed.

Lemma admitted_charged (ip : string) (t1 span : Z) (trace : list middleware.Tick) :
  forall (rl : middleware.RateLimiter) (k now0 : Z),
    configured rl ->
    charged t1 k now0 (middleware.visitors rl !! ip) ->
    t1 <= now0 -> 0 <= k -> 12000000000 * (k - 5) <= span ->
    ordered now0 trace ->
    Forall (fun tk => middleware.tick_time tk <= t1 + span) trace ->
    12000000000 * (k + admitted ip rl trace - 5) <= span.
Proof.
  induction trace as [|tk rest IH]; intros rl k now0 Co C T K B O F.
  - cbn. rewrite Z.add_0_r. exact B.
  - cbn [admitted]. destruct O as [O1 O2]. inversion F as [|? ? F1 F2]; subst.
    rewrite Z.add_assoc.
    destruct tk as [ip' now|now]; cbn [middleware.tick_time] in *.
    + destruct (decide (ip' = ip)) as [->|Ne].
      * destruct (charged_request ip t1 k now0 now rl Co C ltac:(lia) K) as [C' B'].
        cbv zeta in C', B'.
        apply (IH _ _ now (step_configured _ (middleware.Request ip now) Co) C');
          try assumption; try lia.
        destruct (fst (middleware.Middleware ip now rl)); lia.
      * rewrite Z.add_0_r.
        apply (IH _ _ now (step_configured _ (middleware.Request ip' now) Co));
          try assumption; try lia.
        cbn [middleware.step].
        destruct (Middleware_entry ip' now rl) as (_ & _ & Fr).
        rewrite (Fr ip) by congruence.
        apply (charged_later _ _ now0); [exact C | lia].
    + rewrite Z.add_0_r.
      apply (IH _ _ now (step_configured _ (middleware.Cleanup now) Co));
        try assumption; try lia.
      cbn [middleware.step]. apply (charged_cleanup ip t1 k now0); [exact C | lia | exact K].
Qed.

(** X20.  From any state of the limiter with the login settings, along any
    trace of requests and cleanup ticks whose times do not go back, a source
    has at most five attempts admitted and one more for every twelve seconds
    less a microsecond that the trace spans: neither the cleanup nor the
    requests of other sources win it an attempt.  The microsecond covers
    the rounding of the library's floating-point tokens, which can admit an
    attempt up to a nanosecond before its token is refilled. *)
Theorem admitted_attempts_are_bounded
    (rl : middleware.RateLimiter) (ip : string) (t1 span : Z) (trace : list middleware.Tick) :
  configured rl ->
  0 <= span ->
  ordered t1 trace ->
  Forall (fun tk => middleware.tick_time tk <= t1 + span) trace ->
  (12000000000 - 1000) * (admitted ip rl trace - 5) <= span.
Proof.
  intros Co Sp O F.
  assert (B : 12000000000 * (0 + admitted ip rl trace - 5) <= span).
  { apply (admitted_charged ip t1 span trace rl 0 t1 Co); try assumption; try lia.
    destruct (middleware.visitors rl !! ip); cbn; [left; reflexivity | lia]. }
  destruct (Z_le_gt_dec 5 (admitted ip rl trace)) as [Ge|Lt]; nia.
Qed.

Local Open Scope Q_scope.

Lemma Allow_decides (t : Z) (l : rate.Limiter) :
  rate.limit l = login_rate -> rate.burst l = 5%Z ->
  (- (1 # 12000000000) < rate.advance l t - 1 ->
   rate.Allow t l = (true, {| rate.limit := rate.limit l; rate.burst := rate.burst l;
                              rate.tokens := rate.advance l t - 1; rate.last := t |})) /\
  (rate.advance l t - 1 <= - (1 # 12000000000) -> rate.Allow t l = (false, l)).
Proof.
  intros Li Bu.
  assert (X : forall b l', rate.Allow t l = (b, l') ->
              (b = true -> - (1 # 12000000000) < rate.advance l t - 1 /\
                           l' = {| rate.limit := rate.limit l; rate.burst := rate.burst l;
                                   rate.tokens := rate.advance l t - 1; rate.last := t |}) /\
              (b = false -> rate.advance l t - 1 <= - (1 # 12000000000) /\ l' = l)).
  { intros b l' A. split; intros ->.
    - split; [|].
      + pose proof (Allow_true_tokens _ _ _ Li Bu A) as Lo.
        destruct (Allow_keeps_config _ _ _ _ Li Bu A) as (_ & _ & Y).
        destruct (Y eq_refl) as [_ <-]. exact Lo.
      + unfold rate.Allow in A.
        destruct (Qeq_bool (rate.limit l) 0) eqn:Z0; [rewrite Li in Z0; discriminate|].
        cbv zeta in A. destruct (_ && _)%bool; [|discriminate]. congruence.
    - split; [|exact (Allow_false _ _ _ A)].
      destruct (Qlt_le_dec (- (1 # 12000000000)) (rate.advance l t - 1)) as [Lt|Le];
        [|exact Le].
      exfalso. unfold rate.Allow in A. rewrite Li, Bu in A.
      change (Qeq_bool login_rate 0) with false in A. cbv beta iota in A.
      set (tokens := rate.advance l t - 1) in *.
      destruct (rate.Qlt_bool tokens 0) eqn:N.
      + unfold rate.durationFromTokens in A.
        change (Qle_bool login_rate 0) with false in A. cbv beta iota in A.
        assert (F : (Qfloor (- tokens / login_rate * rate.second) <= 0)%Z).
        { assert (E : - tokens / login_rate * rate.second == - tokens * 12000000000).
          { unfold login_rate, rate.second. field. }
          assert (G : - tokens / login_rate * rate.second < inject_Z 1).
          { rewrite E. change (inject_Z 1) with 1. clearbody tokens. lra. }
          pose proof (Qfloor_le (- tokens / login_rate * rate.second)) as Fl.
          assert (G' : inject_Z (Qfloor (- tokens / login_rate * rate.second)) < inject_Z 1).
          { eapply Qle_lt_trans; [exact Fl | exact G]. }
          rewrite <- Zlt_Qlt in G'. lia. }
        apply Z.leb_le in F. rewrite F in A. cbn in A. discriminate.
      + cbn in A. discriminate. }
  destruct (rate.Allow t l) as [b l'] eqn:A. destruct (X b l' eq_refl) as [Xt Xf].
  destruct b.
  - destruct (Xt eq_refl) as [Lt ->]. split; [reflexivity|]. intros Le. lra.
  - destruct (Xf eq_refl) as [Le ->]. split; [|reflexivity]. intros Lt. lra.
Qed.

Lemma advance_same (l l' : rate.Limiter) (t : Z) :
  same_bucket l l' -> rate.advance l t == rate.advance l' t.
Proof.
  intros (Li & Bu & La & To). unfold rate.advance. rewrite <- Li, <- Bu, <- La.
  set (d := rate.tokensFromDuration _ _).
  destruct (rate.Qlt_bool _ (rate.tokens l + d)) eqn:A;
    destruct (rate.Qlt_bool _ (rate.tokens l' + d)) eqn:B;
    try apply Qlt_bool_true in A; try apply Qlt_bool_false in A;
    try apply Qlt_bool_true in B; try apply Qlt_bool_false in B; lra.
Qed.

Lemma Allow_same (l l' : rate.Limiter) (t : Z) :
  rate.limit l = login_rate -> rate.burst l = 5%Z ->
  same_bucket l l' ->
  fst (rate.Allow t l) = fst (rate.Allow t l') /\
  same_bucket (snd (rate.Allow t l)) (snd (rate.Allow t l')).
Proof.
  intros Li Bu Sa. pose proof Sa as (Li' & Bu' & La & To).
  pose proof (advance_same l l' t Sa) as Ad.
  destruct (Allow_decides t l Li Bu) as [Y N].
  destruct (Allow_decides t l' ltac:(congruence) ltac:(congruence)) as [Y' N'].
  destruct (Qlt_le_dec (- (1 # 12000000000)) (rate.advance l t - 1)) as [Lt|Le].
  - rewrite (Y Lt), (Y' ltac:(lra)). cbn. split; [reflexivity|].
    repeat split; cbn; auto. lra.
  - rewrite (N Le), (N' ltac:(lra)). cbn. split; [reflexivity | exact Sa].
Qed.

Lemma advance_full (t : Z) : rate.advance (rate.NewLimiter login_rate 5) t == 5.
Proof.
  apply Qle_antisym.
  - apply (advance_bound (rate.NewLimiter login_rate 5) t eq_refl eq_refl).
  - apply (advance_at_least (rate.NewLimiter login_rate 5) t 5 eq_refl eq_refl);
      cbn; apply Qle_refl.
Qed.

Lemma advance_idle (l : rate.Limiter) (t : Z) :
  rate.limit l = login_rate -> rate.burst l = 5%Z ->
  (3 * 60 * 1000000000 < t - rate.last l)%Z -> - (1) <= rate.tokens l ->
  rate.advance l t == 5.
Proof.
  intros Li Bu Id To. unfold rate.advance. rewrite Li, Bu.
  destruct (t <? rate.last l)%Z eqn:E; [apply Z.ltb_lt in E; lia|].
  pose proof (tokensFromDuration_login (t - rate.last l)) as D.
  assert (I : inject_Z 180000000000 <= inject_Z (t - rate.last l)).
  { rewrite <- Zle_Qle. lia. }
  change (inject_Z 180000000000) with 180000000000 in I.
  change (inject_Z 5) with 5.
  destruct (rate.Qlt_bool 5 _) eqn:A; [reflexivity|].
  apply Qlt_bool_false in A. lra.
Qed.

Local Open Scope Z_scope.

Lemma Allow_settled (now : Z) (l : rate.Limiter) :
  rate.limit l = login_rate -> rate.burst l = 5 ->
  (- (1) <= rate.tokens l)%Q -> rate.last l <= now ->
  settled now {| middleware.limiter := snd (rate.Allow now l); middleware.lastSeen := now |}.
Proof.
  intros Li Bu To La. unfold settled. cbn [middleware.limiter middleware.lastSeen].
  destruct (rate.Allow now l) as [b l'] eqn:A. cbn [snd].
  destruct (Allow_keeps_config _ _ _ _ Li Bu A) as (Li' & Bu' & X).
  split; [exact Li'|]. split; [exact Bu'|].
  destruct b.
  - pose proof (Allow_true_tokens _ _ _ Li Bu A) as Lo.
    destruct (X eq_refl) as [-> _]. split; [lia | lra].
  - apply Allow_false in A. subst l'. split; [lia | exact To].
Qed.

Lemma same_bucket_refl (l : rate.Limiter) : same_bucket l l.
Proof. repeat split; reflexivity. Qed.

Lemma agree_later (now0 now : Z) (o o' : option middleware.visitorInfo) :
  agree now0 o o' -> now0 <= now -> agree now o o'.
Proof.
  destruct o' as [v'|]; cbn; [|tauto]. intros [(Li & Bu & La & To) Ag] Le.
  split; [repeat split; auto; lia|]. destruct o; [exact Ag | lia].
Qed.

Lemma agree_request (ip : string) (now0 now : Z) (rl rl' : middleware.RateLimiter) :
  configured rl -> configured rl' ->
  agree now0 (middleware.visitors rl !! ip) (middleware.visitors rl' !! ip) -> now0 <= now ->
  fst (middleware.Middleware ip now rl) = fst (middleware.Middleware ip now rl') /\
  agree now (middleware.visitors (snd (middleware.Middleware ip now rl)) !! ip)
            (middleware.visitors (snd (middleware.Middleware ip now rl')) !! ip).
Proof.
  intros (Ra & Bu & Vs) (Ra' & Bu' & Vs') Ag Le.
  destruct (Middleware_entry ip now rl) as (R & E & _).
  destruct (Middleware_entry ip now rl') as (R' & E' & _).
  cbv zeta in R, E, R', E'. rewrite R, E, R', E'. clear R E R' E'.
  cbn [agree middleware.lastSeen middleware.limiter].
  destruct (middleware.visitors rl' !! ip) as [v'|] eqn:V'.
  - destruct Ag as [(Li' & Bv' & La' & To') Ag].
    destruct (middleware.visitors rl !! ip) as [v|] eqn:V.
    + destruct Ag as [Ls Sa]. destruct (Vs _ _ V) as [Li Bv].
      destruct (Allow_same _ _ now Li Bv Sa) as [F S].
      rewrite F. split; [reflexivity|].
      split; [apply Allow_settled; auto; lia|]. split; [reflexivity | exact S].
    + rewrite Ra, Bu.
      pose proof (advance_full now) as A0.
      pose proof (advance_idle (middleware.limiter v') now Li' Bv' ltac:(lia) To') as A1.
      destruct (Allow_decides now (rate.NewLimiter login_rate 5) eq_refl eq_refl) as [Y0 _].
      destruct (Allow_decides now (middleware.limiter v') Li' Bv') as [Y1 _].
      rewrite Y0 by lra. rewrite Y1 by lra. cbn [fst snd]. split; [reflexivity|].
      split.
      * repeat split; cbn; auto; try lia. lra.
      * split; [reflexivity|]. repeat split; cbn; auto. lra.
  - rewrite Ag, Ra, Bu, Ra', Bu'. split; [reflexivity|].
    split; [|split; [reflexivity | apply same_bucket_refl]].
    pose proof (advance_full now) as A0.
    destruct (Allow_decides now (rate.NewLimiter login_rate 5) eq_refl eq_refl) as [Y0 _].
    rewrite Y0 by lra. repeat split; cbn; auto; try lia. lra.
Qed.

Lemma answers_agree (ip : string) (trace : list middleware.Tick) :
  forall (rl rl' : middleware.RateLimiter) (now0 : Z),
    configured rl -> configured rl' ->
    agree now0 (middleware.visitors rl !! ip) (middleware.visitors rl' !! ip) ->
    ordered now0 trace ->
    answers ip rl trace = answers ip rl' (own ip trace).
Proof.
  induction trace as [|tk rest IH]; intros rl rl' now0 Co Co' Ag O; [reflexivity|].
  destruct O as [O1 O2]. destruct tk as [ip' now|now]; cbn [middleware.tick_time] in *.
  - cbn [answers own]. destruct (decide (ip' = ip)) as [->|Ne].
    + cbn [answers]. destruct (decide (ip = ip)) as [_|]; [|congruence].
      destruct (agree_request ip now0 now rl rl' Co Co' Ag O1) as [F Ag'].
      rewrite F. f_equal.
      exact (IH _ _ now (step_configured _ (middleware.Request ip now) Co)
                (step_configured _ (middleware.Request ip now) Co') Ag' O2).
    + cbn [app].
      apply (IH _ _ now (step_configured _ (middleware.Request ip' now) Co) Co'); [|exact O2].
      * cbn [middleware.step].
        destruct (Middleware_entry ip' now rl) as (_ & _ & Fr).
        rewrite (Fr ip) by congruence. exact (agree_later _ _ _ _ Ag O1).
  - cbn [answers own app].
    apply (IH _ _ now (step_configured _ (middleware.Cleanup now) Co) Co'); [|exact O2].
    + cbn [middleware.step middleware.cleanupVisitors middleware.visitors].
      apply (agree_later now0 now) in Ag; [|exact O1].
      destruct (middleware.visitors rl !! ip) as [v|] eqn:V.
      * destruct (decide (3 * 60 * 1000000000 < now - middleware.lastSeen v)) as [Old|Young].
        -- rewrite (proj2 (map_lookup_filter_None _ _ _)).
           2:{ right. intros x Vx. rewrite V in Vx. injection Vx as <-. cbn. tauto. }
           destruct (middleware.visitors rl' !! ip) as [v'|]; cbn in *; [|reflexivity].
           destruct Ag as [Se [Ls _]]. split; [exact Se | lia].
        -- rewrite (map_lookup_filter_Some_2 _ _ _ _ V) by (cbn; exact Young). exact Ag.
      * rewrite (proj2 (map_lookup_filter_None _ _ _)) by (left; exact V). exact Ag.
Qed.

(** X21.  What a source is answered depends on its own requests only: for a
    source the limiter holds no entry of, along a trace whose times do not go
    back, the answers are those it would get if the requests of the other
    sources and the ticks of the cleanup were left out.  The cleanup drops an
    entry only after three idle minutes, when its bucket is full again. *)
Theorem answers_depend_on_own_requests
    (rl : middleware.RateLimiter) (ip : string) (t0 : Z) (trace : list middleware.Tick) :
  configured rl ->
  middleware.visitors rl !! ip = None ->
  ordered t0 trace ->
  answers ip rl trace = answers ip rl (own ip trace).
Proof.
  intros Co New O. apply (answers_agree ip trace rl rl t0 Co Co); [|exact O].
  rewrite New. reflexivity.
Qed.

Lemma admitted_attempts_are_bounded_witness :
  let ip := "203.0.113.7" in
  let trace := [middleware.Request ip (0 * second);
                middleware.Request ip (1 * second);
                middleware.Request "198.51.100.1" (1 * second);
                middleware.Request ip (2 * second);
                middleware.Request ip (3 * second);
                middleware.Request ip (4 * second);
                middleware.Request ip (5 * second);
                middleware.Cleanup (10 * second);
                middleware.Request ip (13 * second);
                middleware.Request ip (14 * second)] in
  admitted ip (middleware.NewRateLimiter 5 60) trace = 6 /\
  (12000000000 - 1000) * (admitted ip (middleware.NewRateLimiter 5 60) trace - 5)
  <= 14 * second.
Proof.
  intros ip trace. split; [vm_compute; reflexivity|].
  apply (admitted_attempts_are_bounded (middleware.NewRateLimiter 5 60) ip (0 * second)
           (14 * second) trace configured_new).
  - unfold second. lia.
  - subst trace. unfold second. cbn. lia.
  - subst trace. unfold second. repeat constructor; cbn; lia.
Defined.

Lemma answers_depend_on_own_requests_witness :
  let ip := "203.0.113.7" in
  let trace := [middleware.Request ip (0 * second);
                middleware.Request "198.51.100.1" (1 * second);
                middleware.Request ip (2 * second);
                middleware.Cleanup (200 * second);
                middleware.Request ip (201 * second)] in
  own ip trace = [middleware.Request ip (0 * second);
                  middleware.Request ip (2 * second);
                  middleware.Request ip (201 * second)] /\
  answers ip (middleware.NewRateLimiter 5 60) trace
  = answers ip (middleware.NewRateLimiter 5 60) (own ip trace).
Proof.
  intros ip trace. split; [vm_compute; reflexivity|].
  apply (answers_depend_on_own_requests (middleware.NewRateLimiter 5 60) ip (0 * second)
           trace configured_new).
  - reflexivity.
  - subst trace. unfold second. cbn. lia.
Defined.

Lemma five_attempts_of_a_new_source_admitted_witness :
  let ip := "203.0.113.7" in
  let rl := middleware.NewRateLimiter 5 60 in
  let o1 := [middleware.Request "198.51.100.1" (0 * second); middleware.Cleanup (60 * second)] in
  let '(r1, rl1) := middleware.Middleware ip (0 * second) rl in
  let '(r2, rl2) := middleware.Middleware ip (0 * second) (middleware.run rl1 o1) in
  let '(r3, rl3) := middleware.Middleware ip (0 * second) (middleware.run rl2 []) in
  let '(r4, rl4) := middleware.Middleware ip (1 * second) (middleware.run rl3 []) in
  let '(r5, rl5) := middleware.Middleware ip (1 * second) (middleware.run rl4 []) in
  [r1; r2; r3; r4; r5] = [None; None; None; None; None].
Proof.
  intros ip rl o1.
  assert (Q : Forall (quiet ip (0 * second)) (o1 ++ [] ++ [] ++ [])).
  { repeat constructor; cbn; unfold second; try discriminate; lia. }
  exact (five_attempts_of_a_new_source_admitted rl ip
           (0 * second) (0 * second) (0 * second) (1 * second) (1 * second)
           o1 [] [] [] configured_new eq_refl
           ltac:(unfold second; lia) ltac:(unfold second; lia) ltac:(unfold second; lia)
           ltac:(unfold second; lia) Q).
Defined.
